(** * Fabric data-agent accuracy framework: a shallow embedding

    The development follows the Python sources

    - [utils/sql_validator.py]   (dialect checker and rewriter),
    - [utils/pbip_extractor.py]  (DAX measure translator),
    - [notebooks/05_Accuracy_Testing.py] (accuracy evaluator),
    - [notebooks/06_Self_Learning.py]    (self-learning loop).

    Part I holds the definitions, one module per source file, preceded by
    the small models of the Python built-ins they call ([str] methods and
    the [re] module).  Part II holds the lemmas and theorems.

    Modelling conventions.
    - A Python [str] is a list of characters.  The modules [Py] and [Re]
      cover ASCII text: case mapping and the character classes are those
      of Python on code points below 128, and a byte above 127 is a
      caseless symbol.  The dialect check and the measure translator are
      also written on any text, the characters and Python's operations on
      them being parameters (module [Unicode]): what they recognise is
      proved there, for Unicode as for ASCII.
    - A Python [float] is a binary64 primitive float.
    - The agent client, the DAX engine and their failures are external:
      they are functions of an abstract world, and an exception is the
      value [Raise e] of an outcome type. *)

From Stdlib Require Import Ascii List Bool Arith Lia ZArith Floats.
Import ListNotations.

Set Implicit Arguments.
Set Warnings "-inexact-float".


(* ================================================================== *)
(** * Part I: definitions                                              *)
(* ================================================================== *)

(** ** Python strings *)

Definition str := list ascii.

Inductive str_literal : Set :=
| lit_nil
| lit_cons (c : ascii) (s : str_literal).

Fixpoint literal_of_bytes (l : list Byte.byte) : str_literal :=
  match l with
  | [] => lit_nil
  | b :: l' => lit_cons (ascii_of_byte b) (literal_of_bytes l')
  end.

Fixpoint bytes_of_literal (s : str_literal) : list Byte.byte :=
  match s with
  | lit_nil => []
  | lit_cons c s' => byte_of_ascii c :: bytes_of_literal s'
  end.

Declare Scope str_scope.
Delimit Scope str_scope with str.
Bind Scope str_scope with str.

#[warnings="-via-type-remapping,-via-type-mismatch"]
String Notation str literal_of_bytes bytes_of_literal
  (via str_literal mapping [[nil] => lit_nil, [cons] => lit_cons]) : str_scope.

Open Scope str_scope.
Open Scope list_scope.

Module Py.

(** Character predicates, on code points below 128. *)

Definition between (lo hi : nat) (c : ascii) : bool :=
  let n := nat_of_ascii c in (lo <=? n) && (n <=? hi).

Definition is_lower (c : ascii) : bool := between 97 122 c.
Definition is_upper (c : ascii) : bool := between 65 90 c.
Definition is_digit (c : ascii) : bool := between 48 57 c.   (* \d *)

(** [\s]: tab, line feed, vertical tab, form feed, carriage return,
    the four separators 0x1c-0x1f and the space. *)
Definition is_space (c : ascii) : bool :=
  between 9 13 c || between 28 32 c.

(** [\w]: letters, digits and the underscore. *)
Definition is_word (c : ascii) : bool :=
  is_lower c || is_upper c || is_digit c || (nat_of_ascii c =? 95).

Definition upper_char (c : ascii) : ascii :=
  if is_lower c then ascii_of_nat (nat_of_ascii c - 32) else c.

Definition lower_char (c : ascii) : ascii :=
  if is_upper c then ascii_of_nat (nat_of_ascii c + 32) else c.

(** [s.upper()] and [s.lower()]. *)
Definition upper (s : str) : str := map upper_char s.
Definition lower (s : str) : str := map lower_char s.

(** [s.startswith(t)]. *)
Fixpoint startswith (t s : str) : bool :=
  match t, s with
  | [], _ => true
  | _ :: _, [] => false
  | a :: t', b :: s' => Ascii.eqb a b && startswith t' s'
  end.

(** [t in s]: [t] occurs in [s] as a contiguous substring. *)
Fixpoint contains (t s : str) : bool :=
  startswith t s ||
  match s with
  | [] => false
  | _ :: s' => contains t s'
  end.

(** [any(k in s for k in ks)]. *)
Definition any_in (ks : list str) (s : str) : bool :=
  existsb (fun k => contains k s) ks.

(** A character without case: the only character with the same
    upper-case form is itself. *)
Definition caseless (c : ascii) : Prop :=
  forall x, upper_char x = upper_char c <-> x = c.

(** [s.endswith(t)]. *)
Definition endswith (t s : str) : bool := startswith (rev t) (rev s).

(** [s.isascii()]: every character is a code point below 128. *)
Definition is_ascii (s : str) : bool :=
  forallb (fun c => nat_of_ascii c <? 128) s.

End Py.

(** ** Occurrences across a junction

    Tools to decide whether a word [n] can occur in a text put together
    from pieces, some of them known. *)

Module Words.

(** The places where [n] can be cut in two non-empty halves. *)
Definition cuts (n : str) : list nat := seq 1 (length n - 1).

(** [n] occurs in [x ++ y] across the junction: a first half ends [x] and
    the second half begins [y]. *)
Definition straddles (n x y : str) : bool :=
  existsb (fun k => Py.endswith (firstn k n) x && Py.startswith (skipn k n) y)
          (cuts n).

(** [t] and [y] agree as far as both go. *)
Definition prefix_compat (t y : str) : bool :=
  Py.startswith t y || Py.startswith y t.

Definition suffix_compat (t x : str) : bool :=
  Py.endswith t x || Py.endswith x t.

(** [n] may occur across the junction of a text that ends with [x0] and a
    text that begins with [y0]. *)
Definition may_straddle (n x0 y0 : str) : bool :=
  existsb (fun k => suffix_compat (firstn k n) x0
                    && prefix_compat (skipn k n) y0)
          (cuts n).

(** A proper, non-empty end of [n] may begin a text that begins with
    [y0]. *)
Definition may_begin (n y0 : str) : bool :=
  existsb (fun k => prefix_compat (skipn k n) y0) (cuts n).

(** The character [c] does not occur in [n]. *)
Definition foreign (n : str) (c : ascii) : bool :=
  negb (existsb (Ascii.eqb c) n).

End Words.


(** ** The [re] module

    The patterns of the sources are sequences of literal characters,
    single characters of a class ([\s]) and greedy repetitions of a class
    ([\s+], [\s*], [\d+], [\w+], [[^,]+]), an optional capturing group
    around a repetition.  Every call passes [re.IGNORECASE], so a literal
    matches a character when both have the same lower-case form. *)

Module Re.

Inductive atom : Type :=
| Lit (c : ascii)                                  (* a literal character *)
| One (cls : ascii -> bool)                        (* one character of a class *)
| Rep (cls : ascii -> bool) (lo : nat) (cap : bool).
    (* at least [lo] characters of a class, greedy; [cap]: a group *)

Definition pattern := list atom.

(** A run of literal characters. *)
Definition lit (s : str) : pattern := map Lit s.

Definition ci_eq (a b : ascii) : bool :=
  Ascii.eqb (Py.lower_char a) (Py.lower_char b).

(** Length of the longest prefix of [s] inside the class. *)
Fixpoint span (cls : ascii -> bool) (s : str) : nat :=
  match s with
  | [] => 0
  | c :: s' => if cls c then S (span cls s') else 0
  end.

(** Backtracking over the length of a greedy repetition: the candidates
    [k], [k-1], ..., [lo], the longest first. *)
Fixpoint try_down (A : Type) (lo k : nat) (f : nat -> option A) : option A :=
  if k <? lo then None
  else match f k with
       | Some r => Some r
       | None => match k with
                 | 0 => None
                 | S k' => try_down lo k' f
                 end
       end.

(** [match_here p s]: the match of [p] anchored at the head of [s], as
    the captured groups (in order) and the number of characters
    consumed. *)
Fixpoint match_here (p : pattern) (s : str) : option (list str * nat) :=
  match p with
  | [] => Some ([], 0)
  | Lit c :: p' =>
      match s with
      | x :: s' =>
          if ci_eq c x then
            match match_here p' s' with
            | Some (g, n) => Some (g, S n)
            | None => None
            end
          else None
      | [] => None
      end
  | One cls :: p' =>
      match s with
      | x :: s' =>
          if cls x then
            match match_here p' s' with
            | Some (g, n) => Some (g, S n)
            | None => None
            end
          else None
      | [] => None
      end
  | Rep cls lo cap :: p' =>
      try_down lo (span cls s)
        (fun k =>
           match match_here p' (skipn k s) with
           | Some (g, n) =>
               Some (if cap then firstn k s :: g else g, k + n)
           | None => None
           end)
  end.

(** A match object: where it starts, how long it is, its groups. *)
Record Match : Type := mkMatch {
  m_start : nat;
  m_len : nat;
  m_groups : list str
}.

(** [re.search(p, s, re.IGNORECASE)]: the leftmost match. *)
Fixpoint search_from (p : pattern) (s : str) (i : nat) : option Match :=
  match match_here p s with
  | Some (g, n) => Some (mkMatch i n g)
  | None =>
      match s with
      | [] => None
      | _ :: s' => search_from p s' (S i)
      end
  end.

Definition search (p : pattern) (s : str) : option Match :=
  search_from p s 0.

(** [m.group(k)], for [k >= 1]. *)
Definition group (m : Match) (k : nat) : str := nth (k - 1) (m_groups m) [].

(** Replacement templates: text and group references [\k]. *)
Inductive piece : Type :=
| Text (s : str)
| Ref (k : nat).

Definition template := list piece.

Fixpoint expand (t : template) (g : list str) : str :=
  match t with
  | [] => []
  | Text s :: t' => s ++ expand t' g
  | Ref k :: t' => nth (k - 1) g [] ++ expand t' g
  end.

(** [re.sub(p, t, s, count, re.IGNORECASE)]: the non-overlapping matches
    are replaced from left to right; [count = 0] replaces all of them.
    [skip] counts the characters of the current match still to drop, and
    [left] the replacements still allowed ([None]: no limit).  An empty
    match is replaced and the scan moves one character on. *)
Fixpoint sub_from (p : pattern) (t : template) (left : option nat)
         (skip : nat) (s : str) : str :=
  match skip with
  | S k =>
      match s with
      | [] => []
      | _ :: s' => sub_from p t left k s'
      end
  | 0 =>
      match left with
      | Some 0 => s
      | _ =>
          let left' := option_map pred left in
          match match_here p s with
          | Some (g, n) =>
              expand t g ++
              match s with
              | [] => []
              | c :: s' =>
                  match n with
                  | 0 => c :: sub_from p t left' 0 s'
                  | S n' => sub_from p t left' n' s'
                  end
              end
          | None =>
              match s with
              | [] => []
              | c :: s' => c :: sub_from p t left 0 s'
              end
          end
      end
  end.

Definition sub (p : pattern) (t : template) (s : str) (count : nat) : str :=
  sub_from p t (match count with 0 => None | S _ => Some count end) 0 s.

(** *** What a match is

    [matches p m g]: the text [m] is matched by [p] as a whole, with
    groups [g].  This is the reading of a pattern as a set of strings,
    with no reference to the search strategy. *)
Inductive matches : pattern -> str -> list str -> Prop :=
| matches_nil : matches [] [] []
| matches_lit c x p m g :
    ci_eq c x = true -> matches p m g ->
    matches (Lit c :: p) (x :: m) g
| matches_one cls x p m g :
    cls x = true -> matches p m g ->
    matches (One cls :: p) (x :: m) g
| matches_rep cls lo cap w p m g :
    forallb cls w = true -> lo <= length w -> matches p m g ->
    matches (Rep cls lo cap :: p) (w ++ m) (if cap then w :: g else g).

(** [p] matches somewhere in [s]. *)
Definition occurs (p : pattern) (s : str) : Prop :=
  exists pre m post g, s = pre ++ m ++ post /\ matches p m g.

(** [p] has no empty match. *)
Definition never_empty (p : pattern) : Prop :=
  forall s g, match_here p s <> Some (g, 0).

(** [rewritten p t s out]: [out] is [s] with every match of [p] replaced
    through [t], the matches taken from left to right: the text before
    the first match has no match beginning in it, and the rest is
    rewritten in the same way. *)
Inductive rewritten (p : pattern) (t : template) : str -> str -> Prop :=
| rewritten_none u :
    search p u = None -> rewritten p t u u
| rewritten_match u m g rest out :
    (forall k, k < length u ->
               match_here p (skipn k (u ++ m ++ rest)) = None) ->
    match_here p (m ++ rest) = Some (g, length m) ->
    m <> [] ->
    rewritten p t rest out ->
    rewritten p t (u ++ m ++ rest) (u ++ expand t g ++ out).

End Re.

(** ** utils/sql_validator.py *)

Module sql_validator.
Import Re.

(** The dictionary returned by [validate_sql_syntax]. *)
Record SyntaxCheck : Type := mkSyntaxCheck {
  valid : bool;
  issues : list str
}.

Definition issue_limit : str := "Use 'TOP N' instead of 'LIMIT' for T-SQL".
Definition issue_date_sub : str :=
  "Use 'DATEADD(DAY, -N, date)' instead of 'DATE_SUB' for T-SQL".
Definition issue_date_add : str :=
  "Use 'DATEADD()' instead of 'DATE_ADD()' for T-SQL".
Definition issue_current_date : str :=
  "Use 'GETDATE()' or 'CAST(GETDATE() AS DATE)' instead of 'CURRENT_DATE' for T-SQL".
Definition issue_structure : str :=
  "Query must start with SELECT, INSERT, UPDATE, or DELETE".

(** [issues.append(x)] under a condition. *)
Definition append_if (c : bool) (x : str) (l : list str) : list str :=
  if c then l ++ [x] else l.

Definition validate_sql_syntax (sql : str) : SyntaxCheck :=
  let issues := [] in
  let sql_upper := Py.upper sql in
  let issues :=
    append_if (Py.contains " LIMIT " sql_upper) issue_limit issues in
  let issues :=
    append_if (Py.contains "DATE_SUB(" sql_upper) issue_date_sub issues in
  let issues :=
    append_if (Py.contains "DATE_ADD(" sql_upper
               && negb (Py.contains "DATEADD(" sql_upper))
      issue_date_add issues in
  let issues :=
    append_if (Py.contains "CURRENT_DATE" sql_upper
               && negb (Py.contains "GETDATE()" sql_upper))
      issue_current_date issues in
  let issues :=
    append_if (negb (Py.any_in ["SELECT"; "INSERT"; "UPDATE"; "DELETE"] sql_upper))
      issue_structure issues in
  {| valid := length issues =? 0; issues := issues |}.

(** [r'\sLIMIT\s+(\d+)'] *)
Definition limit_re : pattern :=
  [One Py.is_space] ++ lit "LIMIT"
    ++ [Rep Py.is_space 1 false; Rep Py.is_digit 1 true].

(** [r'\sLIMIT\s+\d+'] *)
Definition limit_clause_re : pattern :=
  [One Py.is_space] ++ lit "LIMIT"
    ++ [Rep Py.is_space 1 false; Rep Py.is_digit 1 false].

(** [r'SELECT\s+'] *)
Definition select_re : pattern := lit "SELECT" ++ [Rep Py.is_space 1 false].

Definition not_comma (c : ascii) : bool := negb (Ascii.eqb c ",").

(** [r"DATE_SUB\(([^,]+),\s*(\d+)\)"] *)
Definition date_sub_re : pattern :=
  lit "DATE_SUB("
    ++ [Rep not_comma 1 true; Lit ","; Rep Py.is_space 0 false;
        Rep Py.is_digit 1 true; Lit ")"].

(** [r"DATEADD(DAY, -\2, \1)"] *)
Definition dateadd_template : template :=
  [Text "DATEADD(DAY, -"; Ref 2; Text ", "; Ref 1; Text ")"].

(** [r"CURRENT_DATE"] *)
Definition current_date_re : pattern := lit "CURRENT_DATE".

Definition convert_spark_to_tsql (sql : str) : str :=
  let result := sql in
  (* LIMIT N -> TOP N *)
  let result :=
    match search limit_re result with
    | Some limit_match =>
        let n := group limit_match 1 in
        (* Remove LIMIT clause *)
        let result := sub limit_clause_re [] result 0 in
        (* Add TOP after SELECT *)
        sub select_re [Text ("SELECT TOP " ++ n ++ " ")] result 1
    | None => result
    end in
  (* DATE_SUB(date, N) -> DATEADD(DAY, -N, date) *)
  let result := sub date_sub_re dateadd_template result 0 in
  (* CURRENT_DATE -> CAST(GETDATE() AS DATE) *)
  let result :=
    sub current_date_re [Text "CAST(GETDATE() AS DATE)"] result 0 in
  result.

(** The number of issues reported for a query. *)
Definition issue_count (sql : str) : nat :=
  length (issues (validate_sql_syntax sql)).

(** *** Vocabulary of the statements *)

(** The token [t] (given in upper case) occurs in [q], in any mix of
    cases. *)
Definition occurs_ci (t q : str) : Prop :=
  exists pre m post, q = pre ++ m ++ post /\ Py.upper m = t.

(** One entry, or none. *)
Definition entry_if (b : bool) (x : str) : list str :=
  if b then [x] else [].

Definition keywords : list str := ["SELECT"; "INSERT"; "UPDATE"; "DELETE"].

End sql_validator.

(** ** utils/pbip_extractor.py *)

Module pbip_extractor.
Import Re.

(** The example dictionary built by [convert_dax_to_example]. *)
Record Example : Type := mkExample {
  question : str;
  sql : str;
  source : str;
  original_dax : str
}.

(** [FUNC\((\w+)\[(\w+)\]\)] for a function name [FUNC]. *)
Definition call_re (func : str) : pattern :=
  lit func
    ++ [Lit "("; Rep Py.is_word 1 true; Lit "["; Rep Py.is_word 1 true;
        Lit "]"; Lit ")"].

Definition convert_dax_to_example (measure_name dax_expression : str)
  : option Example :=
  let dax_upper := Py.upper dax_expression in
  (* Pattern: DISTINCTCOUNT(Table[Column]) *)
  if Py.contains "DISTINCTCOUNT" dax_upper then
    match search (call_re "DISTINCTCOUNT") dax_expression with
    | Some m =>
        let table := group m 1 in
        let column := group m 2 in
        Some {| question := "How many total " ++ Py.lower measure_name ++ "?";
                sql := "SELECT COUNT(DISTINCT " ++ column ++ ") AS "
                         ++ measure_name ++ " FROM dbo." ++ table;
                source := "pbip_measure";
                original_dax := dax_expression |}
    | None => None
    end
  (* Pattern: SUM(Table[Column]) *)
  else if Py.contains "SUM(" dax_upper && negb (Py.contains "SUMX" dax_upper) then
    match search (call_re "SUM") dax_expression with
    | Some m =>
        let table := group m 1 in
        let column := group m 2 in
        Some {| question := "What is the total " ++ Py.lower measure_name ++ "?";
                sql := "SELECT SUM(" ++ column ++ ") AS "
                         ++ measure_name ++ " FROM dbo." ++ table;
                source := "pbip_measure";
                original_dax := dax_expression |}
    | None => None
    end
  (* Pattern: AVERAGE(Table[Column]) *)
  else if Py.contains "AVERAGE(" dax_upper then
    match search (call_re "AVERAGE") dax_expression with
    | Some m =>
        let table := group m 1 in
        let column := group m 2 in
        Some {| question := "What is the average " ++ Py.lower measure_name ++ "?";
                sql := "SELECT AVG(CAST(" ++ column ++ " AS FLOAT)) AS "
                         ++ measure_name ++ " FROM dbo." ++ table;
                source := "pbip_measure";
                original_dax := dax_expression |}
    | None => None
    end
  (* Pattern: COUNT(Table[Column]) *)
  else if Py.contains "COUNT(" dax_upper
          && negb (Py.contains "DISTINCTCOUNT" dax_upper) then
    match search (call_re "COUNT") dax_expression with
    | Some m =>
        let table := group m 1 in
        let column := group m 2 in
        Some {| question := "How many " ++ Py.lower measure_name ++ "?";
                sql := "SELECT COUNT(" ++ column ++ ") AS "
                         ++ measure_name ++ " FROM dbo." ++ table;
                source := "pbip_measure";
                original_dax := dax_expression |}
    | None => None
    end
  (* Pattern: MAX(Table[Column]) *)
  else if Py.contains "MAX(" dax_upper then
    match search (call_re "MAX") dax_expression with
    | Some m =>
        let table := group m 1 in
        let column := group m 2 in
        Some {| question := "What is the maximum " ++ Py.lower measure_name ++ "?";
                sql := "SELECT MAX(" ++ column ++ ") AS "
                         ++ measure_name ++ " FROM dbo." ++ table;
                source := "pbip_measure";
                original_dax := dax_expression |}
    | None => None
    end
  (* Pattern: MIN(Table[Column]) *)
  else if Py.contains "MIN(" dax_upper then
    match search (call_re "MIN") dax_expression with
    | Some m =>
        let table := group m 1 in
        let column := group m 2 in
        Some {| question := "What is the minimum " ++ Py.lower measure_name ++ "?";
                sql := "SELECT MIN(" ++ column ++ ") AS "
                         ++ measure_name ++ " FROM dbo." ++ table;
                source := "pbip_measure";
                original_dax := dax_expression |}
    | None => None
    end
  else None.






(** *** Vocabulary of the statements *)

(** The text [m] is a call [FUNC(Table[Column])] of the function [func]
    (in any mix of cases) on a table and a column made of word
    characters. *)
Definition is_call (func m table column : str) : Prop :=
  exists f,
    m = f ++ "(" ++ table ++ "[" ++ column ++ "])"
    /\ Py.upper f = func
    /\ table <> [] /\ forallb Py.is_word table = true
    /\ column <> [] /\ forallb Py.is_word column = true.

(** Such a call occurs in the expression [e]. *)
Definition has_call (func e table column : str) : Prop :=
  exists pre m post, e = pre ++ m ++ post /\ is_call func m table column.

(** The translator as a table of rules in priority order: each rule has
    a marker that selects it, a function name whose call it captures and
    an example it builds.  The first rule whose marker is found decides. *)
Inductive aggregate : Type :=
| DistinctCount | Sum | Average | Count | Max | Min.

Definition priority : list aggregate :=
  [DistinctCount; Sum; Average; Count; Max; Min].

Definition func_name (a : aggregate) : str :=
  match a with
  | DistinctCount => "DISTINCTCOUNT"
  | Sum => "SUM"
  | Average => "AVERAGE"
  | Count => "COUNT"
  | Max => "MAX"
  | Min => "MIN"
  end.

Definition marker (a : aggregate) (dax_upper : str) : bool :=
  match a with
  | DistinctCount => Py.contains "DISTINCTCOUNT" dax_upper
  | Sum => Py.contains "SUM(" dax_upper && negb (Py.contains "SUMX" dax_upper)
  | Average => Py.contains "AVERAGE(" dax_upper
  | Count => Py.contains "COUNT(" dax_upper
             && negb (Py.contains "DISTINCTCOUNT" dax_upper)
  | Max => Py.contains "MAX(" dax_upper
  | Min => Py.contains "MIN(" dax_upper
  end.

Definition question_of (a : aggregate) (measure_name : str) : str :=
  match a with
  | DistinctCount => "How many total " ++ Py.lower measure_name ++ "?"
  | Sum => "What is the total " ++ Py.lower measure_name ++ "?"
  | Average => "What is the average " ++ Py.lower measure_name ++ "?"
  | Count => "How many " ++ Py.lower measure_name ++ "?"
  | Max => "What is the maximum " ++ Py.lower measure_name ++ "?"
  | Min => "What is the minimum " ++ Py.lower measure_name ++ "?"
  end.

(** The aggregate expression of the query, on a column. *)
Definition sql_aggregate (a : aggregate) (column : str) : str :=
  match a with
  | DistinctCount => "COUNT(DISTINCT " ++ column ++ ")"
  | Sum => "SUM(" ++ column ++ ")"
  | Average => "AVG(CAST(" ++ column ++ " AS FLOAT))"
  | Count => "COUNT(" ++ column ++ ")"
  | Max => "MAX(" ++ column ++ ")"
  | Min => "MIN(" ++ column ++ ")"
  end.

Definition example_of (a : aggregate) (measure_name dax_expression : str)
  (table column : str) : Example :=
  {| question := question_of a measure_name;
     sql := "SELECT " ++ sql_aggregate a column ++ " AS " ++ measure_name
              ++ " FROM dbo." ++ table;
     source := "pbip_measure";
     original_dax := dax_expression |}.




(** The rule selected for an expression: the first marker found. *)
Definition selected (dax_expression : str) : option aggregate :=
  find (fun a => marker a (Py.upper dax_expression)) priority.

End pbip_extractor.

(** ** The checker and the translator on any text

    [validate_sql_syntax] and [convert_dax_to_example] read their
    argument through [str.upper], [str.lower], the class [\w] and the
    comparison of [re.IGNORECASE], which Python defines on all of
    Unicode: a character may change into several ones under [upper], and
    a letter may match a character that is not its [upper] or [lower]
    form.  Here the two functions are written once more with the
    characters and these four operations as parameters, so that what is
    proved of them holds for the operations of Python, whatever they do
    outside ASCII.  The literals of the sources are ASCII: [chr] gives the
    character of each.  [ascii_text] is the instance used by the modules
    above. *)

Unset Implicit Arguments.

Module Unicode.
Import sql_validator pbip_extractor.

Record Text : Type := mkText {
  char : Type;
  char_eqb : char -> char -> bool;       (* [==] on characters *)
  chr : ascii -> char;                   (* the character of an ASCII code *)
  upper : list char -> list char;        (* [s.upper()] *)
  lower : list char -> list char;        (* [s.lower()] *)
  is_word : char -> bool;                (* [\w] *)
  ci_eq : char -> char -> bool
    (* a literal of a pattern against a character, [re.IGNORECASE] *)
}.

Section WithText.
Variable T : Text.

Definition string : Type := list (char T).

(** The Python string of an ASCII literal of the sources. *)
Definition text (s : str) : string := map (chr T) s.

(** [s.startswith(t)] *)
Fixpoint startswith (t s : string) : bool :=
  match t, s with
  | [], _ => true
  | _ :: _, [] => false
  | a :: t', b :: s' => char_eqb T a b && startswith t' s'
  end.

(** [t in s] *)
Fixpoint contains (t s : string) : bool :=
  startswith t s ||
  match s with
  | [] => false
  | _ :: s' => contains t s'
  end.

(** [any(k in s for k in ks)] *)
Definition any_in (ks : list string) (s : string) : bool :=
  existsb (fun k => contains k s) ks.

(** *** utils/sql_validator.py *)

Definition validate_sql_syntax (sql : string) : SyntaxCheck :=
  let issues := [] in
  let sql_upper := upper T sql in
  let issues :=
    append_if (contains (text " LIMIT ") sql_upper) issue_limit issues in
  let issues :=
    append_if (contains (text "DATE_SUB(") sql_upper) issue_date_sub issues in
  let issues :=
    append_if (contains (text "DATE_ADD(") sql_upper
               && negb (contains (text "DATEADD(") sql_upper))
      issue_date_add issues in
  let issues :=
    append_if (contains (text "CURRENT_DATE") sql_upper
               && negb (contains (text "GETDATE()") sql_upper))
      issue_current_date issues in
  let issues :=
    append_if
      (negb (any_in (map text ["SELECT"; "INSERT"; "UPDATE"; "DELETE"])
               sql_upper))
      issue_structure issues in
  {| valid := length issues =? 0; issues := issues |}.

(** *** The [re] module: literals and greedy repetitions of a class *)

Inductive atom : Type :=
| Lit (c : char T)
| Rep (cls : char T -> bool) (lo : nat) (cap : bool).

Definition pattern := list atom.

Definition lit (s : string) : pattern := map Lit s.

Fixpoint span (cls : char T -> bool) (s : string) : nat :=
  match s with
  | [] => 0
  | c :: s' => if cls c then S (span cls s') else 0
  end.

Fixpoint match_here (p : pattern) (s : string)
  : option (list string * nat) :=
  match p with
  | [] => Some ([], 0)
  | Lit c :: p' =>
      match s with
      | x :: s' =>
          if ci_eq T c x then
            match match_here p' s' with
            | Some (g, n) => Some (g, S n)
            | None => None
            end
          else None
      | [] => None
      end
  | Rep cls lo cap :: p' =>
      Re.try_down lo (span cls s)
        (fun k =>
           match match_here p' (skipn k s) with
           | Some (g, n) =>
               Some (if cap then firstn k s :: g else g, k + n)
           | None => None
           end)
  end.

Record Match : Type := mkMatch {
  m_start : nat;
  m_len : nat;
  m_groups : list string
}.

(** [re.search(p, s, re.IGNORECASE)]: the leftmost match. *)
Fixpoint search_from (p : pattern) (s : string) (i : nat) : option Match :=
  match match_here p s with
  | Some (g, n) => Some (mkMatch i n g)
  | None =>
      match s with
      | [] => None
      | _ :: s' => search_from p s' (S i)
      end
  end.

Definition search (p : pattern) (s : string) : option Match :=
  search_from p s 0.

(** [m.group(k)], for [k >= 1]. *)
Definition group (m : Match) (k : nat) : string :=
  nth (k - 1) (m_groups m) [].

(** [matches p m g]: the text [m] is matched by [p] as a whole, with
    groups [g]. *)
Inductive matches : pattern -> string -> list string -> Prop :=
| matches_nil : matches [] [] []
| matches_lit c x p m g :
    ci_eq T c x = true -> matches p m g ->
    matches (Lit c :: p) (x :: m) g
| matches_rep cls lo cap w p m g :
    forallb cls w = true -> lo <= length w -> matches p m g ->
    matches (Rep cls lo cap :: p) (w ++ m) (if cap then w :: g else g).

(** *** utils/pbip_extractor.py *)

Record Example : Type := mkExample {
  question : string;
  sql : string;
  source : string;
  original_dax : string
}.

(** [FUNC\((\w+)\[(\w+)\]\)] for a function name [FUNC]. *)
Definition call_re (func : str) : pattern :=
  lit (text func)
    ++ [Lit (chr T "("); Rep (is_word T) 1 true; Lit (chr T "[");
        Rep (is_word T) 1 true; Lit (chr T "]"); Lit (chr T ")")].

Definition convert_dax_to_example (measure_name dax_expression : string)
  : option Example :=
  let dax_upper := upper T dax_expression in
  (* Pattern: DISTINCTCOUNT(Table[Column]) *)
  if contains (text "DISTINCTCOUNT") dax_upper then
    match search (call_re "DISTINCTCOUNT") dax_expression with
    | Some m =>
        let table := group m 1 in
        let column := group m 2 in
        Some {| question := text "How many total " ++ lower T measure_name ++ text "?";
                sql := text "SELECT COUNT(DISTINCT " ++ column ++ text ") AS "
                         ++ measure_name ++ text " FROM dbo." ++ table;
                source := text "pbip_measure";
                original_dax := dax_expression |}
    | None => None
    end
  (* Pattern: SUM(Table[Column]) *)
  else if contains (text "SUM(") dax_upper
          && negb (contains (text "SUMX") dax_upper) then
    match search (call_re "SUM") dax_expression with
    | Some m =>
        let table := group m 1 in
        let column := group m 2 in
        Some {| question := text "What is the total " ++ lower T measure_name ++ text "?";
                sql := text "SELECT SUM(" ++ column ++ text ") AS "
                         ++ measure_name ++ text " FROM dbo." ++ table;
                source := text "pbip_measure";
                original_dax := dax_expression |}
    | None => None
    end
  (* Pattern: AVERAGE(Table[Column]) *)
  else if contains (text "AVERAGE(") dax_upper then
    match search (call_re "AVERAGE") dax_expression with
    | Some m =>
        let table := group m 1 in
        let column := group m 2 in
        Some {| question := text "What is the average " ++ lower T measure_name ++ text "?";
                sql := text "SELECT AVG(CAST(" ++ column ++ text " AS FLOAT)) AS "
                         ++ measure_name ++ text " FROM dbo." ++ table;
                source := text "pbip_measure";
                original_dax := dax_expression |}
    | None => None
    end
  (* Pattern: COUNT(Table[Column]) *)
  else if contains (text "COUNT(") dax_upper
          && negb (contains (text "DISTINCTCOUNT") dax_upper) then
    match search (call_re "COUNT") dax_expression with
    | Some m =>
        let table := group m 1 in
        let column := group m 2 in
        Some {| question := text "How many " ++ lower T measure_name ++ text "?";
                sql := text "SELECT COUNT(" ++ column ++ text ") AS "
                         ++ measure_name ++ text " FROM dbo." ++ table;
                source := text "pbip_measure";
                original_dax := dax_expression |}
    | None => None
    end
  (* Pattern: MAX(Table[Column]) *)
  else if contains (text "MAX(") dax_upper then
    match search (call_re "MAX") dax_expression with
    | Some m =>
        let table := group m 1 in
        let column := group m 2 in
        Some {| question := text "What is the maximum " ++ lower T measure_name ++ text "?";
                sql := text "SELECT MAX(" ++ column ++ text ") AS "
                         ++ measure_name ++ text " FROM dbo." ++ table;
                source := text "pbip_measure";
                original_dax := dax_expression |}
    | None => None
    end
  (* Pattern: MIN(Table[Column]) *)
  else if contains (text "MIN(") dax_upper then
    match search (call_re "MIN") dax_expression with
    | Some m =>
        let table := group m 1 in
        let column := group m 2 in
        Some {| question := text "What is the minimum " ++ lower T measure_name ++ text "?";
                sql := text "SELECT MIN(" ++ column ++ text ") AS "
                         ++ measure_name ++ text " FROM dbo." ++ table;
                source := text "pbip_measure";
                original_dax := dax_expression |}
    | None => None
    end
  else None.

(** *** Vocabulary of the statements *)


(** The text [m] is the ASCII text [t] as [re.IGNORECASE] reads it:
    character by character, each one is matched by the literal. *)
Definition ci_text (t : str) (m : string) : Prop :=
  Forall2 (fun c x => ci_eq T (chr T c) x = true) t m.

(** The text [m] is a call [FUNC(Table[Column])] of the function [func]
    on a table and a column made of word characters. *)
Definition is_call (func : str) (m table column : string) : Prop :=
  exists f,
    m = f ++ text "(" ++ table ++ text "[" ++ column ++ text "])"
    /\ ci_text func f
    /\ table <> [] /\ forallb (is_word T) table = true
    /\ column <> [] /\ forallb (is_word T) column = true.

(** Such a call begins at the position [i] of the expression [e]. *)
Definition call_at (func : str) (e : string) (i : nat)
  (table column : string) : Prop :=
  exists pre m post,
    e = pre ++ m ++ post /\ length pre = i /\ is_call func m table column.

(** The table and the column of the leftmost call of [func] in [e]. *)
Definition first_call (func : str) (e table column : string) : Prop :=
  exists i,
    call_at func e i table column
    /\ forall j t c, call_at func e j t c -> i <= j.

Definition marker (a : aggregate) (dax_upper : string) : bool :=
  match a with
  | DistinctCount => contains (text "DISTINCTCOUNT") dax_upper
  | Sum => contains (text "SUM(") dax_upper
           && negb (contains (text "SUMX") dax_upper)
  | Average => contains (text "AVERAGE(") dax_upper
  | Count => contains (text "COUNT(") dax_upper
             && negb (contains (text "DISTINCTCOUNT") dax_upper)
  | Max => contains (text "MAX(") dax_upper
  | Min => contains (text "MIN(") dax_upper
  end.

(** The rule selected for an expression: the first marker found in its
    upper-cased form, in the order of [priority]. *)
Definition selected (dax_expression : string) : option aggregate :=
  find (fun a => marker a (upper T dax_expression)) priority.

Definition question_of (a : aggregate) (measure_name : string) : string :=
  match a with
  | DistinctCount => text "How many total " ++ lower T measure_name ++ text "?"
  | Sum => text "What is the total " ++ lower T measure_name ++ text "?"
  | Average => text "What is the average " ++ lower T measure_name ++ text "?"
  | Count => text "How many " ++ lower T measure_name ++ text "?"
  | Max => text "What is the maximum " ++ lower T measure_name ++ text "?"
  | Min => text "What is the minimum " ++ lower T measure_name ++ text "?"
  end.

Definition sql_aggregate (a : aggregate) (column : string) : string :=
  match a with
  | DistinctCount => text "COUNT(DISTINCT " ++ column ++ text ")"
  | Sum => text "SUM(" ++ column ++ text ")"
  | Average => text "AVG(CAST(" ++ column ++ text " AS FLOAT))"
  | Count => text "COUNT(" ++ column ++ text ")"
  | Max => text "MAX(" ++ column ++ text ")"
  | Min => text "MIN(" ++ column ++ text ")"
  end.

Definition example_of (a : aggregate) (measure_name dax_expression : string)
  (table column : string) : Example :=
  {| question := question_of a measure_name;
     sql := text "SELECT " ++ sql_aggregate a column ++ text " AS "
              ++ measure_name ++ text " FROM dbo." ++ table;
     source := text "pbip_measure";
     original_dax := dax_expression |}.

(** What the statements assume of the operations, all of it true of
    Python: [==] is equality; the parentheses and the brackets have no
    case, so that the literal of each matches nothing else; and the
    brackets are not word characters. *)
Record Laws : Prop := mkLaws {
  char_eqb_eq : forall a b, char_eqb T a b = true <-> a = b;
  paren_open :
    forall x, ci_eq T (chr T "(") x = true <-> x = chr T "(";
  bracket_open :
    forall x, ci_eq T (chr T "[") x = true <-> x = chr T "[";
  bracket_close :
    forall x, ci_eq T (chr T "]") x = true <-> x = chr T "]";
  paren_close :
    forall x, ci_eq T (chr T ")") x = true <-> x = chr T ")";
  bracket_open_not_word : is_word T (chr T "[") = false;
  bracket_close_not_word : is_word T (chr T "]") = false
}.

End WithText.

(** The text of the modules above: ASCII characters, with the case
    mapping, the class and the comparison of [Py] and [Re]. *)
Definition ascii_text : Text :=
  {| char := ascii;
     char_eqb := Ascii.eqb;
     chr := fun c => c;
     upper := Py.upper;
     lower := Py.lower;
     is_word := Py.is_word;
     ci_eq := Re.ci_eq |}.

(** The patterns, matches and examples of this instance, as those of
    [Re] and [pbip_extractor]. *)
Definition to_atom (a : atom ascii_text) : Re.atom :=
  match a with
  | Lit _ c => Re.Lit c
  | Rep _ cls lo cap => Re.Rep cls lo cap
  end.

Definition to_match (m : Match ascii_text) : Re.Match :=
  Re.mkMatch (m_start _ m) (m_len _ m) (m_groups _ m).

Definition to_example (x : Example ascii_text) : pbip_extractor.Example :=
  pbip_extractor.mkExample (question _ x) (sql _ x) (source _ x)
    (original_dax _ x).

End Unicode.

Set Implicit Arguments.

(** ** Exceptions and state

    A Python computation that reads and writes a state [S] and may raise:
    the state reached is kept when an exception is raised, as for Python
    objects. *)

Module Eff.

(** An exception value; [message e] is [str(e)]. *)
Record exn : Type := Exception { message : str }.

Inductive Outcome (A : Type) : Type :=
| Ok (a : A)
| Raise (e : exn).
Arguments Ok {A} a.
Arguments Raise {A} e.

Definition M (S A : Type) : Type := S -> Outcome A * S.

Definition ret {S A : Type} (a : A) : M S A := fun s => (Ok a, s).

Definition raise {S A : Type} (e : exn) : M S A := fun s => (Raise e, s).

Definition bind {S A B : Type} (c : M S A) (k : A -> M S B) : M S B :=
  fun s =>
    match c s with
    | (Ok a, s') => k a s'
    | (Raise e, s') => (Raise e, s')
    end.

(** [try: c  except Exception as e: h e]. *)
Definition try_except {S A : Type} (c : M S A) (h : exn -> M S A) : M S A :=
  fun s =>
    match c s with
    | (Ok a, s') => (Ok a, s')
    | (Raise e, s') => h e s'
    end.

Definition get {S : Type} : M S S := fun s => (Ok s, s).
Definition modify {S : Type} (f : S -> S) : M S unit := fun s => (Ok tt, f s).

(** The value or exception of a pure expression. *)
Definition of_outcome {S A : Type} (o : Outcome A) : M S A := fun s => (o, s).

(** A computation on the outer state, run below a local one. *)
Definition lift {L S A : Type} (c : M S A) : M (L * S) A :=
  fun ls =>
    let '(o, s') := c (snd ls) in (o, (fst ls, s')).

(** Read and write the local component. *)
Definition get_local {L S : Type} : M (L * S) L := fun ls => (Ok (fst ls), ls).
Definition set_local {L S : Type} (f : L -> L) : M (L * S) unit :=
  fun ls => (Ok tt, (f (fst ls), snd ls)).

(** Run [c] with a local variable initialised to [l]; its final value is
    returned. *)
Definition locally {L S : Type} (l : L) (c : M (L * S) unit) : M S L :=
  fun s =>
    match c (l, s) with
    | (Ok _, (l', s')) => (Ok l', s')
    | (Raise e, (_, s')) => (Raise e, s')
    end.

(** [for x in xs: body x]. *)
Fixpoint for_each {S A : Type} (xs : list A) (body : A -> M S unit) : M S unit :=
  match xs with
  | [] => ret tt
  | x :: xs' => bind (body x) (fun _ => for_each xs' body)
  end.

End Eff.

Declare Scope eff_scope.
Delimit Scope eff_scope with eff.
Notation "x <- c ;; k" := (Eff.bind c (fun x => k))
  (at level 61, c at next level, right associativity) : eff_scope.
Notation "c ;; k" := (Eff.bind c (fun _ => k))
  (at level 61, right associativity) : eff_scope.

(** ** notebooks/05_Accuracy_Testing.py *)

Module accuracy_testing.
Import Eff.
Local Open Scope eff_scope.

Definition TOLERANCE : float := 0.01%float.

Record TestCase : Type := mkTestCase {
  question : str;
  expected_dax : str;
  metric_name : str;
  description : option str
}.

(** A value found in a result cell, seen through [float(.)]: a number,
    or something [float] rejects with the given message. *)
Inductive cell : Type :=
| Num (x : float)
| NotNum (msg : str).

Definition py_float (c : cell) : Outcome float :=
  match c with
  | Num x => Ok x
  | NotNum msg => Raise (Exception msg)
  end.

(** A row of the agent's answer: a list or tuple, a dictionary (its
    values in order), or another object. *)
Inductive row : Type :=
| RowSeq (cells : list cell)
| RowDict (items : list (str * cell))
| RowOther.

(** The agent's answer; [data] is [response.get('data')]. *)
Record Response : Type := mkResponse { data : option (list row) }.

(** A pandas data frame, row by row. *)
Definition DataFrame : Type := list (list cell).

(** The external collaborators, over a world [W]:
    [client.query], [fabric.evaluate_dax], [client.add_example],
    [client.publish], and whether [sempy] could be imported. *)
Record Services (W : Type) : Type := mkServices {
  query : str -> M W Response;
  evaluate_dax : str -> str -> M W DataFrame;
  SEMPY_AVAILABLE : bool;
  add_example : str -> str -> M W unit;
  publish : M W unit
}.

(** The result dictionary of one test.  The key ['error'] is absent
    ([None]) unless the test ended in an exception. *)
Record Result : Type := mkResult {
  r_question : str;
  r_metric : str;
  r_status : str;
  r_agent_value : option float;
  r_expected_value : option float;
  r_difference : option float;
  r_error : option str
}.

Definition set_status (v : str) (r : Result) : Result :=
  mkResult (r_question r) (r_metric r) v (r_agent_value r)
           (r_expected_value r) (r_difference r) (r_error r).
Definition set_agent_value (v : float) (r : Result) : Result :=
  mkResult (r_question r) (r_metric r) (r_status r) (Some v)
           (r_expected_value r) (r_difference r) (r_error r).
Definition set_expected_value (v : float) (r : Result) : Result :=
  mkResult (r_question r) (r_metric r) (r_status r) (r_agent_value r)
           (Some v) (r_difference r) (r_error r).
Definition set_difference (v : float) (r : Result) : Result :=
  mkResult (r_question r) (r_metric r) (r_status r) (r_agent_value r)
           (r_expected_value r) (Some v) (r_error r).
Definition set_error (v : str) (r : Result) : Result :=
  mkResult (r_question r) (r_metric r) (r_status r) (r_agent_value r)
           (r_expected_value r) (r_difference r) (Some v).

(** The tester object: [self.dataset] and [self.results]
    ([self.agent] is the client of the services). *)
Record Tester : Type := mkTester {
  dataset : str;
  results : list Result
}.

Definition set_results (rs : list Result) (t : Tester) : Tester :=
  mkTester (dataset t) rs.

(** [a == b] on strings. *)
Definition str_eqb (a b : str) : bool :=
  if list_eq_dec ascii_dec a b then true else false.

Section WithServices.
Variable W : Type.
Variable svc : Services W.

(** [ReportBasedAccuracyTester.__init__] *)
Definition new_tester (semantic_model : str) : Tester :=
  {| dataset := semantic_model; results := [] |}.

Definition query_report_dax (self_dataset : str) (dax_query : str)
  : M W DataFrame :=
  if negb (SEMPY_AVAILABLE svc) then
    raise (Exception "sempy not available")
  else
    df <- evaluate_dax svc self_dataset dax_query ;;
    ret df.

Definition extract_numeric_value (response : Response) : Outcome float :=
  match data response with
  | Some (first_row :: _) =>
      match first_row with
      | RowSeq (c :: _) => py_float c
      | RowSeq [] => Ok 0%float
      | RowDict ((_, c) :: _) => py_float c
      | RowDict [] => Raise (Exception "list index out of range")
      | RowOther => Ok 0%float
      end
  | _ => Ok 0%float
  end.

(** [float(dax_result.iloc[0, 0])]: on a frame without a first cell the
    scalar access of pandas raises an [IndexError] with this message. *)
Definition iloc_0_0 (df : DataFrame) : Outcome float :=
  match df with
  | (c :: _) :: _ => py_float c
  | _ =>
      Raise (Exception "index 0 is out of bounds for axis 0 with size 0")
  end.

(** The format specification [:.2%] applied to [result['difference']]:
    [None] has no such format. *)
Definition format_percent (d : option float) : Outcome unit :=
  match d with
  | Some _ => Ok tt
  | None =>
      Raise (Exception "unsupported format string passed to NoneType.__format__")
  end.

Definition test_single_case (test_case : TestCase) (tolerance : float)
  : M (Tester * W) Result :=
  let result :=
    {| r_question := question test_case;
       r_metric := metric_name test_case;
       r_status := "unknown";
       r_agent_value := None;
       r_expected_value := None;
       r_difference := None;
       r_error := None |} in
  result <- locally result
    (try_except
       ((* Get agent response *)
        agent_response <- lift (lift (query svc (question test_case))) ;;
        agent_value <- of_outcome (extract_numeric_value agent_response) ;;
        set_local (set_agent_value agent_value) ;;
        (* Get Power BI ground truth *)
        self <- lift get_local ;;
        dax_result <-
          lift (lift (query_report_dax (dataset self)
                        (expected_dax test_case))) ;;
        expected_value <- of_outcome (iloc_0_0 dax_result) ;;
        set_local (set_expected_value expected_value) ;;
        (* Compare *)
        is_match <-
          (if PrimFloat.eqb expected_value 0 then
             ret (PrimFloat.eqb agent_value 0)
           else
             let difference :=
               (PrimFloat.abs (agent_value - expected_value)
                / expected_value)%float in
             set_local (set_difference difference) ;;
             ret (PrimFloat.leb difference tolerance)) ;;
        if is_match : bool then
          set_local (set_status "pass")
        else
          set_local (set_status "fail") ;;
          result <- get_local ;;
          of_outcome (format_percent (r_difference result)))
       (fun e =>
          set_local (set_status "error") ;;
          set_local (set_error (message e)))) ;;
  modify (fun st => (set_results (results (fst st) ++ [result]) (fst st),
                     snd st)) ;;
  ret result.

Definition float_of_nat (n : nat) : float :=
  PrimFloat.of_uint63 (Uint63.of_Z (Z.of_nat n)).

(** [a / b] on integers. *)
Definition truediv (a b : nat) : Outcome float :=
  if b =? 0 then Raise (Exception "division by zero")
  else Ok (float_of_nat a / float_of_nat b)%float.

Record Summary : Type := mkSummary {
  total : nat;
  passed : nat;
  failed : nat;
  errors : nat;
  accuracy : float;
  s_results : list Result
}.

(** [sum(1 for r in rs if r["status"] == v)] *)
Definition count_status (v : str) (rs : list Result) : nat :=
  length (filter (fun r => str_eqb (r_status r) v) rs).

Definition run_test_suite (test_cases : list TestCase)
  : M (Tester * W) Summary :=
  modify (fun st => (set_results [] (fst st), snd st)) ;;
  for_each test_cases
    (fun test_case => test_single_case test_case 0.01%float ;; ret tt) ;;
  (* Calculate summary *)
  self <- get_local ;;
  let passed := count_status "pass" (results self) in
  let failed := count_status "fail" (results self) in
  let errors := count_status "error" (results self) in
  let total := length (results self) in
  accuracy <-
    (if 0 <? total then of_outcome (truediv passed total)
     else ret 0%float) ;;
  ret {| total := total;
         passed := passed;
         failed := failed;
         errors := errors;
         accuracy := accuracy;
         s_results := results self |}.

Definition get_failures : M (Tester * W) (list Result) :=
  self <- get_local ;;
  ret (filter (fun r => str_eqb (r_status r) "fail") (results self)).

(** *** Vocabulary of the statements *)

(** The agent raises [e] when asked the question of [tc]. *)
Definition agent_raises (tc : TestCase) (w : W) (e : exn) : Prop :=
  exists w', query svc (question tc) w = (Raise e, w').

(** The agent answers with a number and the ground-truth query of [tc]
    raises [e]. *)
Definition ground_truth_raises (t : Tester) (tc : TestCase) (w : W)
  (e : exn) : Prop :=
  exists resp w1 a w2,
    query svc (question tc) w = (Ok resp, w1)
    /\ extract_numeric_value resp = Ok a
    /\ query_report_dax (dataset t) (expected_dax tc) w1 = (Raise e, w2).

End WithServices.

Definition final_status (r : Result) : Prop :=
  r_status r = "pass" \/ r_status r = "fail" \/ r_status r = "error".

End accuracy_testing.

(** ** notebooks/06_Self_Learning.py *)

Module self_learning.
Import Eff accuracy_testing.
Local Open Scope eff_scope.

(** [d.get(k)] on a dictionary given by its items. *)
Fixpoint dict_get (d : list (str * str)) (k : str) : option str :=
  match d with
  | [] => None
  | (k', v) :: d' => if str_eqb k' k then Some v else dict_get d' k
  end.

(** A failure is a result dictionary of the tester: it has no
    ['expected_dax'] key, so [failure.get("expected_dax", "")] is [""]. *)
Definition generate_correct_sql (failure : Result) (strategy : str)
  : option str :=
  let metric := r_metric failure in
  if str_eqb strategy "template" then
    (* Use predefined templates based on metric type *)
    let templates :=
      [("TotalUsers",
        "SELECT COUNT(DISTINCT UserId) AS TotalUsers FROM dbo.UsageMetrics");
       ("AvgSatisfaction",
        "SELECT AVG(SatisfactionRate) AS AvgSatisfaction FROM dbo.UsageMetrics");
       ("TotalSessions",
        "SELECT SUM(Sessions) AS TotalSessions FROM dbo.UsageMetrics");
       ("RegionCount",
        "SELECT COUNT(DISTINCT Region) AS RegionCount FROM dbo.UsageMetrics")] in
    dict_get templates metric
  else if str_eqb strategy "dax_convert" then
    let dax : str := "" in
    if Py.contains "DISTINCTCOUNT" dax then
      Some ("SELECT COUNT(DISTINCT column) AS " ++ metric ++ " FROM dbo.table")
    else if Py.contains "AVERAGE" dax then
      Some ("SELECT AVG(column) AS " ++ metric ++ " FROM dbo.table")
    else if Py.contains "SUM" dax then
      Some ("SELECT SUM(column) AS " ++ metric ++ " FROM dbo.table")
    else None
  else None.

(** The dictionary returned by [self_learn_from_failures]. *)
Record Learning : Type := mkLearning {
  learned : nat;
  skipped : nat
}.

(** [not correct_sql]: [None] or the empty string. *)
Definition falsy (o : option str) : bool :=
  match o with
  | None => true
  | Some [] => true
  | Some (_ :: _) => false
  end.

(** The failure has a corrective template. *)
Definition has_template (f : Result) : bool :=
  negb (falsy (generate_correct_sql f "template")).

Section WithServices.
Variable W : Type.
Variable svc : Services W.

(** The loop of [self_learn_from_failures], with its two counters. *)
Fixpoint learn_loop (failures : list Result) (learned skipped : nat)
  : M W Learning :=
  match failures with
  | [] => ret {| learned := learned; skipped := skipped |}
  | failure :: rest =>
      let question := r_question failure in
      (* Generate correct SQL *)
      let correct_sql := generate_correct_sql failure "template" in
      if falsy correct_sql then
        learn_loop rest learned (skipped + 1)
      else
        (* Add as new example *)
        added <-
          try_except
            (add_example svc question
               (match correct_sql with Some q => q | None => [] end) ;;
             ret true)
            (fun e => ret false) ;;
        if added : bool then learn_loop rest (learned + 1) skipped
        else learn_loop rest learned (skipped + 1)
  end.

Definition self_learn_from_failures (failures : list Result)
  (validate : bool) : M W Learning :=
  learn_loop failures 0 0.

Definition publish_updated_agent : M W unit :=
  try_except (publish svc) (fun e => ret tt).

(** The [for iteration in range(1, max_iterations + 1)] loop of
    [continuous_improvement_cycle]; [break] ends the recursion. *)
Fixpoint improvement_loop (test_cases : list TestCase)
  (iterations : list nat) : M (Tester * W) unit :=
  match iterations with
  | [] => ret tt
  | iteration :: rest =>
      (* Test *)
      summary <- run_test_suite svc test_cases ;;
      if PrimFloat.leb 0.95%float (accuracy summary) then ret tt
      else
        (* Learn from failures *)
        failures <- @get_failures W ;;
        match failures with
        | [] => ret tt
        | _ :: _ =>
            learning_result <-
              lift (self_learn_from_failures failures false) ;;
            (* Publish *)
            lift (publish svc) ;;
            improvement_loop test_cases rest
        end
  end.

Definition continuous_improvement_cycle (test_cases : list TestCase)
  (max_iterations : nat) : M W unit :=
  let tester := new_tester "Your Semantic Model" in
  locally tester (improvement_loop test_cases (seq 1 max_iterations)) ;;
  ret tt.

End WithServices.

End self_learning.

(** ** Sample services and test cases

    Concrete collaborators used to run the definitions: the world is a
    log of the calls made. *)

Module samples.
Import Eff accuracy_testing.

Record Log : Type := mkLog {
  queries : nat;
  dax_calls : nat;
  examples : list (str * str);
  publish_calls : nat
}.

Definition empty_log : Log := mkLog 0 0 [] 0.

Definition log_query (l : Log) : Log :=
  mkLog (S (queries l)) (dax_calls l) (examples l) (publish_calls l).
Definition log_dax (l : Log) : Log :=
  mkLog (queries l) (S (dax_calls l)) (examples l) (publish_calls l).
Definition log_example (q s : str) (l : Log) : Log :=
  mkLog (queries l) (dax_calls l) (examples l ++ [(q, s)]) (publish_calls l).
Definition log_publish (l : Log) : Log :=
  mkLog (queries l) (dax_calls l) (examples l) (S (publish_calls l)).

(** An agent that answers every question with the single number
    [agent_value], a ground truth that is always [expected_value], and
    [add_example] and [publish] operations that work or raise the given
    exception. *)
Definition constant_services (agent_value expected_value : float)
  (add_error publish_error : option exn) : Services Log :=
  {| query := fun _ l =>
       (Ok {| data := Some [RowSeq [Num agent_value]] |}, log_query l);
     evaluate_dax := fun _ _ l => (Ok [[Num expected_value]], log_dax l);
     SEMPY_AVAILABLE := true;
     add_example := fun q s l =>
       match add_error with
       | Some e => (Raise e, l)
       | None => (Ok tt, log_example q s l)
       end;
     publish := fun l =>
       (match publish_error with
        | Some e => Raise e
        | None => Ok tt
        end, log_publish l) |}.

(** An agent client whose every call raises [e]. *)
Definition failing_agent (e : exn) : Services Log :=
  {| query := fun _ l => (Raise e, log_query l);
     evaluate_dax := fun _ _ l => (Ok [[Num 1%float]], log_dax l);
     SEMPY_AVAILABLE := true;
     add_example := fun _ _ l => (Raise e, l);
     publish := fun l => (Raise e, log_publish l) |}.

(** The double-quote character. *)
Definition dquote : str := [ascii_of_nat 34].

Definition total_users : TestCase :=
  {| question := "How many total users?";
     expected_dax :=
       "EVALUATE ROW(" ++ dquote ++ "TotalUsers" ++ dquote
       ++ ", DISTINCTCOUNT(UsageMetrics[UserId]))";
     metric_name := "TotalUsers";
     description := Some "Count of unique users" |}.

(** An agent that gives [response] to every question, a ground truth
    that is always [expected_value], with or without [sempy]; adding
    examples and publishing work. *)
Definition answering_services (response : Response)
  (expected_value : float) (sempy : bool) : Services Log :=
  {| query := fun _ l => (Ok response, log_query l);
     evaluate_dax := fun _ _ l => (Ok [[Num expected_value]], log_dax l);
     SEMPY_AVAILABLE := sempy;
     add_example := fun q s l => (Ok tt, log_example q s l);
     publish := fun l => (Ok tt, log_publish l) |}.

End samples.

(* ================================================================== *)
(** * Part II: lemmas and theorems                                     *)
(* ================================================================== *)

(** ** The accuracy evaluator *)

Section Evaluator.
Import Eff accuracy_testing.

Variable W : Type.
Variable svc : Services W.

Ltac run_eff :=
  unfold test_single_case, query_report_dax, locally, try_except, bind,
    lift, of_outcome, set_local, get_local, modify, ret, raise in *;
  cbn [fst snd] in *.

(** Every call of [test_single_case] returns a result, appends it to
    [self.results], and leaves it with one of the three final statuses. *)
Lemma test_single_case_returns (tc : TestCase) (tol : float)
      (t : Tester) (w : W) :
  exists r w',
    test_single_case svc tc tol (t, w)
      = (Ok r, (set_results (results t ++ [r]) t, w'))
    /\ r_question r = question tc
    /\ r_metric r = metric_name tc
    /\ (r_status r = "pass" \/ r_status r = "fail" \/ r_status r = "error").
Proof.
  run_eff.
  destruct (query svc (question tc) w) as [[resp | e] w1]; cbn.
  2: { eexists _, _. split; [reflexivity |]. cbn. auto. }
  destruct (extract_numeric_value resp) as [a | e]; cbn.
  2: { eexists _, _. split; [reflexivity |]. cbn. auto. }
  destruct (SEMPY_AVAILABLE svc); cbn.
  2: { eexists _, _. split; [reflexivity |]. cbn. auto. }
  destruct (evaluate_dax svc (dataset t) (expected_dax tc) w1)
    as [[df | e] w2]; cbn.
  2: { eexists _, _. split; [reflexivity |]. cbn. auto. }
  destruct (iloc_0_0 df) as [x | e]; cbn.
  2: { eexists _, _. split; [reflexivity |]. cbn. auto. }
  destruct (PrimFloat.eqb x 0); cbn.
  - destruct (PrimFloat.eqb a 0); cbn;
      (eexists _, _; split; [reflexivity |]; cbn; auto).
  - destruct (PrimFloat.leb _ tol); cbn;
      (eexists _, _; split; [reflexivity |]; cbn; auto).
Qed.

(** When both services answer, the status is decided by the comparison:
    a zero baseline passes on an exact zero and otherwise ends in the
    formatting error of the [FAIL] message, whose difference is [None];
    a non-zero baseline compares [|a - x| / x] with the tolerance. *)
Lemma test_single_case_compares (tc : TestCase) (tol : float)
      (t : Tester) (w w1 w2 : W) (resp : Response) (df : DataFrame)
      (a x : float) :
  query svc (question tc) w = (Ok resp, w1) ->
  extract_numeric_value resp = Ok a ->
  SEMPY_AVAILABLE svc = true ->
  evaluate_dax svc (dataset t) (expected_dax tc) w1 = (Ok df, w2) ->
  iloc_0_0 df = Ok x ->
  exists r,
    test_single_case svc tc tol (t, w)
      = (Ok r, (set_results (results t ++ [r]) t, w2))
    /\ r_agent_value r = Some a
    /\ r_expected_value r = Some x
    /\ r_status r =
         (if PrimFloat.eqb x 0 then
            if PrimFloat.eqb a 0 then "pass" else "error"
          else if PrimFloat.leb (PrimFloat.abs (a - x) / x) tol
               then "pass" else "fail").
Proof.
  intros Hq Ha Hs Hd Hx. run_eff.
  rewrite Hq; cbn. rewrite Ha; cbn. rewrite Hs; cbn. rewrite Hd; cbn.
  rewrite Hx; cbn.
  destruct (PrimFloat.eqb x 0); cbn.
  - destruct (PrimFloat.eqb a 0); cbn;
      (eexists; split; [reflexivity |]; cbn; auto).
  - destruct (PrimFloat.leb _ tol); cbn;
      (eexists; split; [reflexivity |]; cbn; auto).
Qed.

(** An exception of the agent ends the case as an [error] result that
    carries its message. *)
Lemma agent_exception_is_error (tc : TestCase) (tol : float)
      (t : Tester) (w w1 : W) (e : exn) :
  query svc (question tc) w = (Raise e, w1) ->
  exists r,
    test_single_case svc tc tol (t, w)
      = (Ok r, (set_results (results t ++ [r]) t, w1))
    /\ r_status r = "error" /\ r_error r = Some (message e).
Proof.
  intros Hq. run_eff. rewrite Hq; cbn.
  eexists; split; [reflexivity |]; cbn; auto.
Qed.

(** So does an exception of the ground-truth service. *)
Lemma ground_truth_exception_is_error (tc : TestCase) (tol : float)
      (t : Tester) (w w1 w2 : W) (resp : Response) (a : float) (e : exn) :
  query svc (question tc) w = (Ok resp, w1) ->
  extract_numeric_value resp = Ok a ->
  query_report_dax svc (dataset t) (expected_dax tc) w1 = (Raise e, w2) ->
  exists r,
    test_single_case svc tc tol (t, w)
      = (Ok r, (set_results (results t ++ [r]) t, w2))
    /\ r_status r = "error" /\ r_error r = Some (message e).
Proof.
  intros Hq Ha Hd.
  unfold test_single_case, locally, try_except, bind, lift, of_outcome,
    set_local, get_local, modify, ret in *; cbn [fst snd] in *.
  rewrite Hq; cbn. rewrite Ha; cbn. rewrite Hd; cbn.
  eexists; split; [reflexivity |]; cbn; auto.
Qed.

(** The loop of [run_test_suite]: one result per case, in order. *)
Lemma suite_loop_returns (tcs : list TestCase) (t : Tester) (w : W) :
  exists rs w',
    for_each tcs
      (fun tc => bind (test_single_case svc tc 0.01%float) (fun _ => ret tt))
      (t, w)
      = (Ok tt, (set_results (results t ++ rs) t, w'))
    /\ map r_question rs = map question tcs
    /\ map r_metric rs = map metric_name tcs
    /\ Forall final_status rs.
Proof.
  revert t w. induction tcs as [| tc tcs IH]; intros t w; cbn.
  - exists [], w. rewrite app_nil_r. destruct t; cbn. auto.
  - destruct (test_single_case_returns tc 0.01%float t w)
      as (r & w1 & Hr & Hq & Hm & Hs).
    unfold bind at 1. unfold bind at 1. rewrite Hr. unfold ret at 1.
    destruct (IH (set_results (results t ++ [r]) t) w1)
      as (rs & w2 & Hrs & Hqs & Hms & Hss).
    rewrite Hrs. exists (r :: rs), w2. cbn.
    rewrite <- app_assoc. cbn.
    repeat split; try congruence. constructor; assumption.
Qed.

(** [run_test_suite] always returns a summary. *)
Lemma run_test_suite_returns (tcs : list TestCase) (t : Tester) (w : W) :
  exists rs w',
    run_test_suite svc tcs (t, w)
      = (Ok {| total := length rs;
               passed := count_status "pass" rs;
               failed := count_status "fail" rs;
               errors := count_status "error" rs;
               accuracy :=
                 if length rs =? 0 then 0%float
                 else (float_of_nat (count_status "pass" rs)
                       / float_of_nat (length rs))%float;
               s_results := rs |},
         (set_results rs t, w'))
    /\ map r_question rs = map question tcs
    /\ map r_metric rs = map metric_name tcs
    /\ Forall final_status rs.
Proof.
  destruct (suite_loop_returns tcs (set_results [] t) w)
    as (rs & w' & Hrs & Hq & Hm & Hs).
  exists rs, w'. split; [| auto].
  unfold run_test_suite.
  unfold bind at 1. unfold modify at 1. cbn [fst snd].
  unfold bind at 1. rewrite Hrs. cbn [results set_results app dataset].
  unfold bind, get_local, of_outcome, ret, truediv.
  cbn [fst snd results set_results].
  destruct (length rs) as [| n]; reflexivity.
Qed.

End Evaluator.

Section EvaluatorClaims.
Import Eff accuracy_testing.

Lemma str_eqb_eq (a b : str) : str_eqb a b = true <-> a = b.
Proof.
  unfold str_eqb. destruct (list_eq_dec ascii_dec a b); split;
    congruence.
Qed.

(** C1 (defect of the code).  The comparison of [test_single_case] divides
    by the expected value itself, not by its absolute value.  With the
    agent at 100 and a baseline of -100 the recorded difference is -2,
    which is below the tolerance, and the case passes; the relative
    difference |100 - (-100)| / |-100| is 2 and exceeds the tolerance. *)
Theorem negative_baseline_passes :
  exists r st,
    test_single_case (samples.constant_services 100 (-100) None None)
      samples.total_users 0.01%float
      (new_tester "Your Semantic Model", samples.empty_log)
      = (Ok r, st)
    /\ r_agent_value r = Some 100%float
    /\ r_expected_value r = Some (-100)%float
    /\ r_difference r = Some (-2)%float
    /\ r_status r = "pass"
    /\ PrimFloat.leb
         (PrimFloat.abs (100 - (-100)) / PrimFloat.abs (-100))%float
         0.01%float = false.
Proof.
  eexists _, _. split; [vm_compute; reflexivity |].
  repeat split; reflexivity.
Qed.

(** C7.  An exception of the agent or of the ground-truth service gives a
    result of status [error] that records the message of the exception;
    [run_test_suite] still returns, with one result per case, each of
    status [pass], [fail] or [error]; and [get_failures] is exactly the
    results of status [fail], none of them an [error]. *)
Theorem evaluation_errors_contained (W : Type) (svc : Services W)
        (tcs : list TestCase) (t : Tester) (w : W) :
  (forall tc tol t0 w0 e,
      agent_raises svc tc w0 e \/ ground_truth_raises svc t0 tc w0 e ->
      exists r st',
        test_single_case svc tc tol (t0, w0) = (Ok r, st')
        /\ results (fst st') = results t0 ++ [r]
        /\ r_status r = "error"
        /\ r_error r = Some (message e))
  /\ exists summ st' fs,
      run_test_suite svc tcs (t, w) = (Ok summ, st')
      /\ length (s_results summ) = length tcs
      /\ Forall final_status (s_results summ)
      /\ @get_failures W st' = (Ok fs, st')
      /\ (forall r, In r fs <-> In r (s_results summ) /\ r_status r = "fail")
      /\ Forall (fun r => r_status r <> "error") fs.
Proof.
  split.
  - intros tc tol t0 w0 e [[w1 Hq] | (resp & w1 & a & w2 & Hq & Ha & Hd)].
    + destruct (@agent_exception_is_error W svc tc tol t0 w0 w1 e Hq)
        as (r & Hr & Hs & He).
      eexists _, _. split; [exact Hr |]. cbn. auto.
    + destruct (@ground_truth_exception_is_error W svc tc tol t0 w0 w1 w2
                  resp a e Hq Ha Hd)
        as (r & Hr & Hs & He).
      eexists _, _. split; [exact Hr |]. cbn. auto.
  - destruct (run_test_suite_returns svc tcs t w)
      as (rs & w' & Hrun & Hq & Hm & Hs).
    eexists _, _, _. split; [exact Hrun |]. cbn [s_results].
    split. { rewrite <- (length_map r_question), Hq. apply length_map. }
    split; [exact Hs |].
    split; [reflexivity |].
    cbn [fst results set_results]. split.
    + intros r. rewrite filter_In, str_eqb_eq. reflexivity.
    + apply Forall_forall. intros r Hin.
      apply filter_In in Hin. destruct Hin as [_ Hf].
      apply str_eqb_eq in Hf. rewrite Hf. discriminate.
Qed.

Lemma evaluation_errors_contained_witness :
  exists r st',
    test_single_case (samples.failing_agent (Exception "agent offline"))
      samples.total_users 0.01%float
      (new_tester "Your Semantic Model", samples.empty_log) = (Ok r, st')
    /\ results (fst st') = [] ++ [r]
    /\ r_status r = "error"
    /\ r_error r = Some "agent offline".
Proof.
  destruct (evaluation_errors_contained
              (samples.failing_agent (Exception "agent offline"))
              [samples.total_users] (new_tester "Your Semantic Model")
              samples.empty_log) as [H _].
  apply (H samples.total_users 0.01%float
           (new_tester "Your Semantic Model") samples.empty_log
           (Exception "agent offline")).
  left. eexists. reflexivity.
Defined.

(** C8.  The accuracy of a summary is [passed / total], and it is 0 when
    there is no result; the division never raises.  In particular the
    empty suite returns the all-zero summary. *)
Theorem accuracy_is_passed_over_total (W : Type) (svc : Services W)
        (tcs : list TestCase) (t : Tester) (w : W) :
  (exists summ st',
      run_test_suite svc tcs (t, w) = (Ok summ, st')
      /\ total summ = length tcs
      /\ passed summ = count_status "pass" (s_results summ)
      /\ accuracy summ =
           if total summ =? 0 then 0%float
           else (float_of_nat (passed summ) / float_of_nat (total summ))%float)
  /\ run_test_suite svc [] (t, w)
     = (Ok {| total := 0; passed := 0; failed := 0; errors := 0;
              accuracy := 0%float; s_results := [] |},
        (set_results [] t, w)).
Proof.
  split; [| reflexivity].
  destruct (run_test_suite_returns svc tcs t w)
    as (rs & w' & Hrun & Hq & Hm & Hs).
  eexists _, _. split; [exact Hrun |]. cbn.
  split. { rewrite <- (length_map r_question), Hq. apply length_map. }
  split; reflexivity.
Qed.

(** C9.  [run_test_suite] does not depend on the results of earlier runs:
    it starts from the empty sequence; and it leaves in [self.results]
    exactly one result per test case, in the order of the test cases. *)
Theorem run_test_suite_fresh_and_ordered (W : Type) (svc : Services W)
        (tcs : list TestCase) (t : Tester) (w : W) :
  run_test_suite svc tcs (t, w) = run_test_suite svc tcs (set_results [] t, w)
  /\ exists summ t' w',
      run_test_suite svc tcs (t, w) = (Ok summ, (t', w'))
      /\ results t' = s_results summ
      /\ length (s_results summ) = length tcs
      /\ map r_question (s_results summ) = map question tcs
      /\ map r_metric (s_results summ) = map metric_name tcs.
Proof.
  split; [reflexivity |].
  destruct (run_test_suite_returns svc tcs t w)
    as (rs & w' & Hrun & Hq & Hm & Hs).
  eexists _, _, _. split; [exact Hrun |]. cbn.
  split; [reflexivity |].
  split. { rewrite <- (length_map r_question), Hq. apply length_map. }
  auto.
Qed.

End EvaluatorClaims.

(** ** The self-learning loop *)

Section Learning.
Import Eff accuracy_testing self_learning.

Variable W : Type.
Variable svc : Services W.

(** An exception of [add_example] is counted as a skip: the learning step
    always returns, and every failure is either learned or skipped. *)
Lemma learn_loop_returns (failures : list Result) (l k : nat) (w : W) :
  exists r w',
    learn_loop svc failures l k w = (Ok r, w')
    /\ learned r + skipped r = l + k + length failures.
Proof.
  revert l k w.
  induction failures as [| f fs IH]; intros l k w; cbn [learn_loop length].
  - eexists _, _. split; [reflexivity |]. cbn. lia.
  - generalize (generate_correct_sql f "template"). intros correct_sql.
    destruct (falsy correct_sql).
    + destruct (IH l (k + 1) w) as (r & w' & Hr & Hc).
      eexists _, _. split; [exact Hr |]. lia.
    + unfold bind at 1. unfold try_except, bind, ret.
      destruct (add_example svc _ _ w) as [[[] | e] w1].
      * destruct (IH (l + 1) k w1) as (r & w' & Hr & Hc).
        eexists _, _. split; [exact Hr |]. lia.
      * destruct (IH l (k + 1) w1) as (r & w' & Hr & Hc).
        eexists _, _. split; [exact Hr |]. lia.
Qed.

Lemma self_learn_from_failures_returns (failures : list Result)
      (validate : bool) (w : W) :
  exists r w',
    self_learn_from_failures svc failures validate w = (Ok r, w')
    /\ learned r + skipped r = length failures.
Proof.
  unfold self_learn_from_failures.
  destruct (learn_loop_returns failures 0 0 w) as (r & w' & Hr & Hc).
  eauto.
Qed.

(** An exception of [publish] leaves the loop: when an iteration finds
    failures below the target accuracy, the exception raised by
    [client.publish()] is the outcome of the whole loop. *)
Lemma publish_exception_leaves_loop (tcs : list TestCase) (i : nat)
      (rest : list nat) (t t1 : Tester) (w w1 w2 w3 : W)
      (summ : Summary) (f : Result) (fs : list Result) (l : Learning)
      (e : exn) :
  run_test_suite svc tcs (t, w) = (Ok summ, (t1, w1)) ->
  PrimFloat.leb 0.95%float (accuracy summ) = false ->
  filter (fun r => str_eqb (r_status r) "fail") (results t1) = f :: fs ->
  self_learn_from_failures svc (f :: fs) false w1 = (Ok l, w2) ->
  publish svc w2 = (Raise e, w3) ->
  improvement_loop svc tcs (i :: rest) (t, w) = (Raise e, (t1, w3)).
Proof.
  intros Hrun Hacc Hf Hl Hp. cbn [improvement_loop].
  unfold bind at 1. rewrite Hrun, Hacc.
  unfold bind at 1. unfold get_failures, bind, get_local, ret.
  cbn [fst snd]. rewrite Hf.
  unfold lift. cbn [fst snd]. rewrite Hl. cbn [fst snd]. rewrite Hp.
  reflexivity.
Qed.

End Learning.

Section LearningClaims.
Import Eff accuracy_testing self_learning.

(** C2 (defect of the code).  With an agent that answers 300000 against a
    baseline of 304671, an [add_example] that raises is absorbed: the
    cycle runs its three iterations and returns.  A [publish] that raises
    is not: the exception is the outcome of
    [continuous_improvement_cycle], after a single iteration (one query,
    one publish call) out of the three allowed. *)
Theorem publish_exception_aborts_cycle :
  continuous_improvement_cycle
    (samples.constant_services 300000 304671
       (Some (Exception "add_example unavailable")) None)
    [samples.total_users] 3 samples.empty_log
  = (Ok tt, samples.mkLog 3 3 [] 3)
  /\ continuous_improvement_cycle
       (samples.constant_services 300000 304671
          None (Some (Exception "publish unavailable")))
       [samples.total_users] 3 samples.empty_log
     = (Raise (Exception "publish unavailable"),
        samples.mkLog 1 1
          [("How many total users?",
            "SELECT COUNT(DISTINCT UserId) AS TotalUsers FROM dbo.UsageMetrics")]
          1).
Proof.
  split; vm_compute; reflexivity.
Qed.

End LearningClaims.

(** ** Python strings: what [startswith] and [in] decide *)

Section PyFacts.

Lemma startswith_iff (t s : str) :
  Py.startswith t s = true <-> exists post, s = t ++ post.
Proof.
  revert s. induction t as [| a t IH]; intros s; cbn.
  - split; [intros _; exists s; reflexivity | auto].
  - destruct s as [| b s].
    + split; [discriminate | intros [post H]; discriminate].
    + rewrite andb_true_iff, Ascii.eqb_eq, IH. split.
      * intros [-> [post ->]]. exists post. reflexivity.
      * intros [post H]. injection H as -> ->. eauto.
Qed.

Lemma contains_iff (t s : str) :
  Py.contains t s = true <-> exists pre post, s = pre ++ t ++ post.
Proof.
  induction s as [| b s IH].
  - cbn. rewrite orb_false_r, startswith_iff. split.
    + intros [post H]. exists [], post. exact H.
    + intros (pre & post & H). destruct pre as [| x pre]; [| discriminate].
      exists post. exact H.
  - cbn [Py.contains]. rewrite orb_true_iff, startswith_iff, IH. split.
    + intros [[post H] | (pre & post & H)].
      * exists [], post. exact H.
      * exists (b :: pre), post. cbn. congruence.
    + intros (pre & post & H). destruct pre as [| x pre].
      * left. exists post. exact H.
      * right. injection H as -> ->. eauto.
Qed.

Lemma not_contains_iff (t s : str) :
  Py.contains t s = false <-> ~ exists pre post, s = pre ++ t ++ post.
Proof.
  rewrite <- contains_iff. destruct (Py.contains t s); split; intros H;
    congruence || (exfalso; auto).
Qed.

Lemma upper_app (a b : str) : Py.upper (a ++ b) = Py.upper a ++ Py.upper b.
Proof. apply map_app. Qed.

Lemma upper_length (a : str) : length (Py.upper a) = length a.
Proof. apply length_map. Qed.

End PyFacts.

(** ** The [re] model: the search finds exactly the matches *)

Section ReFacts.
Import Re.

Lemma try_down_some (A : Type) (lo k : nat) (f : nat -> option A) (r : A) :
  try_down lo k f = Some r -> exists j, lo <= j <= k /\ f j = Some r.
Proof.
  induction k as [| k IH]; cbn [try_down].
  - destruct (0 <? lo) eqn:H0; [discriminate |].
    apply Nat.ltb_ge in H0. destruct (f 0) eqn:Hf; [| discriminate].
    intros [= ->]. exists 0. split; [lia | exact Hf].
  - destruct (S k <? lo) eqn:Hk; [discriminate |].
    apply Nat.ltb_ge in Hk. destruct (f (S k)) eqn:Hf.
    + intros [= ->]. exists (S k). split; [lia | exact Hf].
    + intros H. destruct (IH H) as (j & Hj & Hfj). exists j.
      split; [lia | exact Hfj].
Qed.

Lemma try_down_complete (A : Type) (lo k j : nat) (f : nat -> option A) :
  lo <= j <= k -> f j <> None -> try_down lo k f <> None.
Proof.
  intros Hj Hf. induction k as [| k IH]; cbn [try_down].
  - assert (j = 0) as -> by lia.
    destruct (0 <? lo) eqn:H0; [apply Nat.ltb_lt in H0; lia |].
    destruct (f 0); congruence.
  - destruct (S k <? lo) eqn:Hk; [apply Nat.ltb_lt in Hk; lia |].
    destruct (f (S k)) eqn:Hfk; [discriminate |].
    apply IH. destruct (Nat.eq_dec j (S k)) as [-> | Hne];
      [congruence | lia].
Qed.

Lemma span_le_length (cls : ascii -> bool) (s : str) :
  span cls s <= length s.
Proof.
  induction s as [| c s IH]; cbn; [lia |].
  destruct (cls c); lia.
Qed.

Lemma span_firstn (cls : ascii -> bool) (s : str) (k : nat) :
  k <= span cls s -> forallb cls (firstn k s) = true.
Proof.
  revert k. induction s as [| c s IH]; intros k Hk; cbn in *.
  - rewrite firstn_nil. reflexivity.
  - destruct k as [| k]; [reflexivity |]. cbn.
    destruct (cls c); [| lia]. cbn. apply IH. lia.
Qed.

Lemma span_app_ge (cls : ascii -> bool) (w s : str) :
  forallb cls w = true -> length w <= span cls (w ++ s).
Proof.
  induction w as [| c w IH]; cbn; [lia |].
  rewrite andb_true_iff. intros [-> Hw]. specialize (IH Hw). lia.
Qed.

Lemma firstn_plus (A : Type) (j n : nat) (s : list A) :
  firstn (j + n) s = firstn j s ++ firstn n (skipn j s).
Proof.
  revert s. induction j as [| j IH]; intros s; cbn; [reflexivity |].
  destruct s as [| x s]; cbn.
  - rewrite firstn_nil. reflexivity.
  - rewrite IH. reflexivity.
Qed.

(** Soundness: what [match_here] returns is a match of the pattern. *)
Lemma match_here_sound (p : pattern) (s : str) (g : list str) (n : nat) :
  match_here p s = Some (g, n) ->
  n <= length s /\ matches p (firstn n s) g.
Proof.
  revert s g n. induction p as [| a p IH]; intros s g n; cbn.
  - intros [= <- <-]. split; [lia | constructor].
  - destruct a as [c | cls | cls lo cap].
    + destruct s as [| x s]; [discriminate |].
      destruct (ci_eq c x) eqn:Hc; [| discriminate].
      destruct (match_here p s) as [[g0 n0] |] eqn:Hm; [| discriminate].
      intros [= <- <-]. destruct (IH _ _ _ Hm) as [Hn Hmt].
      split; [cbn; lia |]. cbn. constructor; assumption.
    + destruct s as [| x s]; [discriminate |].
      destruct (cls x) eqn:Hc; [| discriminate].
      destruct (match_here p s) as [[g0 n0] |] eqn:Hm; [| discriminate].
      intros [= <- <-]. destruct (IH _ _ _ Hm) as [Hn Hmt].
      split; [cbn; lia |]. cbn. constructor; assumption.
    + intros H. apply try_down_some in H. destruct H as (j & Hj & Hf).
      destruct (match_here p (skipn j s)) as [[g0 n0] |] eqn:Hm;
        [| discriminate].
      injection Hf as <- <-. destruct (IH _ _ _ Hm) as [Hn Hmt].
      pose proof (span_le_length cls s) as Hsp.
      rewrite length_skipn in Hn. split; [lia |].
      rewrite firstn_plus. constructor.
      * apply span_firstn. lia.
      * rewrite length_firstn. lia.
      * exact Hmt.
Qed.

(** Completeness: where the pattern has a match, [match_here] finds one
    (the greedy one, which may be another). *)
Lemma match_here_complete (p : pattern) (m : str) (g : list str) :
  matches p m g -> forall rest, match_here p (m ++ rest) <> None.
Proof.
  induction 1 as [| c x p m g Hc Hm IH | cls x p m g Hc Hm IH
                 | cls lo cap w p m g Hw Hlo Hm IH]; intros rest; cbn.
  - discriminate.
  - rewrite Hc. specialize (IH rest).
    destruct (match_here p (m ++ rest)) as [[g0 n0] |]; congruence.
  - rewrite Hc. specialize (IH rest).
    destruct (match_here p (m ++ rest)) as [[g0 n0] |]; congruence.
  - apply try_down_complete with (j := length w).
    + split; [exact Hlo |]. rewrite <- app_assoc. apply span_app_ge, Hw.
    + rewrite <- app_assoc, skipn_app, skipn_all, Nat.sub_diag. cbn.
      specialize (IH rest).
      destruct (match_here p (m ++ rest)) as [[g0 n0] |]; congruence.
Qed.

Lemma search_from_sound (p : pattern) (s : str) (i : nat) (m : Match) :
  search_from p s i = Some m ->
  i <= m_start m /\ m_start m - i + m_len m <= length s
  /\ matches p (firstn (m_len m) (skipn (m_start m - i) s)) (m_groups m)
  /\ forall k, k < m_start m - i -> match_here p (skipn k s) = None.
Proof.
  revert i. induction s as [| x s IH]; intros i; cbn.
  - destruct (match_here p []) as [[g n] |] eqn:Hm; [| discriminate].
    intros [= <-]. cbn. apply match_here_sound in Hm. cbn in Hm.
    rewrite Nat.sub_diag. cbn.
    repeat split; try lia; try tauto; intros k Hk; lia.
  - destruct (match_here p (x :: s)) as [[g n] |] eqn:Hm.
    + intros [= <-]. cbn. apply match_here_sound in Hm. cbn in Hm.
      rewrite Nat.sub_diag. cbn.
      repeat split; try lia; try tauto; intros k Hk; lia.
    + intros H. destruct (IH _ H) as (Hi & Hlen & Hmt & Hleft).
      assert (m_start m - i = S (m_start m - S i)) as -> by lia.
      cbn. repeat split; try lia; try assumption.
      intros [| k] Hk; cbn; [exact Hm | apply Hleft; lia].
Qed.

Lemma search_occurs (p : pattern) (s : str) (m : Match) :
  search p s = Some m -> occurs p s.
Proof.
  intros H. apply search_from_sound in H.
  destruct H as (_ & Hlen & Hm & _). rewrite Nat.sub_0_r in *.
  exists (firstn (m_start m) s),
    (firstn (m_len m) (skipn (m_start m) s)),
    (skipn (m_len m) (skipn (m_start m) s)), (m_groups m).
  split; [| exact Hm].
  rewrite (firstn_skipn (m_len m)), firstn_skipn. reflexivity.
Qed.

Lemma search_from_complete (p : pattern) (pre rest : str) (i : nat) :
  match_here p rest <> None -> search_from p (pre ++ rest) i <> None.
Proof.
  revert i. induction pre as [| x pre IH]; intros i H; cbn.
  - destruct rest as [| y rest]; cbn;
      destruct (match_here p _) as [[g n] |]; congruence.
  - destruct (match_here p (x :: pre ++ rest)) as [[g n] |];
      [discriminate | apply IH, H].
Qed.

Lemma occurs_search (p : pattern) (s : str) :
  occurs p s -> search p s <> None.
Proof.
  intros (pre & m & post & g & -> & Hm).
  apply search_from_complete, match_here_complete with (g := g), Hm.
Qed.

(** [re.search] returns [None] exactly when the pattern matches nowhere. *)
Lemma search_none_iff (p : pattern) (s : str) :
  search p s = None <-> ~ occurs p s.
Proof.
  split.
  - intros H Ho. exact (occurs_search Ho H).
  - intros H. destruct (search p s) as [m |] eqn:Hs; [| reflexivity].
    exfalso. apply H. exact (search_occurs _ _ Hs).
Qed.

Lemma search_from_none_tail (p : pattern) (x : ascii) (s : str) (i : nat) :
  search_from p (x :: s) i = None ->
  match_here p (x :: s) = None /\ search_from p s (S i) = None.
Proof.
  cbn. destruct (match_here p (x :: s)) as [[g n] |]; [discriminate | auto].
Qed.

Lemma search_from_none_shift (p : pattern) (s : str) (i j : nat) :
  search_from p s i = None -> search_from p s j = None.
Proof.
  revert i j. induction s as [| x s IH]; intros i j; cbn;
    destruct (match_here p _) as [[g n] |]; try discriminate; eauto.
Qed.

(** Without a match, [re.sub] returns its argument. *)
Lemma sub_from_no_match (p : pattern) (t : template) (left : option nat)
      (s : str) (i : nat) :
  search_from p s i = None -> sub_from p t left 0 s = s.
Proof.
  revert i. induction s as [| x s IH]; intros i H.
  - cbn in *. destruct (match_here p []) as [[g n] |]; [discriminate |].
    destruct left as [[| k] |]; reflexivity.
  - apply search_from_none_tail in H. destruct H as [Hm Hs].
    cbn [sub_from]. rewrite Hm.
    destruct left as [[| k] |]; try reflexivity;
      (f_equal; eapply IH; eassumption).
Qed.

Lemma sub_no_match (p : pattern) (t : template) (s : str) (count : nat) :
  search p s = None -> sub p t s count = s.
Proof. intros H. unfold sub. eapply sub_from_no_match, H. Qed.

End ReFacts.

(** ** The dialect checker and rewriter *)

Section ValidatorFacts.
Import Re sql_validator.

(** [t in q.upper()] decides the occurrence of [t] in any mix of cases. *)
Lemma contains_upper_iff (t q : str) :
  Py.contains t (Py.upper q) = true <-> occurs_ci t q.
Proof.
  rewrite contains_iff. unfold occurs_ci, Py.upper. split.
  - intros (pre & post & H).
    apply map_eq_app in H. destruct H as (pre' & r & -> & Hpre & H).
    apply map_eq_app in H. destruct H as (m & post' & -> & Hm & Hpost).
    exists pre', m, post'. auto.
  - intros (pre & m & post & -> & Hm).
    exists (map Py.upper_char pre), (map Py.upper_char post).
    rewrite !map_app, Hm. reflexivity.
Qed.

Lemma append_if_entry (b : bool) (x : str) (l : list str) :
  append_if b x l = l ++ entry_if b x.
Proof. destruct b; cbn; [reflexivity | rewrite app_nil_r; reflexivity]. Qed.

Lemma any_in_false_iff (ks : list str) (s : str) :
  Py.any_in ks s = false <-> Forall (fun k => Py.contains k s = false) ks.
Proof.
  unfold Py.any_in. induction ks as [| k ks IH]; cbn.
  - split; [constructor | reflexivity].
  - rewrite orb_false_iff, IH. split.
    + intros [H1 H2]. constructor; assumption.
    + intros H. inversion H; subst. auto.
Qed.

End ValidatorFacts.

Section ValidatorClaims.
Import Re sql_validator.



End ValidatorClaims.

(** ** Reading the patterns *)

Section PatternFacts.
Import Re.

Ltac each_char c := destruct c as [[] [] [] [] [] [] [] []].

Lemma lower_upper_char (c : ascii) :
  Py.lower_char (Py.upper_char c) = Py.lower_char c.
Proof. each_char c; reflexivity. Qed.

Lemma upper_lower_char (c : ascii) :
  Py.upper_char (Py.lower_char c) = Py.upper_char c.
Proof. each_char c; reflexivity. Qed.

Lemma upper_upper_char (c : ascii) :
  Py.upper_char (Py.upper_char c) = Py.upper_char c.
Proof. each_char c; reflexivity. Qed.

(** Under [re.IGNORECASE] two characters match when their upper-case
    forms agree. *)
Lemma ci_eq_iff (a b : ascii) :
  ci_eq a b = true <-> Py.upper_char a = Py.upper_char b.
Proof.
  unfold ci_eq. rewrite Ascii.eqb_eq. split; intros H.
  - rewrite <- (upper_lower_char a), H. apply upper_lower_char.
  - rewrite <- (lower_upper_char a), H. apply lower_upper_char.
Qed.

Lemma upper_upper (s : str) : Py.upper (Py.upper s) = Py.upper s.
Proof.
  unfold Py.upper. rewrite map_map. apply map_ext, upper_upper_char.
Qed.

Lemma upper_char_cases (x : ascii) :
  Py.upper_char x = x \/ Py.is_upper (Py.upper_char x) = true.
Proof. each_char x; vm_compute; auto. Qed.

Lemma caseless_check (c : ascii) :
  Py.is_lower c = false -> Py.is_upper c = false -> Py.caseless c.
Proof.
  intros Hl Hu x. split; [| intros ->; reflexivity].
  assert (Py.upper_char c = c) as Hc by (unfold Py.upper_char; rewrite Hl; reflexivity).
  rewrite Hc. intros Hx.
  destruct (upper_char_cases x) as [Hx' | Hx']; congruence.
Qed.

Lemma matches_nil_iff (m : str) (g : list str) :
  matches [] m g <-> m = [] /\ g = [].
Proof.
  split.
  - inversion 1; auto.
  - intros [-> ->]. constructor.
Qed.

Lemma matches_Lit_iff (c : ascii) (p : pattern) (m : str) (g : list str) :
  matches (Lit c :: p) m g
  <-> exists x m', m = x :: m' /\ Py.upper_char x = Py.upper_char c
                   /\ matches p m' g.
Proof.
  split.
  - inversion 1; subst. eexists _, _. split; [reflexivity |].
    split; [symmetry; apply ci_eq_iff; assumption | assumption].
  - intros (x & m' & -> & Hx & Hm). constructor; [| exact Hm].
    apply ci_eq_iff. auto.
Qed.

Lemma matches_symbol_iff (c : ascii) (p : pattern) (m : str)
      (g : list str) :
  Py.caseless c ->
  (matches (Lit c :: p) m g <-> exists m', m = c :: m' /\ matches p m' g).
Proof.
  intros Hc. rewrite matches_Lit_iff. split.
  - intros (x & m' & -> & Hx & Hm). apply Hc in Hx. subst. eauto.
  - intros (m' & -> & Hm). eauto.
Qed.

Lemma matches_One_iff (cls : ascii -> bool) (p : pattern) (m : str)
      (g : list str) :
  matches (One cls :: p) m g
  <-> exists x m', m = x :: m' /\ cls x = true /\ matches p m' g.
Proof.
  split.
  - inversion 1; subst. eauto.
  - intros (x & m' & -> & Hx & Hm). constructor; assumption.
Qed.

Lemma matches_Rep_iff (cls : ascii -> bool) (lo : nat) (cap : bool)
      (p : pattern) (m : str) (g : list str) :
  matches (Rep cls lo cap :: p) m g
  <-> exists w m' g',
        m = w ++ m' /\ g = (if cap then w :: g' else g')
        /\ forallb cls w = true /\ lo <= length w /\ matches p m' g'.
Proof.
  split.
  - inversion 1; subst. eexists _, _, _. eauto.
  - intros (w & m' & g' & -> & -> & Hw & Hlo & Hm).
    constructor; assumption.
Qed.

Lemma matches_lit_iff (s : str) (p : pattern) (m : str) (g : list str) :
  matches (lit s ++ p) m g
  <-> exists f m', m = f ++ m' /\ Py.upper f = Py.upper s
                   /\ matches p m' g.
Proof.
  revert m. induction s as [| c s IH]; intros m; cbn [lit map app].
  - split.
    + intros H. exists [], m. auto.
    + intros (f & m' & -> & Hf & Hm).
      destruct f; [exact Hm | discriminate].
  - fold (lit s). rewrite matches_Lit_iff. split.
    + intros (x & m1 & -> & Hx & Hm). apply IH in Hm.
      destruct Hm as (f & m' & -> & Hf & Hm).
      exists (x :: f), m'. split; [reflexivity |]. split; [| exact Hm].
      unfold Py.upper in *. cbn [map]. rewrite Hx, Hf. reflexivity.
    + intros (f & m' & -> & Hf & Hm).
      destruct f as [| x f]; [discriminate |]. cbn in Hf.
      injection Hf as Hx Hf. exists x, (f ++ m').
      split; [reflexivity |]. split; [exact Hx |].
      apply IH. eauto.
Qed.

End PatternFacts.

(** ** The expression translator *)

Section ExtractorFacts.
Import Re pbip_extractor.

Lemma func_name_upper (a : aggregate) :
  Py.upper (func_name a) = func_name a.
Proof. destruct a; reflexivity. Qed.

(** The pattern of a call is matched by the calls of the function, with
    the table and the column as its two groups. *)
Lemma call_re_matches_iff (func m : str) (g : list str) :
  Py.upper func = func ->
  (matches (call_re func) m g
   <-> exists table column,
         g = [table; column] /\ is_call func m table column).
Proof.
  intros Hup. unfold call_re, is_call.
  rewrite matches_lit_iff. split.
  - intros (f & m1 & -> & Hf & H).
    apply matches_symbol_iff in H; [| apply caseless_check; reflexivity].
    destruct H as (m2 & -> & H).
    apply matches_Rep_iff in H.
    destruct H as (table & m3 & g3 & -> & -> & Ht & Htl & H).
    apply matches_symbol_iff in H; [| apply caseless_check; reflexivity].
    destruct H as (m4 & -> & H).
    apply matches_Rep_iff in H.
    destruct H as (column & m5 & g5 & -> & -> & Hc & Hcl & H).
    apply matches_symbol_iff in H; [| apply caseless_check; reflexivity].
    destruct H as (m6 & -> & H).
    apply matches_symbol_iff in H; [| apply caseless_check; reflexivity].
    destruct H as (m7 & -> & H).
    apply matches_nil_iff in H. destruct H as [-> ->].
    exists table, column. split; [reflexivity |].
    exists f. rewrite Hf, Hup.
    split. { cbn. rewrite <- ?app_assoc. reflexivity. }
    split; [reflexivity |].
    split. { destruct table; [cbn in Htl; lia | discriminate]. }
    split; [exact Ht |].
    split; [| exact Hc].
    destruct column; [cbn in Hcl; lia | discriminate].
  - intros (table & column & -> & f & -> & Hf & Htn & Ht & Hcn & Hc).
    exists f, ("(" ++ table ++ "[" ++ column ++ "])").
    split; [reflexivity |]. split; [congruence |].
    cbn [app].
    apply matches_symbol_iff; [apply caseless_check; reflexivity |].
    eexists; split; [reflexivity |].
    apply matches_Rep_iff. exists table, ("[" ++ column ++ "])"), [column].
    split; [reflexivity |]. split; [reflexivity |]. split; [exact Ht |].
    split. { destruct table; [congruence | cbn; lia]. }
    cbn [app].
    apply matches_symbol_iff; [apply caseless_check; reflexivity |].
    eexists; split; [reflexivity |].
    apply matches_Rep_iff. exists column, "])", [].
    split; [reflexivity |]. split; [reflexivity |]. split; [exact Hc |].
    split. { destruct column; [congruence | cbn; lia]. }
    repeat constructor.
Qed.

(** What [re.search] finds for a call pattern is a call of the
    expression, and it finds one whenever there is one. *)
Lemma search_call_some (func e : str) (m : Match) :
  Py.upper func = func ->
  search (call_re func) e = Some m ->
  has_call func e (group m 1) (group m 2).
Proof.
  intros Hup H. apply search_from_sound in H.
  destruct H as (_ & Hlen & Hm & _). rewrite Nat.sub_0_r in *.
  apply call_re_matches_iff in Hm; [| exact Hup].
  destruct Hm as (table & column & Hg & Hcall).
  unfold group. rewrite Hg. cbn.
  exists (firstn (m_start m) e),
    (firstn (m_len m) (skipn (m_start m) e)),
    (skipn (m_len m) (skipn (m_start m) e)).
  split; [| exact Hcall].
  rewrite (firstn_skipn (m_len m)), firstn_skipn. reflexivity.
Qed.

Lemma search_call_none (func e : str) :
  Py.upper func = func ->
  search (call_re func) e = None ->
  forall table column, ~ has_call func e table column.
Proof.
  intros Hup H table column (pre & m & post & -> & Hcall).
  apply search_none_iff in H. apply H.
  exists pre, m, post, [table; column]. split; [reflexivity |].
  apply call_re_matches_iff; eauto.
Qed.

(** The chain of tests of [convert_dax_to_example] is the table of rules
    read in priority order. *)
Lemma convert_dax_to_example_by_rules (measure_name e : str) :
  convert_dax_to_example measure_name e
  = match selected e with
    | Some a =>
        match search (call_re (func_name a)) e with
        | Some m =>
            Some (example_of a measure_name e (group m 1) (group m 2))
        | None => None
        end
    | None => None
    end.
Proof.
  assert (Hsql : forall a,
    match search (call_re (func_name a)) e with
    | Some m =>
        Some {| question := question_of a measure_name;
                sql := "SELECT " ++ sql_aggregate a (group m 2) ++ " AS "
                         ++ measure_name ++ " FROM dbo." ++ group m 1;
                source := "pbip_measure";
                original_dax := e |}
    | None => None
    end
    = match search (call_re (func_name a)) e with
      | Some m => Some (example_of a measure_name e (group m 1) (group m 2))
      | None => None
      end) by reflexivity.
  unfold convert_dax_to_example, selected, priority.
  cbn [find marker].
  destruct (Py.contains "DISTINCTCOUNT" (Py.upper e)).
  { rewrite <- Hsql. cbn. destruct (search _ e); [| reflexivity].
    cbn. rewrite <- ?app_assoc. reflexivity. }
  cbn [negb andb].
  destruct (Py.contains "SUM(" (Py.upper e)
            && negb (Py.contains "SUMX" (Py.upper e))).
  { rewrite <- Hsql. cbn. destruct (search _ e); [| reflexivity].
    cbn. rewrite <- ?app_assoc. reflexivity. }
  destruct (Py.contains "AVERAGE(" (Py.upper e)).
  { rewrite <- Hsql. cbn. destruct (search _ e); [| reflexivity].
    cbn. rewrite <- ?app_assoc. reflexivity. }
  rewrite !andb_true_r.
  destruct (Py.contains "COUNT(" (Py.upper e)).
  { rewrite <- Hsql. cbn. destruct (search _ e); [| reflexivity].
    cbn. rewrite <- ?app_assoc. reflexivity. }
  destruct (Py.contains "MAX(" (Py.upper e)).
  { rewrite <- Hsql. cbn. destruct (search _ e); [| reflexivity].
    cbn. rewrite <- ?app_assoc. reflexivity. }
  destruct (Py.contains "MIN(" (Py.upper e)); [| reflexivity].
  rewrite <- Hsql. cbn. destruct (search _ e); [| reflexivity].
  cbn. rewrite <- ?app_assoc. reflexivity.
Qed.

Lemma question_of_inj (a b : aggregate) (n : str) :
  question_of a n = question_of b n -> a = b.
Proof.
  destruct a, b; cbn; intros H; try reflexivity; try discriminate;
    exfalso; apply (f_equal (@length ascii)) in H;
    cbn in H; rewrite ?length_app in H; cbn in H; lia.
Qed.

Lemma example_of_inj (a b : aggregate) (n e t c t' c' : str) :
  Some (example_of a n e t c) = Some (example_of b n e t' c') -> a = b.
Proof.
  intros H. apply (f_equal (option_map question)) in H.
  cbn [option_map example_of question] in H.
  apply question_of_inj with (n := n). congruence.
Qed.

End ExtractorFacts.

Section ExtractorClaims.
Import Re pbip_extractor.

Lemma selected_distinct_count (e : str) :
  Py.contains "DISTINCTCOUNT" (Py.upper e) = true ->
  selected e = Some DistinctCount.
Proof. intros H. unfold selected. cbn. rewrite H. reflexivity. Qed.

Lemma selected_not_sum (e : str) :
  Py.contains "SUMX" (Py.upper e) = true -> selected e <> Some Sum.
Proof.
  intros H. unfold selected. cbn. rewrite H. cbn.
  rewrite andb_false_r.
  repeat match goal with
         | |- context [if ?b then _ else _] => destruct b
         end; discriminate.
Qed.

(** C5.  An expression in which [DISTINCTCOUNT] occurs is decided by the
    distinct-count rule and never gives the example of the plain count;
    an expression in which [SUMX] occurs is never decided by the sum rule
    and never gives the example of the sum. *)
Theorem convert_dax_to_example_precedence (measure_name e : str) :
  (sql_validator.occurs_ci "DISTINCTCOUNT" e ->
   selected e = Some DistinctCount
   /\ forall table column,
        convert_dax_to_example measure_name e
        <> Some (example_of Count measure_name e table column))
  /\ (sql_validator.occurs_ci "SUMX" e ->
      selected e <> Some Sum
      /\ forall table column,
           convert_dax_to_example measure_name e
           <> Some (example_of Sum measure_name e table column)).
Proof.
  rewrite <- !contains_upper_iff.
  rewrite convert_dax_to_example_by_rules. split; intros H.
  - split; [apply selected_distinct_count, H |].
    rewrite (selected_distinct_count _ H). intros table column.
    destruct (search _ e); [| discriminate].
    intros Heq. apply example_of_inj in Heq. discriminate.
  - pose proof (selected_not_sum _ H) as Hn. split; [exact Hn |].
    intros table column.
    destruct (selected e) as [a |]; [| discriminate].
    destruct (search _ e); [| discriminate].
    intros Heq. apply example_of_inj in Heq. congruence.
Qed.

Lemma convert_dax_to_example_precedence_witness :
  (selected "DISTINCTCOUNT(UsageMetrics[UserId])" = Some DistinctCount
   /\ forall table column,
        convert_dax_to_example "TotalUsers"
          "DISTINCTCOUNT(UsageMetrics[UserId])"
        <> Some (example_of Count "TotalUsers"
                   "DISTINCTCOUNT(UsageMetrics[UserId])" table column))
  /\ (selected "SUMX(Sales, Sales[Qty] * Sales[Price]) + SUM(Sales[Tax])"
      <> Some Sum
      /\ forall table column,
           convert_dax_to_example "Revenue"
             "SUMX(Sales, Sales[Qty] * Sales[Price]) + SUM(Sales[Tax])"
           <> Some (example_of Sum "Revenue"
                      "SUMX(Sales, Sales[Qty] * Sales[Price]) + SUM(Sales[Tax])"
                      table column)).
Proof.
  split.
  - apply (convert_dax_to_example_precedence "TotalUsers"
             "DISTINCTCOUNT(UsageMetrics[UserId])").
    apply contains_upper_iff. vm_compute. reflexivity.
  - apply (convert_dax_to_example_precedence "Revenue"
             "SUMX(Sales, Sales[Qty] * Sales[Price]) + SUM(Sales[Tax])").
    apply contains_upper_iff. vm_compute. reflexivity.
Defined.

End ExtractorClaims.

Unset Implicit Arguments.

(** ** The checker and the translator on any text *)

Section AnyText.
Import sql_validator pbip_extractor Unicode.

Variable T : Text.

Section Containment.
Hypothesis Heqb : forall a b, char_eqb T a b = true <-> a = b.





End Containment.

(** *** The [re] model on any text: the search finds exactly the
    matches, the leftmost first *)

Lemma span_le_length_any (cls : char T -> bool) (s : string T) :
  span T cls s <= length s.
Proof.
  induction s as [| c s IH]; cbn; [lia |].
  destruct (cls c); lia.
Qed.

Lemma span_firstn_any (cls : char T -> bool) (s : string T) (k : nat) :
  k <= span T cls s -> forallb cls (firstn k s) = true.
Proof.
  revert k. induction s as [| c s IH]; intros k Hk; cbn in *.
  - rewrite firstn_nil. reflexivity.
  - destruct k as [| k]; [reflexivity |]. cbn.
    destruct (cls c); [| lia]. cbn. apply IH. lia.
Qed.

Lemma span_app_ge_any (cls : char T -> bool) (w s : string T) :
  forallb cls w = true -> length w <= span T cls (w ++ s).
Proof.
  induction w as [| c w IH]; cbn; [lia |].
  rewrite andb_true_iff. intros [-> Hw]. specialize (IH Hw). lia.
Qed.

Lemma match_here_sound_any (p : pattern T) (s : string T)
      (g : list (string T)) (n : nat) :
  match_here T p s = Some (g, n) ->
  n <= length s /\ matches T p (firstn n s) g.
Proof.
  revert s g n. induction p as [| a p IH]; intros s g n; cbn.
  - intros [= <- <-]. split; [lia | constructor].
  - destruct a as [c | cls lo cap].
    + destruct s as [| x s]; [discriminate |].
      destruct (ci_eq T c x) eqn:Hc; [| discriminate].
      destruct (match_here T p s) as [[g0 n0] |] eqn:Hm; [| discriminate].
      intros [= <- <-]. destruct (IH _ _ _ Hm) as [Hn Hmt].
      split; [cbn; lia |]. cbn. constructor; assumption.
    + intros H. apply try_down_some in H. destruct H as (j & Hj & Hf).
      destruct (match_here T p (skipn j s)) as [[g0 n0] |] eqn:Hm;
        [| discriminate].
      injection Hf as <- <-. destruct (IH _ _ _ Hm) as [Hn Hmt].
      pose proof (span_le_length_any cls s) as Hsp.
      rewrite length_skipn in Hn. split; [lia |].
      rewrite firstn_plus. constructor.
      * apply span_firstn_any. lia.
      * rewrite length_firstn. lia.
      * exact Hmt.
Qed.

Lemma match_here_complete_any (p : pattern T) (m : string T)
      (g : list (string T)) :
  matches T p m g -> forall rest, match_here T p (m ++ rest) <> None.
Proof.
  induction 1 as [| c x p m g Hc Hm IH
                 | cls lo cap w p m g Hw Hlo Hm IH]; intros rest; cbn.
  - discriminate.
  - rewrite Hc. specialize (IH rest).
    destruct (match_here T p (m ++ rest)) as [[g0 n0] |]; congruence.
  - apply try_down_complete with (j := length w).
    + split; [exact Hlo |]. rewrite <- app_assoc. apply span_app_ge_any, Hw.
    + rewrite <- app_assoc, skipn_app, skipn_all, Nat.sub_diag. cbn.
      specialize (IH rest).
      destruct (match_here T p (m ++ rest)) as [[g0 n0] |]; congruence.
Qed.

Lemma search_from_sound_any (p : pattern T) (s : string T) (i : nat)
      (m : Match T) :
  search_from T p s i = Some m ->
  i <= m_start T m /\ m_start T m - i + m_len T m <= length s
  /\ matches T p (firstn (m_len T m) (skipn (m_start T m - i) s))
       (m_groups T m)
  /\ forall k, k < m_start T m - i -> match_here T p (skipn k s) = None.
Proof.
  revert i. induction s as [| x s IH]; intros i; cbn.
  - destruct (match_here T p []) as [[g n] |] eqn:Hm; [| discriminate].
    intros [= <-]. cbn. apply match_here_sound_any in Hm. cbn in Hm.
    rewrite Nat.sub_diag. cbn.
    repeat split; try lia; try tauto; intros k Hk; lia.
  - destruct (match_here T p (x :: s)) as [[g n] |] eqn:Hm.
    + intros [= <-]. cbn. apply match_here_sound_any in Hm. cbn in Hm.
      rewrite Nat.sub_diag. cbn.
      repeat split; try lia; try tauto; intros k Hk; lia.
    + intros H. destruct (IH _ H) as (Hi & Hlen & Hmt & Hleft).
      assert (m_start T m - i = S (m_start T m - S i)) as -> by lia.
      cbn. repeat split; try lia; try assumption.
      intros [| k] Hk; cbn; [exact Hm | apply Hleft; lia].
Qed.

Lemma search_from_complete_any (p : pattern T) (pre rest : string T)
      (i : nat) :
  match_here T p rest <> None -> search_from T p (pre ++ rest) i <> None.
Proof.
  revert i. induction pre as [| x pre IH]; intros i H; cbn.
  - destruct rest as [| y rest]; cbn;
      destruct (match_here T p _) as [[g n] |]; congruence.
  - destruct (match_here T p (x :: pre ++ rest)) as [[g n] |];
      [discriminate | apply IH, H].
Qed.

(** *** The pattern of a call *)

Lemma matches_nil_any (m : string T) (g : list (string T)) :
  matches T [] m g <-> m = [] /\ g = [].
Proof.
  split.
  - inversion 1; auto.
  - intros [-> ->]. constructor.
Qed.

Lemma matches_Lit_any (c : char T) (p : pattern T) (m : string T)
      (g : list (string T)) :
  matches T (Lit T c :: p) m g
  <-> exists x m', m = x :: m' /\ ci_eq T c x = true /\ matches T p m' g.
Proof.
  split.
  - inversion 1; subst. eauto.
  - intros (x & m' & -> & Hx & Hm). constructor; assumption.
Qed.

Lemma matches_Rep_any (cls : char T -> bool) (lo : nat) (cap : bool)
      (p : pattern T) (m : string T) (g : list (string T)) :
  matches T (Rep T cls lo cap :: p) m g
  <-> exists w m' g',
        m = w ++ m' /\ g = (if cap then w :: g' else g')
        /\ forallb cls w = true /\ lo <= length w /\ matches T p m' g'.
Proof.
  split.
  - inversion 1; subst. eexists _, _, _. eauto.
  - intros (w & m' & g' & -> & -> & Hw & Hlo & Hm).
    constructor; assumption.
Qed.

Lemma matches_lit_any (t : str) (p : pattern T) (m : string T)
      (g : list (string T)) :
  matches T (lit T (text T t) ++ p) m g
  <-> exists f m', m = f ++ m' /\ ci_text T t f /\ matches T p m' g.
Proof.
  revert m. induction t as [| c t IH]; intros m; cbn [text lit map app].
  - split.
    + intros H. exists [], m. split; [reflexivity |].
      split; [constructor | exact H].
    + intros (f & m' & -> & Hf & Hm). inversion Hf; subst. exact Hm.
  - rewrite matches_Lit_any. split.
    + intros (x & m1 & -> & Hx & H). apply IH in H.
      destruct H as (f & m' & -> & Hf & Hm).
      exists (x :: f), m'. split; [reflexivity |].
      split; [constructor; assumption | exact Hm].
    + intros (f & m' & -> & Hf & Hm). inversion Hf as [| c' x t' f' Hx Hf'];
        subst.
      exists x, (f' ++ m'). split; [reflexivity |]. split; [exact Hx |].
      apply IH. eauto.
Qed.

Lemma ci_text_length (t : str) (f : string T) :
  ci_text T t f -> length f = length t.
Proof. intros H. symmetry. exact (Forall2_length H). Qed.

Section WithLaws.
Hypothesis HT : Laws T.

Lemma matches_symbol_any (c : ascii) (p : pattern T) (m : string T)
      (g : list (string T)) :
  (forall x, ci_eq T (chr T c) x = true <-> x = chr T c) ->
  (matches T (Lit T (chr T c) :: p) m g
   <-> exists m', m = chr T c :: m' /\ matches T p m' g).
Proof.
  intros Hc. rewrite matches_Lit_any. split.
  - intros (x & m' & -> & Hx & Hm). apply Hc in Hx. subst. eauto.
  - intros (m' & -> & Hm). exists (chr T c), m'.
    split; [reflexivity |]. split; [apply Hc; reflexivity | exact Hm].
Qed.

(** The pattern of a call is matched by the calls of the function, with
    the table and the column as its two groups. *)
Lemma call_re_matches_any (func : str) (m : string T)
      (g : list (string T)) :
  matches T (call_re T func) m g
  <-> exists table column,
        g = [table; column] /\ is_call T func m table column.
Proof.
  unfold call_re, is_call. rewrite matches_lit_any. split.
  - intros (f & m1 & -> & Hf & H).
    apply matches_symbol_any in H; [| apply (paren_open T HT)].
    destruct H as (m2 & -> & H).
    apply matches_Rep_any in H.
    destruct H as (table & m3 & g3 & -> & -> & Ht & Htl & H).
    apply matches_symbol_any in H; [| apply (bracket_open T HT)].
    destruct H as (m4 & -> & H).
    apply matches_Rep_any in H.
    destruct H as (column & m5 & g5 & -> & -> & Hc & Hcl & H).
    apply matches_symbol_any in H; [| apply (bracket_close T HT)].
    destruct H as (m6 & -> & H).
    apply matches_symbol_any in H; [| apply (paren_close T HT)].
    destruct H as (m7 & -> & H).
    apply matches_nil_any in H. destruct H as [-> ->].
    exists table, column. split; [reflexivity |].
    exists f.
    split. { cbn. rewrite <- ?app_assoc. reflexivity. }
    split; [exact Hf |].
    split. { destruct table; [cbn in Htl; lia | discriminate]. }
    split; [exact Ht |].
    split; [| exact Hc].
    destruct column; [cbn in Hcl; lia | discriminate].
  - intros (table & column & -> & f & -> & Hf & Htn & Ht & Hcn & Hc).
    exists f, (text T "(" ++ table ++ text T "[" ++ column ++ text T "])").
    split; [reflexivity |]. split; [exact Hf |].
    cbn [app text map].
    apply matches_symbol_any; [apply (paren_open T HT) |].
    eexists; split; [reflexivity |].
    apply matches_Rep_any.
    exists table, (chr T "[" :: column ++ [chr T "]"; chr T ")"]), [column].
    split; [reflexivity |]. split; [reflexivity |]. split; [exact Ht |].
    split. { destruct table; [congruence | cbn; lia]. }
    apply matches_symbol_any; [apply (bracket_open T HT) |].
    eexists; split; [reflexivity |].
    apply matches_Rep_any. exists column, [chr T "]"; chr T ")"], [].
    split; [reflexivity |]. split; [reflexivity |]. split; [exact Hc |].
    split. { destruct column; [congruence | cbn; lia]. }
    apply matches_symbol_any; [apply (bracket_close T HT) |].
    eexists; split; [reflexivity |].
    apply matches_symbol_any; [apply (paren_close T HT) |].
    eexists; split; [reflexivity |]. constructor.
Qed.

(** A call that begins at a position is found by [match_here] there. *)
Lemma call_at_match_here (func : str) (e : string T) (i : nat)
      (table column : string T) :
  call_at T func e i table column ->
  match_here T (call_re T func) (skipn i e) <> None.
Proof.
  intros (pre & m & post & -> & <- & Hcall).
  rewrite skipn_app, skipn_all, Nat.sub_diag. cbn [app skipn].
  apply match_here_complete_any with (g := [table; column]).
  apply call_re_matches_any. eauto.
Qed.

(** What [re.search] finds for the pattern of a call is the leftmost
    call of the expression. *)
Lemma search_call_first (func : str) (e : string T) (m : Match T) :
  search T (call_re T func) e = Some m ->
  first_call T func e (group T m 1) (group T m 2).
Proof.
  intros H. apply search_from_sound_any in H.
  destruct H as (_ & Hlen & Hm & Hleft). rewrite Nat.sub_0_r in *.
  apply call_re_matches_any in Hm.
  destruct Hm as (table & column & Hg & Hcall).
  unfold group. rewrite Hg. cbn [Nat.sub nth].
  exists (m_start T m). split.
  - exists (firstn (m_start T m) e),
      (firstn (m_len T m) (skipn (m_start T m) e)),
      (skipn (m_len T m) (skipn (m_start T m) e)).
    split; [| split; [| exact Hcall]].
    + rewrite (firstn_skipn (m_len T m)), firstn_skipn. reflexivity.
    + rewrite length_firstn. lia.
  - intros j t c Hj. destruct (Nat.le_gt_cases (m_start T m) j) as [Hle | Hlt];
      [exact Hle |].
    exfalso. apply (call_at_match_here _ _ _ _ _ Hj). apply Hleft, Hlt.
Qed.

Lemma search_call_none_any (func : str) (e : string T) :
  search T (call_re T func) e = None ->
  forall i table column, ~ call_at T func e i table column.
Proof.
  intros H i table column Hcall.
  pose proof (call_at_match_here _ _ _ _ _ Hcall) as Hm.
  destruct Hcall as (pre & m & post & -> & <- & _).
  rewrite skipn_app, skipn_all, Nat.sub_diag in Hm. cbn [app skipn] in Hm.
  apply (search_from_complete_any _ pre _ 0) in Hm. exact (Hm H).
Qed.

(** A block of a class that ends at a character outside the class is
    determined by the text it begins. *)
Lemma block_unique (cls : char T -> bool) (d : char T)
      (t t' r r' : string T) :
  forallb cls t = true -> forallb cls t' = true -> cls d = false ->
  t ++ d :: r = t' ++ d :: r' -> t = t' /\ r = r'.
Proof.
  intros Ht Ht' Hd. revert t' Ht'.
  induction t as [| c t IH]; intros [| c' t'] Ht' H; cbn in *.
  - injection H as ->. auto.
  - injection H as <- _. apply andb_true_iff in Ht'. destruct Ht' as [Hc _].
    congruence.
  - injection H as -> _. apply andb_true_iff in Ht. destruct Ht as [Hc _].
    congruence.
  - injection H as -> H. apply andb_true_iff in Ht, Ht'.
    destruct (IH (proj2 Ht) t' (proj2 Ht') H) as [-> ->]. auto.
Qed.

Lemma app_same_length (A : Type) (x x' y y' : list A) :
  length x = length x' -> x ++ y = x' ++ y' -> x = x' /\ y = y'.
Proof.
  revert x'. induction x as [| a x IH]; intros [| a' x'] Hl H;
    try discriminate; cbn in *.
  - auto.
  - injection H as -> H. injection Hl as Hl.
    destruct (IH x' Hl H) as [-> ->]. auto.
Qed.

(** The call that begins at a position is one. *)
Lemma call_at_unique (func : str) (e : string T) (i : nat)
      (table column table' column' : string T) :
  call_at T func e i table column ->
  call_at T func e i table' column' ->
  table = table' /\ column = column'.
Proof.
  intros (pre & m & post & -> & Hi & f & -> & Hf & _ & Ht & _ & Hc)
         (pre' & m' & post' & He & Hi' & f' & -> & Hf' & _ & Ht' & _ & Hc').
  apply app_same_length in He; [| congruence].
  destruct He as [_ He]. rewrite <- !app_assoc in He.
  apply app_same_length in He;
    [| rewrite (ci_text_length _ _ Hf), (ci_text_length _ _ Hf');
       reflexivity].
  destruct He as [_ He]. cbn [text map app] in He. injection He as He.
  rewrite <- ?app_assoc in He. cbn [app] in He.
  apply (block_unique (is_word T)) in He;
    [| assumption | assumption | apply (bracket_open_not_word T HT)].
  destruct He as [-> He]. split; [reflexivity |].
  apply (block_unique (is_word T)) in He;
    [| assumption | assumption | apply (bracket_close_not_word T HT)].
  apply He.
Qed.

Lemma first_call_unique (func : str) (e : string T)
      (table column table' column' : string T) :
  first_call T func e table column ->
  first_call T func e table' column' ->
  table = table' /\ column = column'.
Proof.
  intros (i & Hi & Hmin) (i' & Hi' & Hmin').
  assert (i = i') as <-
      by (apply Nat.le_antisymm; [eapply Hmin | eapply Hmin']; eassumption).
  eapply call_at_unique; eassumption.
Qed.

End WithLaws.

(** The chain of tests of [convert_dax_to_example] is the table of rules
    read in priority order. *)
Lemma convert_dax_to_example_by_rules_any (measure_name e : string T) :
  convert_dax_to_example T measure_name e
  = match selected T e with
    | Some a =>
        match search T (call_re T (func_name a)) e with
        | Some m =>
            Some (example_of T a measure_name e (group T m 1) (group T m 2))
        | None => None
        end
    | None => None
    end.
Proof.
  unfold convert_dax_to_example, selected, priority.
  cbn [find marker].
  destruct (contains T (text T "DISTINCTCOUNT") (upper T e)).
  { cbn. destruct (search T _ e); [| reflexivity].
    unfold example_of. cbn. rewrite <- ?app_assoc. reflexivity. }
  cbn [negb andb].
  destruct (contains T (text T "SUM(") (upper T e)
            && negb (contains T (text T "SUMX") (upper T e))).
  { cbn. destruct (search T _ e); [| reflexivity].
    unfold example_of. cbn. rewrite <- ?app_assoc. reflexivity. }
  destruct (contains T (text T "AVERAGE(") (upper T e)).
  { cbn. destruct (search T _ e); [| reflexivity].
    unfold example_of. cbn. rewrite <- ?app_assoc. reflexivity. }
  rewrite !andb_true_r.
  destruct (contains T (text T "COUNT(") (upper T e)).
  { cbn. destruct (search T _ e); [| reflexivity].
    unfold example_of. cbn. rewrite <- ?app_assoc. reflexivity. }
  destruct (contains T (text T "MAX(") (upper T e)).
  { cbn. destruct (search T _ e); [| reflexivity].
    unfold example_of. cbn. rewrite <- ?app_assoc. reflexivity. }
  destruct (contains T (text T "MIN(") (upper T e)); [| reflexivity].
  cbn. destruct (search T _ e); [| reflexivity].
  unfold example_of. cbn. rewrite <- ?app_assoc. reflexivity.
Qed.

End AnyText.

(** *** The instance of the modules above *)

Section AsciiText.
Import Unicode.

Lemma ascii_symbol (c x : ascii) :
  Py.is_lower c = false -> Py.is_upper c = false ->
  (Re.ci_eq c x = true <-> x = c).
Proof.
  intros Hl Hu. rewrite ci_eq_iff. split.
  - intros H. apply (@caseless_check c Hl Hu). symmetry. exact H.
  - intros ->. reflexivity.
Qed.

Lemma ascii_laws : Laws ascii_text.
Proof.
  constructor; cbn.
  - apply Ascii.eqb_eq.
  - intros x. apply ascii_symbol; reflexivity.
  - intros x. apply ascii_symbol; reflexivity.
  - intros x. apply ascii_symbol; reflexivity.
  - intros x. apply ascii_symbol; reflexivity.
  - reflexivity.
  - reflexivity.
Qed.

(** On this instance the checker is the one of [sql_validator]. *)
Lemma validate_sql_syntax_ascii (q : str) :
  validate_sql_syntax ascii_text q = sql_validator.validate_sql_syntax q.
Proof. reflexivity. Qed.

Lemma try_down_ext (A : Type) (lo k : nat) (f g : nat -> option A) :
  (forall j, f j = g j) -> Re.try_down lo k f = Re.try_down lo k g.
Proof.
  intros H. induction k as [| k IH]; cbn [Re.try_down]; rewrite H;
    [reflexivity |].
  rewrite IH. reflexivity.
Qed.

Lemma match_here_ascii (p : pattern ascii_text) (s : str) :
  match_here ascii_text p s = Re.match_here (map to_atom p) s.
Proof.
  revert s. induction p as [| a p IH]; intros s; [reflexivity |].
  destruct a as [c | cls lo cap]; cbn [map to_atom match_here Re.match_here].
  - destruct s as [| x s]; [reflexivity |]. rewrite IH. reflexivity.
  - apply try_down_ext. intros j. rewrite IH. reflexivity.
Qed.

Lemma search_from_ascii (p : pattern ascii_text) (s : str) (i : nat) :
  option_map to_match (search_from ascii_text p s i)
  = Re.search_from (map to_atom p) s i.
Proof.
  revert i. induction s as [| x s IH]; intros i;
    cbn [search_from Re.search_from]; rewrite <- match_here_ascii.
  - destruct (match_here ascii_text p (@nil ascii)) as [[g n] |];
      reflexivity.
  - destruct (match_here ascii_text p (x :: s)) as [[g n] |];
      [reflexivity | apply IH].
Qed.

Lemma call_re_ascii (func : str) :
  map to_atom (call_re ascii_text func) = pbip_extractor.call_re func.
Proof.
  unfold call_re, pbip_extractor.call_re, lit, Re.lit, text.
  rewrite map_app, !map_map. cbn [map to_atom chr ascii_text].
  reflexivity.
Qed.

(** On this instance the translator is the one of [pbip_extractor]. *)
Lemma convert_dax_to_example_ascii (measure_name e : str) :
  option_map to_example (convert_dax_to_example ascii_text measure_name e)
  = pbip_extractor.convert_dax_to_example measure_name e.
Proof.
  rewrite convert_dax_to_example_by_rules_any,
    convert_dax_to_example_by_rules.
  change (selected ascii_text e) with (pbip_extractor.selected e).
  destruct (pbip_extractor.selected e) as [a |]; [| reflexivity].
  unfold Re.search. rewrite <- call_re_ascii, <- search_from_ascii.
  unfold search.
  destruct (search_from ascii_text
              (call_re ascii_text (pbip_extractor.func_name a)) e 0)
    as [m |]; [| reflexivity].
  destruct a; reflexivity.
Qed.

End AsciiText.

Section AnyTextClaims.
Import sql_validator pbip_extractor Unicode.




(** C4, as the code has it, on any text: six patterns, not five, and the
    pattern is chosen by its marker.  The rule of an expression is the
    first of distinct-count, sum, average, count, max and min whose
    marker is found in the upper-cased expression.  With no rule the
    result is [None].  With the rule [a], either calls
    [FUNC(Table[Column])] of its function occur in the expression, and
    the result is the example of [a] for the table and the column of the
    leftmost one, which are the only ones it can be built from: the query
    [SELECT <aggregate of a>(column) AS measure FROM dbo.table], the
    average over [CAST(column AS FLOAT)]; or no call of its function
    occurs, whatever the calls of other functions, and the result is
    [None].  The function is total: it never raises. *)
Theorem convert_dax_to_example_rules (T : Text)
        (measure_name e : string T) :
  Laws T ->
  match selected T e with
  | None => convert_dax_to_example T measure_name e = None
  | Some a =>
      (exists table column,
          first_call T (func_name a) e table column
          /\ (forall table' column',
                 first_call T (func_name a) e table' column' ->
                 table' = table /\ column' = column)
          /\ convert_dax_to_example T measure_name e
             = Some {| question := question_of T a measure_name;
                       sql := text T "SELECT " ++ sql_aggregate T a column
                                ++ text T " AS " ++ measure_name
                                ++ text T " FROM dbo." ++ table;
                       source := text T "pbip_measure";
                       original_dax := e |})
      \/ ((forall i table column,
              ~ call_at T (func_name a) e i table column)
          /\ convert_dax_to_example T measure_name e = None)
  end.
Proof.
  intros HT. rewrite convert_dax_to_example_by_rules_any.
  destruct (selected T e) as [a |]; [| reflexivity].
  destruct (search T (call_re T (func_name a)) e) as [m |] eqn:Hs.
  - left. exists (group T m 1), (group T m 2).
    pose proof (search_call_first T HT _ _ _ Hs) as Hfirst.
    split; [exact Hfirst |]. split; [| reflexivity].
    intros table' column' H'.
    exact (first_call_unique T HT _ _ _ _ _ _ H' Hfirst).
  - right. split; [| reflexivity].
    exact (search_call_none_any T HT _ _ Hs).
Qed.

Lemma convert_dax_to_example_rules_witness :
  match selected ascii_text "Sum(Sales[Amount])" with
  | None =>
      convert_dax_to_example ascii_text "TotalSales" "Sum(Sales[Amount])"
      = None
  | Some a =>
      (exists table column,
          first_call ascii_text (func_name a) "Sum(Sales[Amount])"
            table column
          /\ (forall table' column',
                 first_call ascii_text (func_name a) "Sum(Sales[Amount])"
                   table' column' ->
                 table' = table /\ column' = column)
          /\ convert_dax_to_example ascii_text "TotalSales"
               "Sum(Sales[Amount])"
             = Some {| question := question_of ascii_text a "TotalSales";
                       sql := text ascii_text "SELECT "
                                ++ sql_aggregate ascii_text a column
                                ++ text ascii_text " AS " ++ "TotalSales"
                                ++ text ascii_text " FROM dbo." ++ table;
                       source := text ascii_text "pbip_measure";
                       original_dax := "Sum(Sales[Amount])" |})
      \/ ((forall i table column,
              ~ call_at ascii_text (func_name a) "Sum(Sales[Amount])" i
                  table column)
          /\ convert_dax_to_example ascii_text "TotalSales"
               "Sum(Sales[Amount])" = None)
  end.
Proof.
  apply (convert_dax_to_example_rules ascii_text "TotalSales"
           "Sum(Sales[Amount])").
  exact ascii_laws.
Defined.

(** The claim C4 fails as it is stated, on two counts.  The patterns
    recognised are six: these six expressions, one per aggregate, all
    give an example, and the six queries are pairwise distinct.  And an
    expression of a recognised shape may give no example: this one has
    the call [MAX(T[c])], but the marker [SUM(] comes first and selects
    the sum rule, whose call is not there. *)
Lemma six_patterns_one_call_missed :
  map (fun e => option_map (sql ascii_text)
                  (convert_dax_to_example ascii_text "M" e))
      ["distinctcount(T[c])"; "Sum(T[c])"; "AVERAGE(T[c])"; "count(T[c])";
       "MAX(T[c])"; "min(T[c])"]
  = [Some "SELECT COUNT(DISTINCT c) AS M FROM dbo.T";
     Some "SELECT SUM(c) AS M FROM dbo.T";
     Some "SELECT AVG(CAST(c AS FLOAT)) AS M FROM dbo.T";
     Some "SELECT COUNT(c) AS M FROM dbo.T";
     Some "SELECT MAX(c) AS M FROM dbo.T";
     Some "SELECT MIN(c) AS M FROM dbo.T"]
  /\ NoDup ["SELECT COUNT(DISTINCT c) AS M FROM dbo.T";
            "SELECT SUM(c) AS M FROM dbo.T";
            "SELECT AVG(CAST(c AS FLOAT)) AS M FROM dbo.T";
            "SELECT COUNT(c) AS M FROM dbo.T";
            "SELECT MAX(c) AS M FROM dbo.T";
            "SELECT MIN(c) AS M FROM dbo.T"]
  /\ ~ (length priority = 5)
  /\ call_at ascii_text "MAX" "SUM(x) + MAX(T[c])" 9 "T" "c"
  /\ convert_dax_to_example ascii_text "M" "SUM(x) + MAX(T[c])" = None.
Proof.
  split; [vm_compute; reflexivity |].
  split; [repeat constructor; cbn; intuition discriminate |].
  split; [discriminate |].
  split; [| vm_compute; reflexivity].
  exists "SUM(x) + ", "MAX(T[c])", []. split; [reflexivity |].
  split; [reflexivity |].
  exists "MAX". split; [reflexivity |].
  split; [repeat constructor |]. repeat split; discriminate.
Qed.

End AnyTextClaims.

(** ** Occurrences in a text made of pieces *)

Unset Implicit Arguments.

Section WordFacts.
Import Words.

Lemma endswith_iff (t s : str) :
  Py.endswith t s = true <-> exists pre, s = pre ++ t.
Proof.
  unfold Py.endswith. rewrite startswith_iff. split.
  - intros [post H]. exists (rev post).
    rewrite <- (rev_involutive s), H, rev_app_distr, rev_involutive.
    reflexivity.
  - intros [pre ->]. exists (rev pre). apply rev_app_distr.
Qed.

Lemma contains_mono (n w x z : str) :
  Py.contains n x = true -> Py.contains n (w ++ x ++ z) = true.
Proof.
  rewrite !contains_iff. intros (pre & post & ->).
  exists (w ++ pre), (post ++ z). rewrite <- !app_assoc. reflexivity.
Qed.

Lemma contains_false_l (n x z : str) :
  Py.contains n (x ++ z) = false -> Py.contains n x = false.
Proof.
  intros H. destruct (Py.contains n x) eqn:Hx; [| reflexivity].
  rewrite <- H. symmetry.
  apply (contains_mono n [] x z) in Hx. exact Hx.
Qed.

Lemma contains_false_r (n x z : str) :
  Py.contains n (x ++ z) = false -> Py.contains n z = false.
Proof.
  intros H. destruct (Py.contains n z) eqn:Hz; [| reflexivity].
  rewrite <- H. symmetry.
  apply (contains_mono n x z []) in Hz. rewrite app_nil_r in Hz. exact Hz.
Qed.

Lemma in_cuts (n : str) (k : nat) : In k (cuts n) <-> 0 < k < length n.
Proof. unfold cuts. rewrite in_seq. lia. Qed.

(** An occurrence in [x ++ y] lies in [x], in [y], or across. *)
Lemma contains_app (n x y : str) :
  Py.contains n (x ++ y)
  = Py.contains n x || Py.contains n y || straddles n x y.
Proof.
  apply eq_true_iff_eq. rewrite !orb_true_iff. unfold straddles.
  rewrite existsb_exists, !contains_iff. split.
  - intros (pre & post & H). symmetry in H.
    apply app_eq_app in H. destruct H as [l [[-> H] | [-> H]]].
    + left. right. eauto.
    + symmetry in H. apply app_eq_app in H.
      destruct H as [l' [[-> ->] | [-> ->]]].
      * left. left. exists pre, l'. rewrite <- ?app_assoc. reflexivity.
      * destruct l as [| a l].
        { left. right. exists [], post. reflexivity. }
        destruct l' as [| b l'].
        { left. left. exists pre, []. rewrite !app_nil_r. reflexivity. }
        right. exists (length (a :: l)).
        split. { apply in_cuts. rewrite length_app. cbn. lia. }
        rewrite firstn_app, firstn_all, Nat.sub_diag, firstn_0, app_nil_r.
        rewrite skipn_app, skipn_all, Nat.sub_diag, skipn_0. cbn [app].
        apply andb_true_iff. split.
        { apply endswith_iff. eexists. reflexivity. }
        { apply startswith_iff. eexists. reflexivity. }
  - intros [[(pre & post & ->) | (pre & post & ->)] | (k & Hk & H)].
    + exists pre, (post ++ y). rewrite <- !app_assoc. reflexivity.
    + exists (x ++ pre), post. rewrite <- !app_assoc. reflexivity.
    + apply andb_true_iff in H. destruct H as [He Hs].
      apply endswith_iff in He. destruct He as [pre ->].
      apply startswith_iff in Hs. destruct Hs as [post ->].
      exists pre, post. rewrite <- !app_assoc. f_equal.
      rewrite app_assoc, firstn_skipn. reflexivity.
Qed.

Lemma startswith_app_compat (t y0 z : str) :
  Py.startswith t (y0 ++ z) = true -> prefix_compat t y0 = true.
Proof.
  unfold prefix_compat. revert y0. induction t as [| a t IH]; intros y0.
  - reflexivity.
  - destruct y0 as [| b y0]; cbn.
    + intros _. reflexivity.
    + rewrite !andb_true_iff. intros [Hab H]. apply IH in H.
      rewrite Hab. apply Ascii.eqb_eq in Hab. subst.
      rewrite Ascii.eqb_refl. exact H.
Qed.

Lemma endswith_app_compat (t w x0 : str) :
  Py.endswith t (w ++ x0) = true -> suffix_compat t x0 = true.
Proof.
  unfold suffix_compat, Py.endswith. rewrite rev_app_distr.
  apply startswith_app_compat.
Qed.

Lemma straddles_false (n w x0 y0 z : str) :
  may_straddle n x0 y0 = false -> straddles n (w ++ x0) (y0 ++ z) = false.
Proof.
  unfold may_straddle, straddles. intros H.
  apply not_true_is_false. intros Hs.
  apply existsb_exists in Hs. destruct Hs as (k & Hk & Hs).
  apply andb_true_iff in Hs. destruct Hs as [He Hp].
  apply endswith_app_compat in He. apply startswith_app_compat in Hp.
  assert (existsb (fun k => suffix_compat (firstn k n) x0
                            && prefix_compat (skipn k n) y0) (cuts n)
          = true) as Ht.
  { apply existsb_exists. exists k. rewrite He, Hp. auto. }
  congruence.
Qed.

(** No occurrence on either side and none possible across: none at
    all. *)
Lemma contains_join (n w x0 y0 z : str) :
  Py.contains n (w ++ x0) = false ->
  Py.contains n (y0 ++ z) = false ->
  may_straddle n x0 y0 = false ->
  Py.contains n ((w ++ x0) ++ y0 ++ z) = false.
Proof.
  intros Hx Hy Hs. rewrite contains_app, Hx, Hy. cbn.
  apply straddles_false, Hs.
Qed.

Lemma startswith_foreign (n z : str) (c : ascii) :
  foreign n c = true -> n <> [] -> Py.startswith n (c :: z) = false.
Proof.
  unfold foreign. destruct n as [| a n]; [congruence |]. cbn.
  rewrite negb_true_iff, orb_false_iff. intros [Hc _] _.
  rewrite Ascii.eqb_sym, Hc. reflexivity.
Qed.

Lemma foreign_skipn (n : str) (c : ascii) (k : nat) :
  foreign n c = true -> foreign (skipn k n) c = true.
Proof.
  unfold foreign. rewrite !negb_true_iff. intros H.
  apply not_true_is_false. intros Hk.
  apply existsb_exists in Hk. destruct Hk as (a & Ha & Hca).
  assert (existsb (Ascii.eqb c) n = true) as Ht.
  { apply existsb_exists. exists a. split; [| exact Hca].
    rewrite <- (firstn_skipn k n). apply in_or_app. auto. }
  congruence.
Qed.

(** A character that is not in [n] cuts the text: an occurrence lies
    before it or after it. *)
Lemma contains_cut (n x z : str) (c : ascii) :
  foreign n c = true ->
  Py.contains n (x ++ c :: z) = Py.contains n x || Py.contains n z.
Proof.
  intros Hc. destruct n as [| a n].
  { destruct x, z; reflexivity. }
  rewrite contains_app. cbn [Py.contains].
  rewrite (startswith_foreign _ z _ Hc) by discriminate. cbn [orb].
  assert (straddles (a :: n) x (c :: z) = false) as ->.
  { apply not_true_is_false. intros Hs.
    apply existsb_exists in Hs. destruct Hs as (k & Hk & Hs).
    apply in_cuts in Hk. apply andb_true_iff in Hs. destruct Hs as [_ Hs].
    rewrite startswith_foreign in Hs; [discriminate | |].
    - apply foreign_skipn, Hc.
    - intros Hn. apply (f_equal (@length ascii)) in Hn.
      rewrite length_skipn in Hn. cbn [length] in *. lia. }
  rewrite orb_false_r. reflexivity.
Qed.

(** So does a block of such characters. *)
Lemma contains_cut_block (n x d z : str) :
  forallb (foreign n) d = true -> d <> [] -> n <> [] ->
  Py.contains n (x ++ d ++ z) = Py.contains n x || Py.contains n z.
Proof.
  intros Hd Hne Hn. destruct d as [| c d]; [congruence |]. clear Hne.
  cbn in Hd. apply andb_true_iff in Hd. destruct Hd as [Hc Hd].
  cbn [app]. rewrite (contains_cut _ _ _ _ Hc). f_equal.
  induction d as [| c' d IH]; [reflexivity |].
  cbn in Hd. apply andb_true_iff in Hd. destruct Hd as [Hc' Hd].
  change ((c' :: d) ++ z) with ([] ++ c' :: d ++ z).
  rewrite (contains_cut _ _ _ _ Hc'), (IH Hd).
  destruct n; [congruence | reflexivity].
Qed.

Lemma startswith_cut (n x z : str) (c : ascii) :
  foreign n c = true ->
  Py.startswith n (x ++ c :: z) = Py.startswith n x.
Proof.
  intros Hc. revert x. induction n as [| a n IH]; intros x.
  - reflexivity.
  - destruct x as [| b x]; cbn [app].
    + apply startswith_foreign; [exact Hc | discriminate].
    + cbn. f_equal. apply IH.
      apply (foreign_skipn (a :: n) c 1 Hc).
Qed.

(** An occurrence at the head of [x ++ y] lies in [x], unless [x] is a
    proper beginning of [n]. *)
Lemma startswith_app_cases (n x y0 z : str) :
  Py.startswith n (x ++ y0 ++ z) = true -> x <> [] ->
  may_begin n y0 = false ->
  Py.startswith n x = true.
Proof.
  intros H Hx Hb. apply startswith_iff in H. destruct H as [post H].
  apply app_eq_app in H. destruct H as [l [[-> H] | [-> H]]].
  - apply startswith_iff. eexists. reflexivity.
  - destruct l as [| a l].
    + apply startswith_iff. exists []. rewrite !app_nil_r. reflexivity.
    + exfalso.
      assert (existsb (fun k => prefix_compat (skipn k (x ++ a :: l)) y0)
                (cuts (x ++ a :: l)) = true) as Ht.
      { apply existsb_exists. exists (length x). split.
        - apply in_cuts. rewrite length_app. cbn.
          destruct x; [congruence | cbn; lia].
        - rewrite skipn_app, skipn_all, Nat.sub_diag. cbn [app skipn].
          apply startswith_app_compat with (z := z).
          apply startswith_iff. eexists. exact H. }
      unfold may_begin in Hb. congruence.
Qed.

End WordFacts.

(** ** The [re] model: substitution *)

Section SubFacts.
Import Re.

Lemma sub_from_exhausted (p : pattern) (t : template) (k : nat) (s : str) :
  sub_from p t (Some 0) k s = skipn k s.
Proof.
  revert s. induction k as [| k IH]; intros s.
  - destruct s; reflexivity.
  - destruct s as [| c s]; [reflexivity |]. cbn. apply IH.
Qed.

Lemma sub_from_skip (p : pattern) (t : template) (left : option nat)
      (k : nat) (s : str) :
  k <= length s ->
  sub_from p t left k s = sub_from p t left 0 (skipn k s).
Proof.
  revert s. induction k as [| k IH]; intros s Hk; [reflexivity |].
  destruct s as [| c s]; cbn in Hk; [lia |].
  cbn [sub_from skipn]. apply IH. lia.
Qed.

(** At a match, the replacement is emitted and the scan resumes after
    the match. *)
Lemma sub_from_match (p : pattern) (t : template) (s : str)
      (g : list str) (n : nat) :
  match_here p s = Some (g, S n) ->
  sub_from p t None 0 s = expand t g ++ sub_from p t None 0 (skipn (S n) s).
Proof.
  intros Hm. pose proof (match_here_sound _ _ Hm) as [Hn _].
  destruct s as [| c s]; cbn in Hn; [lia |].
  cbn [sub_from option_map skipn]. rewrite Hm. f_equal.
  apply sub_from_skip. lia.
Qed.

Lemma sub_from_no_match_here (p : pattern) (t : template) (c : ascii)
      (s : str) :
  match_here p (c :: s) = None ->
  sub_from p t None 0 (c :: s) = c :: sub_from p t None 0 s.
Proof. intros Hm. cbn [sub_from]. rewrite Hm. reflexivity. Qed.

Lemma no_match_before_tail (p : pattern) (c : ascii) (pre rest : str) :
  (forall k, k < length (c :: pre) ->
             match_here p (skipn k ((c :: pre) ++ rest)) = None) ->
  match_here p (c :: pre ++ rest) = None
  /\ forall k, k < length pre -> match_here p (skipn k (pre ++ rest)) = None.
Proof.
  intros H. split.
  - apply (H 0). cbn. lia.
  - intros k Hk. apply (H (S k)). cbn. lia.
Qed.

(** The first match: the text before it is copied. *)
Lemma sub_from_first (p : pattern) (t : template) (pre rest : str)
      (g : list str) (n : nat) :
  (forall k, k < length pre ->
             match_here p (skipn k (pre ++ rest)) = None) ->
  match_here p rest = Some (g, S n) ->
  sub_from p t None 0 (pre ++ rest)
  = pre ++ expand t g ++ sub_from p t None 0 (skipn (S n) rest).
Proof.
  intros Hpre Hm. induction pre as [| c pre IH].
  - apply sub_from_match, Hm.
  - apply no_match_before_tail in Hpre. destruct Hpre as [H0 Hpre].
    cbn [app]. rewrite sub_from_no_match_here by exact H0.
    rewrite (IH Hpre). reflexivity.
Qed.

Lemma search_from_first (p : pattern) (pre rest : str) (g : list str)
      (n i : nat) :
  (forall k, k < length pre ->
             match_here p (skipn k (pre ++ rest)) = None) ->
  match_here p rest = Some (g, n) ->
  search_from p (pre ++ rest) i = Some (mkMatch (i + length pre) n g).
Proof.
  intros Hpre Hm. revert i. induction pre as [| c pre IH]; intros i.
  - cbn [app length]. rewrite Nat.add_0_r.
    destruct rest; cbn; rewrite Hm; reflexivity.
  - apply no_match_before_tail in Hpre. destruct Hpre as [H0 Hpre].
    cbn [app search_from]. rewrite H0, (IH Hpre). cbn [length].
    do 2 f_equal. lia.
Qed.

Lemma search_none_tail (p : pattern) (c : ascii) (s : str) :
  search p s = None -> match_here p (c :: s) = None ->
  search p (c :: s) = None.
Proof.
  unfold search. intros Hs Hm. cbn. rewrite Hm.
  eapply search_from_none_shift, Hs.
Qed.

Lemma rewritten_cons (p : pattern) (t : template) (c : ascii)
      (s out : str) :
  match_here p (c :: s) = None ->
  rewritten p t s out -> rewritten p t (c :: s) (c :: out).
Proof.
  intros Hm H. destruct H as [u Hu | u m g rest out Hpre Hmm Hne Hr].
  - apply rewritten_none. apply search_none_tail; assumption.
  - apply (@rewritten_match p t (c :: u) m g rest out); try assumption.
    intros [| k] Hk; cbn in *; [exact Hm | apply Hpre; lia].
Qed.

(** [re.sub] with no count rewrites every match. *)
Lemma sub_from_rewritten (p : pattern) (t : template) (s : str) :
  never_empty p ->
  forall k, k <= length s ->
            rewritten p t (skipn k s) (sub_from p t None k s).
Proof.
  intros Hne. induction s as [| c s IH]; intros k Hk.
  - cbn in Hk. assert (k = 0) as -> by lia. cbn.
    destruct (match_here p []) as [[g n] |] eqn:Hm.
    + pose proof (match_here_sound _ _ Hm) as [Hn _]. cbn in Hn.
      assert (n = 0) as -> by lia. exfalso. exact (Hne _ _ Hm).
    + apply rewritten_none. unfold search. cbn. rewrite Hm. reflexivity.
  - destruct k as [| k].
    + cbn [skipn sub_from option_map].
      destruct (match_here p (c :: s)) as [[g [| n]] |] eqn:Hm.
      * exfalso. exact (Hne _ _ Hm).
      * pose proof (match_here_sound _ _ Hm) as [Hn Hmt].
        cbn [length] in Hn.
        rewrite <- (firstn_skipn (S n) (c :: s)) at 1.
        apply (@rewritten_match p t [] (firstn (S n) (c :: s)) g
                 (skipn (S n) (c :: s)) (sub_from p t None n s)).
        -- intros j Hj. cbn in Hj. lia.
        -- rewrite firstn_skipn, length_firstn, Hm.
           do 2 f_equal. cbn [length]. lia.
        -- discriminate.
        -- cbn [skipn]. apply IH. lia.
      * apply rewritten_cons; [exact Hm |]. apply (IH 0). lia.
    + cbn [skipn sub_from]. apply IH. cbn in Hk. lia.
Qed.

Lemma sub_rewritten (p : pattern) (t : template) (s : str) :
  never_empty p -> rewritten p t s (sub p t s 0).
Proof.
  intros Hne. apply (sub_from_rewritten p t s Hne 0). lia.
Qed.

Lemma never_empty_Lit (c : ascii) (p : pattern) : never_empty (Lit c :: p).
Proof.
  intros s g. cbn. destruct s as [| x s]; [discriminate |].
  destruct (ci_eq c x); [| discriminate].
  destruct (match_here p s) as [[g0 n0] |]; discriminate.
Qed.

Lemma never_empty_One (cls : ascii -> bool) (p : pattern) :
  never_empty (One cls :: p).
Proof.
  intros s g. cbn. destruct s as [| x s]; [discriminate |].
  destruct (cls x); [| discriminate].
  destruct (match_here p s) as [[g0 n0] |]; discriminate.
Qed.

(** [re.sub] with [count = 1] replaces the first match. *)
Lemma sub_from_once (p : pattern) (t : template) (s : str) (i : nat) :
  never_empty p ->
  sub_from p t (Some 1) 0 s
  = match search_from p s i with
    | Some m =>
        firstn (m_start m - i) s ++ expand t (m_groups m)
          ++ skipn (m_start m - i + m_len m) s
    | None => s
    end.
Proof.
  intros Hne. revert i. induction s as [| c s IH]; intros i.
  - cbn. destruct (match_here p []) as [[g n] |] eqn:Hm; [| reflexivity].
    pose proof (match_here_sound _ _ Hm) as [Hn _]. cbn in Hn.
    assert (n = 0) as -> by lia. exfalso. exact (Hne _ _ Hm).
  - cbn [sub_from search_from option_map pred].
    destruct (match_here p (c :: s)) as [[g [| n]] |] eqn:Hm.
    + exfalso. exact (Hne _ _ Hm).
    + cbn [m_start m_len m_groups]. rewrite Nat.sub_diag. cbn [firstn app].
      rewrite sub_from_exhausted. reflexivity.
    + rewrite (IH (S i)).
      destruct (search_from p s (S i)) as [m |] eqn:Hs; [| reflexivity].
      apply search_from_sound in Hs. destruct Hs as (Hi & _).
      assert (m_start m - i = S (m_start m - S i)) as -> by lia.
      reflexivity.
Qed.

Lemma sub_once (p : pattern) (t : template) (s : str) :
  never_empty p ->
  sub p t s 1 = s
  \/ exists a m b g,
       s = a ++ m ++ b /\ matches p m g /\ sub p t s 1 = a ++ expand t g ++ b.
Proof.
  intros Hne. unfold sub. rewrite (sub_from_once p t s 0 Hne).
  destruct (search_from p s 0) as [m |] eqn:Hs; [| left; reflexivity].
  right. apply search_from_sound in Hs.
  destruct Hs as (_ & Hlen & Hm & _). rewrite Nat.sub_0_r in *.
  exists (firstn (m_start m) s), (firstn (m_len m) (skipn (m_start m) s)),
    (skipn (m_len m) (skipn (m_start m) s)), (m_groups m).
  split; [| split; [exact Hm |]].
  - rewrite (firstn_skipn (m_len m)), firstn_skipn. reflexivity.
  - rewrite skipn_skipn, (Nat.add_comm (m_len m)). reflexivity.
Qed.

(** *** Matching a known text *)

Lemma span_exact (cls : ascii -> bool) (w rest : str) :
  forallb cls w = true -> span cls rest = 0 ->
  span cls (w ++ rest) = length w.
Proof.
  intros Hw Hr. induction w as [| c w IH]; [exact Hr |].
  cbn in *. apply andb_true_iff in Hw. destruct Hw as [-> Hw].
  rewrite (IH Hw). reflexivity.
Qed.

(** A greedy repetition takes the whole run when what follows the run
    matches the rest of the pattern. *)
Lemma match_here_Rep_exact (cls : ascii -> bool) (lo : nat) (cap : bool)
      (p : pattern) (w rest : str) (g : list str) (n : nat) :
  forallb cls w = true -> span cls rest = 0 -> lo <= length w ->
  match_here p rest = Some (g, n) ->
  match_here (Rep cls lo cap :: p) (w ++ rest)
  = Some (if cap then w :: g else g, length w + n).
Proof.
  intros Hw Hr Hlo Hm. cbn [match_here].
  rewrite (span_exact cls w rest Hw Hr).
  assert (forall A lo k (f : nat -> option A) r,
             lo <= k -> f k = Some r -> try_down lo k f = Some r) as Htry.
  { intros A lo' k f r Hk Hf. destruct k; cbn [try_down];
      (destruct (_ <? lo') eqn:Hl; [apply Nat.ltb_lt in Hl; lia |]);
      rewrite Hf; reflexivity. }
  apply Htry; [exact Hlo |]. cbv beta.
  rewrite skipn_app, skipn_all, Nat.sub_diag. cbn [skipn app]. rewrite Hm.
  rewrite firstn_app, firstn_all, Nat.sub_diag, firstn_0, app_nil_r.
  reflexivity.
Qed.

Lemma match_here_Lit_exact (c x : ascii) (p : pattern) (rest : str)
      (g : list str) (n : nat) :
  Py.upper_char x = Py.upper_char c ->
  match_here p rest = Some (g, n) ->
  match_here (Lit c :: p) (x :: rest) = Some (g, S n).
Proof.
  intros Hx Hm. cbn [match_here].
  assert (ci_eq c x = true) as -> by (apply ci_eq_iff; auto).
  rewrite Hm. reflexivity.
Qed.

Lemma match_here_lit_exact (s f : str) (p : pattern) (rest : str)
      (g : list str) (n : nat) :
  Py.upper f = Py.upper s ->
  match_here p rest = Some (g, n) ->
  match_here (lit s ++ p) (f ++ rest) = Some (g, length f + n).
Proof.
  revert f. induction s as [| c s IH]; intros f Hf Hm.
  - destruct f; [exact Hm | discriminate].
  - destruct f as [| x f]; [discriminate |]. cbn in Hf.
    injection Hf as Hx Hf. cbn [lit map app length Nat.add].
    apply match_here_Lit_exact; [exact Hx |]. apply IH; assumption.
Qed.

(** A pattern that begins with the letters of [n] matches only where the
    upper-cased text begins with [n]. *)
Lemma match_here_lit_startswith (n : str) (p : pattern) (s : str) :
  match_here (lit n ++ p) s <> None ->
  Py.startswith (Py.upper n) (Py.upper s) = true.
Proof.
  intros H. destruct (match_here (lit n ++ p) s) as [[g k] |] eqn:Hm;
    [| congruence].
  apply match_here_sound in Hm. destruct Hm as [_ Hm].
  apply matches_lit_iff in Hm. destruct Hm as (f & m' & Hf & Hup & _).
  apply startswith_iff. exists (Py.upper (m' ++ skipn k s)).
  rewrite <- Hup, <- upper_app, app_assoc, <- Hf, firstn_skipn.
  reflexivity.
Qed.

End SubFacts.

(* ================================================================== *)
(** * Part III: further properties of the code                         *)
(* ================================================================== *)

(** ** The accuracy evaluator, continued *)

Section EvaluatorProperties.
Import Eff accuracy_testing.

Ltac run_case :=
  unfold test_single_case, query_report_dax, locally, try_except, bind,
    lift, of_outcome, set_local, get_local, modify, ret, raise in *;
  cbn [fst snd] in *.

(** A zero baseline that the agent misses does not end as [fail]: the
    [FAIL] message formats [result['difference']], which is still [None]
    on this path, and the [TypeError] turns the case into an [error].
    Such a case is never among the failures handed to the learning
    step. *)
Theorem zero_baseline_mismatch_is_error (W : Type) (svc : Services W)
        (tc : TestCase) (tol : float) (t : Tester) (w w1 w2 : W)
        (resp : Response) (df : DataFrame) (a x : float) :
  query svc (question tc) w = (Ok resp, w1) ->
  extract_numeric_value resp = Ok a ->
  SEMPY_AVAILABLE svc = true ->
  evaluate_dax svc (dataset t) (expected_dax tc) w1 = (Ok df, w2) ->
  iloc_0_0 df = Ok x ->
  PrimFloat.eqb x 0 = true ->
  PrimFloat.eqb a 0 = false ->
  exists r,
    test_single_case svc tc tol (t, w)
      = (Ok r, (set_results (results t ++ [r]) t, w2))
    /\ r_status r = "error"
    /\ r_error r
       = Some "unsupported format string passed to NoneType.__format__"
    /\ r_difference r = None
    /\ filter (fun r => str_eqb (r_status r) "fail") [r] = [].
Proof.
  intros Hq Ha Hs Hd Hx Hx0 Ha0. run_case.
  rewrite Hq; cbn. rewrite Ha; cbn. rewrite Hs; cbn. rewrite Hd; cbn.
  rewrite Hx; cbn. rewrite Hx0; cbn. rewrite Ha0; cbn.
  eexists. split; [reflexivity |]. cbn. auto.
Qed.

Lemma zero_baseline_mismatch_is_error_witness :
  exists r,
    test_single_case
      (samples.constant_services 0.001 0 None None) samples.total_users
      0.01%float (new_tester "Your Semantic Model", samples.empty_log)
    = (Ok r,
       (set_results ([] ++ [r]) (new_tester "Your Semantic Model"),
        samples.mkLog 1 1 [] 0))
    /\ r_status r = "error"
    /\ r_error r
       = Some "unsupported format string passed to NoneType.__format__"
    /\ r_difference r = None
    /\ filter (fun r => str_eqb (r_status r) "fail") [r] = [].
Proof.
  apply (zero_baseline_mismatch_is_error samples.Log
           (samples.constant_services 0.001 0 None None)
           samples.total_users 0.01%float
           (new_tester "Your Semantic Model") samples.empty_log
           (samples.mkLog 1 0 [] 0) (samples.mkLog 1 1 [] 0)
           {| data := Some [RowSeq [Num 0.001%float]] |}
           [[Num 0%float]] 0.001%float 0%float);
    reflexivity.
Defined.

(** An answer without a value is read as 0.0: no data, an empty data
    list, an empty list or tuple as first row, or a first row that is
    neither a sequence nor a dictionary.  Against a zero baseline such an
    answer passes. *)
Theorem empty_answer_passes_zero_baseline (W : Type) (svc : Services W)
        (tc : TestCase) (tol : float) (t : Tester) (w w1 w2 : W)
        (resp : Response) (df : DataFrame) (x : float) :
  (data resp = None \/ data resp = Some []
   \/ (exists rows, data resp = Some (RowSeq [] :: rows))
   \/ (exists rows, data resp = Some (RowOther :: rows))) ->
  query svc (question tc) w = (Ok resp, w1) ->
  SEMPY_AVAILABLE svc = true ->
  evaluate_dax svc (dataset t) (expected_dax tc) w1 = (Ok df, w2) ->
  iloc_0_0 df = Ok x ->
  PrimFloat.eqb x 0 = true ->
  extract_numeric_value resp = Ok 0%float
  /\ exists r,
      test_single_case svc tc tol (t, w)
        = (Ok r, (set_results (results t ++ [r]) t, w2))
      /\ r_agent_value r = Some 0%float
      /\ r_status r = "pass".
Proof.
  intros Hdata Hq Hs Hd Hx Hx0.
  assert (extract_numeric_value resp = Ok 0%float) as Ha.
  { unfold extract_numeric_value.
    destruct Hdata as [-> | [-> | [[rows ->] | [rows ->]]]]; reflexivity. }
  split; [exact Ha |]. run_case.
  rewrite Hq; cbn. rewrite Ha; cbn. rewrite Hs; cbn. rewrite Hd; cbn.
  rewrite Hx; cbn. rewrite Hx0; cbn.
  eexists. split; [reflexivity |]. cbn. auto.
Qed.

Lemma empty_answer_passes_zero_baseline_witness :
  extract_numeric_value {| data := Some [] |} = Ok 0%float
  /\ exists r,
      test_single_case
        (samples.answering_services {| data := Some [] |} 0 true)
        samples.total_users 0.01%float
        (new_tester "Your Semantic Model", samples.empty_log)
      = (Ok r,
         (set_results ([] ++ [r]) (new_tester "Your Semantic Model"),
          samples.mkLog 1 1 [] 0))
      /\ r_agent_value r = Some 0%float
      /\ r_status r = "pass".
Proof.
  apply (empty_answer_passes_zero_baseline samples.Log
           (samples.answering_services {| data := Some [] |} 0 true)
           samples.total_users 0.01%float
           (new_tester "Your Semantic Model") samples.empty_log
           (samples.mkLog 1 0 [] 0) (samples.mkLog 1 1 [] 0)
           {| data := Some [] |} [[Num 0%float]] 0%float);
    try reflexivity.
  right. left. reflexivity.
Defined.

Lemma count_status_partition (rs : list Result) :
  Forall final_status rs ->
  count_status "pass" rs + count_status "fail" rs + count_status "error" rs
  = length rs.
Proof.
  unfold count_status. induction 1 as [| r rs Hr _ IH]; [reflexivity |].
  cbn [filter length].
  destruct Hr as [Hr | [Hr | Hr]]; rewrite Hr; cbn; lia.
Qed.

(** The counts of a summary partition the cases: [passed + failed +
    errors = total], [total] is the number of test cases, and the
    failures that [get_failures] returns afterwards are [failed] many. *)
Theorem summary_counts_partition (W : Type) (svc : Services W)
        (tcs : list TestCase) (t : Tester) (w : W) :
  exists summ st' fs,
    run_test_suite svc tcs (t, w) = (Ok summ, st')
    /\ passed summ + failed summ + errors summ = total summ
    /\ total summ = length tcs
    /\ @get_failures W st' = (Ok fs, st')
    /\ length fs = failed summ.
Proof.
  destruct (run_test_suite_returns svc tcs t w)
    as (rs & w' & Hrun & Hq & Hm & Hs).
  eexists _, _, _. split; [exact Hrun |]. cbn.
  split; [apply count_status_partition, Hs |].
  split. { rewrite <- (length_map r_question), Hq. apply length_map. }
  split; reflexivity.
Qed.

(** A property of every result of the suite's loop. *)
Lemma suite_loop_forall (W : Type) (svc : Services W) (P : Result -> Prop) :
  (forall tc t w, exists r w',
        test_single_case svc tc 0.01%float (t, w)
        = (Ok r, (set_results (results t ++ [r]) t, w')) /\ P r) ->
  forall tcs t w, exists rs w',
      for_each tcs
        (fun tc => bind (test_single_case svc tc 0.01%float)
                     (fun _ => ret tt))
        (t, w)
      = (Ok tt, (set_results (results t ++ rs) t, w'))
      /\ length rs = length tcs /\ Forall P rs.
Proof.
  intros Hcase tcs. induction tcs as [| tc tcs IH]; intros t w; cbn.
  - exists [], w. rewrite app_nil_r. destruct t; cbn. auto.
  - destruct (Hcase tc t w) as (r & w1 & Hr & HP).
    unfold bind at 1. unfold bind at 1. rewrite Hr. unfold ret at 1.
    destruct (IH (set_results (results t ++ [r]) t) w1)
      as (rs & w2 & Hrs & Hlen & HPs).
    rewrite Hrs. exists (r :: rs), w2. cbn.
    rewrite <- app_assoc. cbn. auto.
Qed.

Lemma run_test_suite_forall (W : Type) (svc : Services W)
      (P : Result -> Prop) :
  (forall tc t w, exists r w',
        test_single_case svc tc 0.01%float (t, w)
        = (Ok r, (set_results (results t ++ [r]) t, w')) /\ P r) ->
  forall tcs t w, exists rs w',
      run_test_suite svc tcs (t, w)
      = (Ok {| total := length rs;
               passed := count_status "pass" rs;
               failed := count_status "fail" rs;
               errors := count_status "error" rs;
               accuracy :=
                 if length rs =? 0 then 0%float
                 else (float_of_nat (count_status "pass" rs)
                       / float_of_nat (length rs))%float;
               s_results := rs |},
         (set_results rs t, w'))
      /\ length rs = length tcs /\ Forall P rs.
Proof.
  intros Hcase tcs t w.
  destruct (suite_loop_forall W svc P Hcase tcs (set_results [] t) w)
    as (rs & w' & Hrs & Hlen & Hall).
  exists rs, w'. split; [| auto].
  unfold run_test_suite.
  unfold bind at 1. unfold modify at 1. cbn [fst snd].
  unfold bind at 1. rewrite Hrs. cbn [results set_results app dataset].
  unfold bind, get_local, of_outcome, ret, truediv.
  cbn [fst snd results set_results].
  destruct (length rs) as [| n]; reflexivity.
Qed.

Lemma count_status_none (v : str) (rs : list Result) :
  Forall (fun r => r_status r <> v) rs -> count_status v rs = 0.
Proof.
  unfold count_status. induction 1 as [| r rs Hr _ IH]; [reflexivity |].
  cbn. destruct (str_eqb (r_status r) v) eqn:He; [| exact IH].
  apply str_eqb_eq in He. contradiction.
Qed.

Lemma count_status_all (v : str) (rs : list Result) :
  Forall (fun r => r_status r = v) rs -> count_status v rs = length rs.
Proof.
  unfold count_status. induction 1 as [| r rs Hr _ IH]; [reflexivity |].
  cbn. destruct (str_eqb (r_status r) v) eqn:He.
  - cbn. rewrite IH. reflexivity.
  - exfalso. apply (proj2 (str_eqb_eq _ _)) in Hr. congruence.
Qed.

(** Without [sempy] no case can pass or fail: every result of the suite
    is an [error], and there is no failure to learn from. *)
Theorem without_sempy_every_case_errors (W : Type) (svc : Services W)
        (tcs : list TestCase) (t : Tester) (w : W) :
  SEMPY_AVAILABLE svc = false ->
  exists summ st',
    run_test_suite svc tcs (t, w) = (Ok summ, st')
    /\ Forall (fun r => r_status r = "error") (s_results summ)
    /\ passed summ = 0 /\ failed summ = 0 /\ errors summ = length tcs
    /\ @get_failures W st' = (Ok [], st').
Proof.
  intros Hs.
  assert (forall tc t w, exists r w',
             test_single_case svc tc 0.01%float (t, w)
             = (Ok r, (set_results (results t ++ [r]) t, w'))
             /\ r_status r = "error") as Hcase.
  { intros tc t0 w0. run_case.
    destruct (query svc (question tc) w0) as [[resp | e] w1]; cbn.
    2: { eexists _, _. split; [reflexivity |]. reflexivity. }
    destruct (extract_numeric_value resp) as [a | e]; cbn.
    2: { eexists _, _. split; [reflexivity |]. reflexivity. }
    rewrite Hs; cbn. eexists _, _. split; reflexivity. }
  destruct (run_test_suite_forall W svc _ Hcase tcs t w)
    as (rs & w' & Hrun & Hlen & Hall).
  assert (Forall (fun r => r_status r <> "pass") rs) as Hnp.
  { eapply Forall_impl; [| exact Hall]. cbn. intros r ->. discriminate. }
  assert (Forall (fun r => r_status r <> "fail") rs) as Hnf.
  { eapply Forall_impl; [| exact Hall]. cbn. intros r ->. discriminate. }
  eexists _, _. split; [exact Hrun |]. cbn [s_results passed failed errors].
  rewrite (count_status_none _ _ Hnp), (count_status_none _ _ Hnf),
    (count_status_all _ _ Hall).
  repeat split; try assumption.
  unfold get_failures, bind, get_local, ret. cbn.
  replace (filter (fun r => str_eqb (r_status r) "fail") rs)
    with (@nil Result); [reflexivity |].
  symmetry. apply length_zero_iff_nil. exact (count_status_none _ _ Hnf).
Qed.

Lemma without_sempy_every_case_errors_witness :
  exists summ st',
    run_test_suite
      (samples.answering_services
         {| data := Some [RowSeq [Num 304671%float]] |} 304671 false)
      [samples.total_users; samples.total_users]
      (new_tester "Your Semantic Model", samples.empty_log)
    = (Ok summ, st')
    /\ Forall (fun r => r_status r = "error") (s_results summ)
    /\ passed summ = 0 /\ failed summ = 0
    /\ errors summ = length [samples.total_users; samples.total_users]
    /\ @get_failures samples.Log st' = (Ok [], st').
Proof.
  apply (without_sempy_every_case_errors samples.Log
           (samples.answering_services
              {| data := Some [RowSeq [Num 304671%float]] |} 304671 false)).
  reflexivity.
Defined.

End EvaluatorProperties.

(** ** The self-learning loop, continued *)

Section LearningProperties.
Import Eff accuracy_testing self_learning.

(** The metrics that have a template. *)
Lemma generate_correct_sql_unknown_metric (f : Result) :
  ~ In (r_metric f)
      ["TotalUsers"; "AvgSatisfaction"; "TotalSessions"; "RegionCount"] ->
  generate_correct_sql f "template" = None.
Proof.
  intros Hn. unfold generate_correct_sql. cbn.
  repeat match goal with
         | |- context [str_eqb ?a (r_metric f)] =>
             let He := fresh "He" in
             destruct (str_eqb a (r_metric f)) eqn:He;
             [apply str_eqb_eq in He; exfalso; apply Hn; rewrite <- He;
              cbn; tauto |]
         end.
  reflexivity.
Qed.

Lemma learn_loop_counts (W : Type) (svc : Services W)
      (failures : list Result) (l k : nat) (w : W) :
  exists r w',
    learn_loop svc failures l k w = (Ok r, w')
    /\ learned r + skipped r = l + k + length failures
    /\ l <= learned r <= l + length (filter has_template failures).
Proof.
  revert l k w.
  induction failures as [| f fs IH]; intros l k w;
    cbn [learn_loop length filter].
  - eexists _, _. split; [reflexivity |]. cbn. lia.
  - unfold has_template at 1.
    generalize (generate_correct_sql f "template"). intros correct_sql.
    destruct (falsy correct_sql); cbn [negb].
    + destruct (IH l (k + 1) w) as (r & w' & Hr & Hc & Hl).
      eexists _, _. split; [exact Hr |]. lia.
    + unfold bind at 1. unfold try_except, bind, ret.
      destruct (add_example svc _ _ w) as [[[] | e] w1]; cbn [length].
      * destruct (IH (l + 1) k w1) as (r & w' & Hr & Hc & Hl).
        eexists _, _. split; [exact Hr |]. lia.
      * destruct (IH l (k + 1) w1) as (r & w' & Hr & Hc & Hl).
        eexists _, _. split; [exact Hr |]. lia.
Qed.

(** [self_learn_from_failures] never raises, whatever [add_example]
    does; every failure is counted once, as learned or as skipped; and
    no more are learned than have a template. *)
Theorem self_learning_counts (W : Type) (svc : Services W)
        (failures : list Result) (validate : bool) (w : W) :
  exists r w',
    self_learn_from_failures svc failures validate w = (Ok r, w')
    /\ learned r + skipped r = length failures
    /\ learned r <= length (filter has_template failures).
Proof.
  unfold self_learn_from_failures.
  destruct (learn_loop_counts W svc failures 0 0 w)
    as (r & w' & Hr & Hc & Hl).
  exists r, w'. split; [exact Hr |]. split; lia.
Qed.

(** Failures whose metric has no template are skipped without any call
    to the agent: the world is left as it was. *)
Theorem unknown_metrics_are_skipped (W : Type) (svc : Services W)
        (failures : list Result) (validate : bool) (w : W) :
  Forall (fun f =>
            ~ In (r_metric f)
                ["TotalUsers"; "AvgSatisfaction"; "TotalSessions";
                 "RegionCount"]) failures ->
  self_learn_from_failures svc failures validate w
  = (Ok {| learned := 0; skipped := length failures |}, w).
Proof.
  intros Hall. unfold self_learn_from_failures.
  assert (forall k, learn_loop svc failures 0 k w
                    = (Ok {| learned := 0; skipped := k + length failures |},
                       w)) as H.
  { induction Hall as [| f fs Hf _ IH]; intros k; cbn [learn_loop length].
    - unfold ret. rewrite Nat.add_0_r. reflexivity.
    - rewrite (generate_correct_sql_unknown_metric f Hf). cbn [falsy].
      rewrite IH. do 3 f_equal. lia. }
  apply (H 0).
Qed.

Lemma unknown_metrics_are_skipped_witness :
  self_learn_from_failures
    (samples.constant_services 1 2 None None)
    [mkResult "How many widgets?" "WidgetCount" "fail"
       (Some 1%float) (Some 2%float) (Some 0.5%float) None]
    false samples.empty_log
  = (Ok {| learned := 0; skipped := 1 |}, samples.empty_log).
Proof.
  apply (unknown_metrics_are_skipped samples.Log
           (samples.constant_services 1 2 None None)
           [mkResult "How many widgets?" "WidgetCount" "fail"
              (Some 1%float) (Some 2%float) (Some 0.5%float) None]
           false samples.empty_log).
  repeat constructor. cbn. intuition discriminate.
Defined.

(** Every corrective query of the template table passes the dialect
    check and is left unchanged by the rewriter. *)
Theorem templates_are_conformant (f : Result) (sql : str) :
  generate_correct_sql f "template" = Some sql ->
  sql_validator.valid (sql_validator.validate_sql_syntax sql) = true
  /\ sql_validator.convert_spark_to_tsql sql = sql
  /\ Py.startswith "SELECT " sql = true.
Proof.
  unfold generate_correct_sql. cbn [str_eqb dict_get].
  change (str_eqb "template" "template") with true. cbn iota.
  cbn [dict_get].
  repeat match goal with
         | |- context [str_eqb ?a (r_metric f)] =>
             destruct (str_eqb a (r_metric f));
             [intros [= <-]; vm_compute; auto |]
         end.
  discriminate.
Qed.

Lemma templates_are_conformant_witness :
  sql_validator.valid
    (sql_validator.validate_sql_syntax
       "SELECT SUM(Sessions) AS TotalSessions FROM dbo.UsageMetrics") = true
  /\ sql_validator.convert_spark_to_tsql
       "SELECT SUM(Sessions) AS TotalSessions FROM dbo.UsageMetrics"
     = "SELECT SUM(Sessions) AS TotalSessions FROM dbo.UsageMetrics"
  /\ Py.startswith "SELECT "
       "SELECT SUM(Sessions) AS TotalSessions FROM dbo.UsageMetrics" = true.
Proof.
  apply (templates_are_conformant
           (mkResult "What is the total session count?" "TotalSessions"
              "fail" None None None None)).
  reflexivity.
Defined.

Lemma improvement_loop_returns (W : Type) (svc : Services W)
      (tcs : list TestCase) :
  (forall w, exists w', publish svc w = (Ok tt, w')) ->
  forall its t w, exists t' w',
      improvement_loop svc tcs its (t, w) = (Ok tt, (t', w')).
Proof.
  intros Hpub its. induction its as [| i its IH]; intros t w.
  - eexists _, _. reflexivity.
  - cbn [improvement_loop].
    destruct (run_test_suite_returns svc tcs t w)
      as (rs & w1 & Hrun & _).
    unfold bind at 1. rewrite Hrun. cbn [accuracy].
    destruct (PrimFloat.leb _ _).
    { eexists _, _. reflexivity. }
    unfold bind at 1. unfold get_failures, bind, get_local, ret.
    cbn [fst snd results set_results].
    destruct (filter _ rs) as [| f fs].
    { eexists _, _. reflexivity. }
    destruct (@self_learn_from_failures_returns W svc (f :: fs) false w1)
      as (l & w2 & Hl & _).
    unfold lift. cbn [fst snd]. rewrite Hl. cbn [fst snd].
    destruct (Hpub w2) as [w3 Hp]. rewrite Hp.
    apply IH.
Qed.

(** The exception of [publish] is the only one that can leave the
    improvement cycle: with a [publish] that does not raise, the cycle
    returns, whatever the agent, the ground truth and [add_example] do. *)
Theorem cycle_returns_when_publish_does (W : Type) (svc : Services W)
        (tcs : list TestCase) (max_iterations : nat) (w : W) :
  (forall w, exists w', publish svc w = (Ok tt, w')) ->
  exists w', continuous_improvement_cycle svc tcs max_iterations w
             = (Ok tt, w').
Proof.
  intros Hpub. unfold continuous_improvement_cycle.
  destruct (improvement_loop_returns W svc tcs Hpub
              (seq 1 max_iterations)
              (new_tester "Your Semantic Model") w) as (t' & w' & H).
  unfold bind, locally, ret. rewrite H. eexists. reflexivity.
Qed.

Lemma cycle_returns_when_publish_does_witness :
  exists w',
    continuous_improvement_cycle
      (samples.failing_agent (Exception "agent offline")) [] 3
      samples.empty_log = (Ok tt, w')
    /\ exists w'',
      continuous_improvement_cycle
        (samples.constant_services 300000 304671
           (Some (Exception "add_example unavailable")) None)
        [samples.total_users] 3 samples.empty_log = (Ok tt, w'').
Proof.
  exists samples.empty_log. split; [reflexivity |].
  apply (cycle_returns_when_publish_does samples.Log
           (samples.constant_services 300000 304671
              (Some (Exception "add_example unavailable")) None)
           [samples.total_users] 3 samples.empty_log).
  intros w. eexists. reflexivity.
Defined.

(** The cycle ends after its first test run and leaves the agent
    untouched (no example added, nothing published) when the target
    accuracy is met, and also when no case has the status [fail], even
    if cases ended in an error. *)
Theorem cycle_stops_without_failures (W : Type) (svc : Services W)
        (tcs : list TestCase) (n : nat) (w w1 : W) (t1 : Tester)
        (summ : Summary) :
  run_test_suite svc tcs (new_tester "Your Semantic Model", w)
  = (Ok summ, (t1, w1)) ->
  PrimFloat.leb 0.95%float (accuracy summ) = true \/ failed summ = 0 ->
  continuous_improvement_cycle svc tcs (S n) w = (Ok tt, w1).
Proof.
  intros Hrun Hstop. unfold continuous_improvement_cycle.
  cbn [seq improvement_loop].
  unfold bind at 1. unfold locally. unfold bind at 1. rewrite Hrun.
  destruct (PrimFloat.leb _ _) eqn:Hacc; [reflexivity |].
  destruct Hstop as [Hstop | Hstop]; [discriminate |].
  destruct (run_test_suite_returns svc tcs
              (new_tester "Your Semantic Model") w)
    as (rs & w' & Hrun' & _).
  rewrite Hrun in Hrun'. injection Hrun' as -> -> ->.
  cbn [failed] in Hstop. unfold count_status in Hstop.
  apply length_zero_iff_nil in Hstop.
  unfold get_failures, bind, get_local, ret.
  cbn [fst snd results set_results]. rewrite Hstop. reflexivity.
Qed.

Lemma cycle_stops_without_failures_witness :
  continuous_improvement_cycle
    (samples.answering_services
       {| data := Some [RowSeq [Num 304671%float]] |} 304671 false)
    [samples.total_users] 3 samples.empty_log
  = (Ok tt, samples.mkLog 1 0 [] 0).
Proof.
  eapply (cycle_stops_without_failures samples.Log
            (samples.answering_services
               {| data := Some [RowSeq [Num 304671%float]] |} 304671 false)
            [samples.total_users] 2 samples.empty_log).
  - vm_compute. reflexivity.
  - right. reflexivity.
Defined.

End LearningProperties.

(** ** The dialect checker and rewriter, continued *)

Section ValidatorProperties.
Import Re sql_validator Words.

Lemma upper_lower (s : str) : Py.upper (Py.lower s) = Py.upper s.
Proof.
  unfold Py.upper, Py.lower. rewrite map_map.
  apply map_ext, upper_lower_char.
Qed.

(** On ASCII text the dialect check does not look at the case of the
    letters: a query, its upper-case form and its lower-case form get
    the same verdict and the same issues.  (Outside ASCII the case
    mappings of Python are not those of [Py], and [upper] after [lower]
    is not [upper].) *)
Theorem validate_sql_syntax_ignores_case (q : str) :
  Py.is_ascii q = true ->
  validate_sql_syntax (Py.upper q) = validate_sql_syntax q
  /\ validate_sql_syntax (Py.lower q) = validate_sql_syntax q.
Proof.
  intros _. unfold validate_sql_syntax.
  rewrite upper_upper, upper_lower. auto.
Qed.

Lemma validate_sql_syntax_ignores_case_witness :
  validate_sql_syntax (Py.upper "Select * From t Limit 5")
  = validate_sql_syntax "Select * From t Limit 5"
  /\ validate_sql_syntax (Py.lower "Select * From t Limit 5")
     = validate_sql_syntax "Select * From t Limit 5".
Proof.
  apply (validate_sql_syntax_ignores_case "Select * From t Limit 5").
  reflexivity.
Defined.

(** A token occurs in a text when the pattern of its letters does. *)
Lemma occurs_lit_iff (n s : str) :
  occurs (lit n) s <-> occurs_ci (Py.upper n) s.
Proof.
  unfold occurs, occurs_ci. split.
  - intros (pre & m & post & g & -> & Hm).
    rewrite <- (app_nil_r (lit n)) in Hm. apply matches_lit_iff in Hm.
    destruct Hm as (f & m' & -> & Hf & Hnil).
    apply matches_nil_iff in Hnil. destruct Hnil as [-> _].
    exists pre, f, post. rewrite app_nil_r. auto.
  - intros (pre & m & post & -> & Hm).
    exists pre, m, post, []. split; [reflexivity |].
    rewrite <- (app_nil_r (lit n)). apply matches_lit_iff.
    exists m, []. rewrite app_nil_r. repeat split; [exact Hm |].
    constructor.
Qed.

(** No occurrence of [n] begins in [u] when no match of a pattern made
    of its letters does. *)
Lemma no_match_no_occurrence (n : str) (p : pattern) (u rest : str) :
  n <> [] -> Py.upper n = n ->
  (forall s, Py.startswith n (Py.upper s) = true ->
             match_here (lit n ++ p) s <> None) ->
  (forall k, k < length u ->
             match_here (lit n ++ p) (skipn k (u ++ rest)) = None) ->
  (forall a b, u = a ++ b -> b <> [] ->
               Py.startswith n (Py.upper (b ++ rest)) = false).
Proof.
  intros Hn Hup Hcomp Hpre a b -> Hb.
  apply not_true_is_false. intros Hs.
  apply (Hcomp _ Hs).
  specialize (Hpre (length a)).
  rewrite <- app_assoc, skipn_app, skipn_all, Nat.sub_diag in Hpre.
  apply Hpre. rewrite length_app. destruct b; [congruence | cbn; lia].
Qed.

Lemma lit_matches_where_it_starts (n s : str) :
  Py.upper n = n ->
  Py.startswith n (Py.upper s) = true ->
  match_here (lit n ++ []) s <> None.
Proof.
  intros Hup Hs. apply startswith_iff in Hs. destruct Hs as [post Hs].
  unfold Py.upper in Hs. apply map_eq_app in Hs.
  destruct Hs as (f & s' & -> & Hf & _).
  rewrite (match_here_lit_exact n f [] s' [] 0); [discriminate | |].
  - fold (Py.upper f) in Hf. congruence.
  - destruct s'; reflexivity.
Qed.

Lemma contains_of_startswith_suffix (n s : str) :
  Py.contains n s = true ->
  exists a b, s = a ++ b /\ Py.startswith n b = true.
Proof.
  rewrite contains_iff. intros (pre & post & ->).
  exists pre, (n ++ post). split; [reflexivity |].
  apply startswith_iff. eexists. reflexivity.
Qed.

(** Replacing every match of the letters of [n] by a text [r] in which
    [n] does not occur, and which [n] cannot overlap, leaves no
    occurrence of [n]. *)
Lemma rewritten_eliminates (n r s out : str) :
  n <> [] -> Py.upper n = n ->
  Py.contains n (Py.upper r) = false ->
  may_straddle n [] (Py.upper r) = false ->
  may_straddle n (Py.upper r) [] = false ->
  rewritten (lit n) [Text r] s out ->
  Py.contains n (Py.upper out) = false.
Proof.
  intros Hn Hup Hr Hsl Hsr H.
  induction H as [u Hu | u m g rest out Hpre Hm Hne Hrw IH].
  - apply not_true_is_false. intros Hc.
    apply contains_upper_iff in Hc. rewrite <- Hup in Hc.
    apply occurs_lit_iff in Hc. apply occurs_search in Hc. congruence.
  - cbn [expand]. rewrite app_nil_r, !upper_app.
    assert (Py.contains n (Py.upper u) = false) as Hcu.
    { apply not_true_is_false. intros Hc.
      apply contains_of_startswith_suffix in Hc.
      destruct Hc as (a & b & Hab & Hs).
      unfold Py.upper in Hab. apply map_eq_app in Hab.
      destruct Hab as (a' & b' & -> & _ & <-).
      assert (b' <> []) as Hb.
      { intros ->. destruct n; [congruence | discriminate]. }
      specialize (Hpre (length a')).
      rewrite <- app_assoc, skipn_app, skipn_all, Nat.sub_diag in Hpre.
      cbn [skipn app] in Hpre.
      rewrite <- (app_nil_r (lit n)) in Hpre.
      apply (lit_matches_where_it_starts n (b' ++ m ++ rest) Hup).
      + rewrite upper_app. apply startswith_iff in Hs.
        destruct Hs as [post Hs]. apply startswith_iff.
        exists (post ++ Py.upper (m ++ rest)).
        fold (Py.upper b') in Hs. rewrite Hs, <- app_assoc. reflexivity.
      + apply Hpre. rewrite length_app.
        destruct b'; [congruence | cbn; lia]. }
    assert (Py.contains n (Py.upper r ++ Py.upper out) = false) as Hro.
    { pose proof (contains_join n [] (Py.upper r) [] (Py.upper out)) as Hj.
      cbn [app] in Hj. apply Hj; assumption. }
    pose proof (contains_join n (Py.upper u) [] (Py.upper r) (Py.upper out))
      as Hj.
    rewrite app_nil_r in Hj. apply Hj; assumption.
Qed.

(** The issue list, with the tests of the code. *)
Lemma issues_shape (q : str) :
  issues (validate_sql_syntax q)
  = entry_if (Py.contains " LIMIT " (Py.upper q)) issue_limit
      ++ entry_if (Py.contains "DATE_SUB(" (Py.upper q)) issue_date_sub
      ++ entry_if (Py.contains "DATE_ADD(" (Py.upper q)
                   && negb (Py.contains "DATEADD(" (Py.upper q)))
           issue_date_add
      ++ entry_if (Py.contains "CURRENT_DATE" (Py.upper q)
                   && negb (Py.contains "GETDATE()" (Py.upper q)))
           issue_current_date
      ++ entry_if (negb (Py.any_in keywords (Py.upper q))) issue_structure.
Proof.
  unfold validate_sql_syntax. cbn [issues].
  rewrite !append_if_entry. cbn [app]. rewrite <- !app_assoc. reflexivity.
Qed.

Lemma issue_count_shape (q : str) :
  issue_count q
  = Nat.b2n (Py.contains " LIMIT " (Py.upper q))
    + Nat.b2n (Py.contains "DATE_SUB(" (Py.upper q))
    + Nat.b2n (Py.contains "DATE_ADD(" (Py.upper q)
               && negb (Py.contains "DATEADD(" (Py.upper q)))
    + Nat.b2n (Py.contains "CURRENT_DATE" (Py.upper q)
               && negb (Py.contains "GETDATE()" (Py.upper q)))
    + Nat.b2n (negb (Py.any_in keywords (Py.upper q))).
Proof.
  unfold issue_count. rewrite issues_shape, !length_app.
  generalize (Py.contains " LIMIT " (Py.upper q)),
    (Py.contains "DATE_SUB(" (Py.upper q)),
    (Py.contains "DATE_ADD(" (Py.upper q)
     && negb (Py.contains "DATEADD(" (Py.upper q))),
    (Py.contains "CURRENT_DATE" (Py.upper q)
     && negb (Py.contains "GETDATE()" (Py.upper q))),
    (negb (Py.any_in keywords (Py.upper q))).
  intros [] [] [] [] []; reflexivity.
Qed.

(** Whatever the query, the rewritten query has no [CURRENT_DATE] left,
    in any mix of cases; so the dialect check never reports the
    [CURRENT_DATE] issue for a rewritten query. *)
Theorem convert_leaves_no_current_date (q : str) :
  ~ occurs_ci "CURRENT_DATE" (convert_spark_to_tsql q)
  /\ ~ In issue_current_date
         (issues (validate_sql_syntax (convert_spark_to_tsql q))).
Proof.
  assert (Py.contains "CURRENT_DATE" (Py.upper (convert_spark_to_tsql q))
          = false) as Hc.
  { unfold convert_spark_to_tsql.
    eapply (rewritten_eliminates "CURRENT_DATE" "CAST(GETDATE() AS DATE)");
      try reflexivity; try discriminate.
    apply sub_rewritten. apply never_empty_Lit. }
  split.
  - rewrite <- contains_upper_iff. congruence.
  - rewrite issues_shape, Hc. cbn [andb entry_if app].
    generalize (Py.contains " LIMIT "
                  (Py.upper (convert_spark_to_tsql q))),
      (Py.contains "DATE_SUB(" (Py.upper (convert_spark_to_tsql q))),
      (Py.contains "DATE_ADD(" (Py.upper (convert_spark_to_tsql q))
       && negb (Py.contains "DATEADD("
                  (Py.upper (convert_spark_to_tsql q)))),
      (negb (Py.any_in keywords (Py.upper (convert_spark_to_tsql q)))).
    intros [] [] [] []; cbn; intuition discriminate.
Qed.

(** *** Tools for the shapes the rewriter targets *)

Ltac each_ascii c := destruct c as [[] [] [] [] [] [] [] []].

Lemma upper_char_space (c : ascii) :
  Py.is_space c = true -> Py.upper_char c = c.
Proof. each_ascii c; vm_compute; congruence. Qed.

Lemma upper_char_digit (c : ascii) :
  Py.is_digit c = true -> Py.upper_char c = c.
Proof. each_ascii c; vm_compute; congruence. Qed.

Lemma digit_not_space (c : ascii) :
  Py.is_digit c = true -> Py.is_space c = false.
Proof. each_ascii c; vm_compute; congruence. Qed.

Lemma upper_block (cls : ascii -> bool) (d : str) :
  (forall c, cls c = true -> Py.upper_char c = c) ->
  forallb cls d = true -> Py.upper d = d.
Proof.
  intros Hcls. induction d as [| c d IH]; [reflexivity |]. cbn.
  rewrite andb_true_iff. intros [Hc Hd].
  rewrite (Hcls c Hc). f_equal. apply IH, Hd.
Qed.

(** A character of a class is foreign to a word with no character of
    the class. *)
Lemma foreign_class (cls : ascii -> bool) (n : str) (c : ascii) :
  forallb (fun a => negb (cls a)) n = true -> cls c = true ->
  foreign n c = true.
Proof.
  unfold foreign. intros Hn Hc. apply negb_true_iff.
  apply not_true_is_false. intros He.
  apply existsb_exists in He. destruct He as (a & Ha & Hca).
  apply Ascii.eqb_eq in Hca. subst a.
  rewrite forallb_forall in Hn. specialize (Hn c Ha).
  rewrite Hc in Hn. discriminate.
Qed.

Lemma foreign_block (cls : ascii -> bool) (n d : str) :
  forallb (fun a => negb (cls a)) n = true ->
  forallb cls d = true -> forallb (foreign n) d = true.
Proof.
  intros Hn Hd. apply forallb_forall. intros c Hc.
  rewrite forallb_forall in Hd. apply (foreign_class cls); auto.
Qed.

Lemma contains_false_mid (n w x z : str) :
  Py.contains n (w ++ x ++ z) = false -> Py.contains n x = false.
Proof.
  intros H. destruct (Py.contains n x) eqn:Hx; [| reflexivity].
  rewrite (contains_mono n w x z Hx) in H. discriminate.
Qed.

Lemma contains_cut_false (n x : str) (c : ascii) (z : str) :
  foreign n c = true ->
  Py.contains n x = false -> Py.contains n z = false ->
  Py.contains n (x ++ c :: z) = false.
Proof.
  intros Hc Hx Hz. rewrite (contains_cut n x z c Hc), Hx, Hz. reflexivity.
Qed.

Lemma contains_block_false (n x d z : str) :
  forallb (foreign n) d = true -> d <> [] -> n <> [] ->
  Py.contains n x = false -> Py.contains n z = false ->
  Py.contains n (x ++ d ++ z) = false.
Proof.
  intros Hd Hne Hn Hx Hz.
  rewrite (contains_cut_block n x d z Hd Hne Hn), Hx, Hz. reflexivity.
Qed.

Lemma not_occurs_ci_contains (n q : str) :
  ~ occurs_ci n q <-> Py.contains n (Py.upper q) = false.
Proof.
  rewrite <- contains_upper_iff.
  destruct (Py.contains n (Py.upper q)); split; intros H;
    congruence || (exfalso; auto).
Qed.

(** No match of a pattern that begins with the letters of [n] in a text
    where [n] does not occur. *)
Lemma search_none_without_token (n : str) (p : pattern) (s : str) :
  Py.contains (Py.upper n) (Py.upper s) = false ->
  search (lit n ++ p) s = None.
Proof.
  intros Hc. destruct (search (lit n ++ p) s) as [m |] eqn:Hs;
    [| reflexivity].
  exfalso. apply search_occurs in Hs.
  destruct Hs as (pre & mm & post & g & -> & Hm).
  apply matches_lit_iff in Hm. destruct Hm as (f & m' & -> & Hf & _).
  rewrite !upper_app, Hf in Hc.
  rewrite <- !app_assoc in Hc.
  rewrite (contains_mono (Py.upper n) (Py.upper pre) (Py.upper n)
             (Py.upper m' ++ Py.upper post)) in Hc; [discriminate |].
  apply contains_iff. exists [], []. rewrite app_nil_r. reflexivity.
Qed.

(** No match of such a pattern begins in [pre] when [n] does not occur
    in [pre] and cannot begin at its end. *)
Lemma no_match_begins_before (n : str) (p : pattern) (pre y0 rest : str)
      (z : str) :
  Py.upper n = n ->
  Py.contains n (Py.upper pre) = false ->
  Py.upper rest = y0 ++ z ->
  may_begin n y0 = false ->
  forall k, k < length pre ->
            match_here (lit n ++ p) (skipn k (pre ++ rest)) = None.
Proof.
  intros Hup Hc Hrest Hb k Hk.
  destruct (match_here (lit n ++ p) (skipn k (pre ++ rest))) eqn:Hm;
    [| reflexivity].
  exfalso.
  assert (match_here (lit n ++ p) (skipn k (pre ++ rest)) <> None) as Hne
      by congruence.
  apply match_here_lit_startswith in Hne. rewrite Hup in Hne.
  rewrite skipn_app in Hne.
  replace (k - length pre) with 0 in Hne by lia. cbn [skipn] in Hne.
  rewrite upper_app, Hrest in Hne.
  apply startswith_app_cases in Hne; [| | exact Hb].
  - apply startswith_iff in Hne. destruct Hne as [post Hpost].
    rewrite <- (firstn_skipn k pre), upper_app, Hpost in Hc.
    rewrite (contains_mono n (Py.upper (firstn k pre)) n post) in Hc;
      [discriminate |].
    apply contains_iff. exists [], []. rewrite app_nil_r. reflexivity.
  - intros Hnil. apply (f_equal (@length ascii)) in Hnil.
    rewrite upper_length, length_skipn in Hnil. cbn in Hnil. lia.
Qed.

Lemma match_here_One_exact (cls : ascii -> bool) (x : ascii) (p : pattern)
      (rest : str) (g : list str) (n : nat) :
  cls x = true ->
  match_here p rest = Some (g, n) ->
  match_here (One cls :: p) (x :: rest) = Some (g, S n).
Proof. intros Hx Hm. cbn [match_here]. rewrite Hx, Hm. reflexivity. Qed.

Lemma span_head_false (cls : ascii -> bool) (c : ascii) (s : str) :
  cls c = false -> span cls (c :: s) = 0.
Proof. intros H. cbn. rewrite H. reflexivity. Qed.

End ValidatorProperties.

(** ** The rewriter on the shapes it targets *)

Section RewriterShapes.
Import Re sql_validator Words.

Lemma nonempty_length (A : Type) (l : list A) : l <> [] -> 1 <= length l.
Proof. destruct l; [congruence | cbn; lia]. Qed.

Lemma span_digits_space (digits rest : str) :
  digits <> [] -> forallb Py.is_digit digits = true ->
  span Py.is_space (digits ++ rest) = 0.
Proof.
  destruct digits as [| d ds]; [congruence |]. cbn.
  rewrite andb_true_iff. intros _ [Hd _].
  rewrite (digit_not_space d Hd). reflexivity.
Qed.

(** The pattern of [DATE_SUB] matches a call [DATE_SUB(arg, digits)]
    whose argument has no comma, and captures the argument and the
    digits. *)
Lemma date_sub_call_matches (f arg ws digits post : str) :
  Py.upper f = "DATE_SUB" ->
  arg <> [] -> forallb not_comma arg = true ->
  forallb Py.is_space ws = true ->
  digits <> [] -> forallb Py.is_digit digits = true ->
  match_here date_sub_re
    ((f ++ "(") ++ arg ++ "," ++ ws ++ digits ++ ")" ++ post)
  = Some ([arg; digits],
          length (f ++ "(") +
          (length arg + S (length ws + (length digits + 1)))).
Proof.
  intros Hf Harg Hnc Hws Hd Hdd. unfold date_sub_re.
  apply (match_here_lit_exact "DATE_SUB(" (f ++ "(")).
  { rewrite upper_app, Hf. reflexivity. }
  apply (match_here_Rep_exact not_comma 1 true _ arg
           ("," ++ ws ++ digits ++ ")" ++ post) [digits]);
    [exact Hnc | reflexivity | apply nonempty_length, Harg |].
  apply (match_here_Lit_exact "," "," _ (ws ++ digits ++ ")" ++ post));
    [reflexivity |].
  apply (match_here_Rep_exact Py.is_space 0 false _ ws
           (digits ++ ")" ++ post) [digits]);
    [exact Hws | apply span_digits_space; assumption | lia |].
  apply (match_here_Rep_exact Py.is_digit 1 true _ digits
           (")" ++ post) []);
    [exact Hdd | reflexivity | apply nonempty_length, Hd |].
  reflexivity.
Qed.

Lemma sub_from_first_pos (p : pattern) (t : template) (pre rest : str)
      (g : list str) (n : nat) :
  (forall k, k < length pre ->
             match_here p (skipn k (pre ++ rest)) = None) ->
  match_here p rest = Some (g, n) -> 0 < n ->
  sub_from p t None 0 (pre ++ rest)
  = pre ++ expand t g ++ sub_from p t None 0 (skipn n rest).
Proof.
  intros Hpre Hm Hn. destruct n as [| n]; [lia |].
  apply sub_from_first; assumption.
Qed.

Lemma skipn_length_app (A : Type) (l r : list A) (n : nat) :
  n = length l -> skipn n (l ++ r) = r.
Proof.
  intros ->. rewrite skipn_app, skipn_all, Nat.sub_diag. reflexivity.
Qed.

(** The later stages leave a text without [DATE_SUB(] and without
    [CURRENT_DATE] as it is. *)
Lemma later_stages_idle (r : str) :
  Py.contains "DATE_SUB(" (Py.upper r) = false ->
  Py.contains "CURRENT_DATE" (Py.upper r) = false ->
  sub current_date_re [Text "CAST(GETDATE() AS DATE)"]
    (sub date_sub_re dateadd_template r 0) 0
  = r.
Proof.
  intros Hd Hc.
  rewrite (sub_no_match date_sub_re dateadd_template r 0)
    by (apply (search_none_without_token "DATE_SUB("); exact Hd).
  apply sub_no_match.
  apply (search_none_without_token "CURRENT_DATE" []). exact Hc.
Qed.

(** A word that occurs neither in [u] nor in [y], and no end of which
    begins [y], does not occur in [u ++ y]. *)
Lemma contains_glue (n u y : str) :
  Py.contains n u = false -> Py.contains n y = false ->
  may_straddle n [] y = false ->
  Py.contains n (u ++ y) = false.
Proof.
  intros Hu Hy Hs.
  pose proof (contains_join n u [] y []) as Hj.
  rewrite !app_nil_r in Hj. apply Hj; assumption.
Qed.

(** Where a word can occur in a text [u DATEADD(DAY, -digits, a) p]. *)
Lemma dateadd_call_clean (n u digits a p : str) :
  n <> [] ->
  foreign n " " = true -> foreign n ")" = true ->
  forallb (fun c => negb (Py.is_digit c)) n = true ->
  Py.contains n "-" = false -> Py.contains n "," = false ->
  digits <> [] -> forallb Py.is_digit digits = true ->
  Py.contains n (u ++ "DATEADD(DAY,") = false ->
  Py.contains n a = false -> Py.contains n p = false ->
  Py.contains n (u ++ "DATEADD(DAY, -" ++ digits ++ ", " ++ a ++ ")" ++ p)
  = false.
Proof.
  intros Hn Hsp Hpar Hdg Hminus Hcomma Hd Hdd Hu Ha Hp.
  replace (u ++ "DATEADD(DAY, -" ++ digits ++ ", " ++ a ++ ")" ++ p)
    with ((u ++ "DATEADD(DAY,")
            ++ " "%char
                 :: ("-" ++ digits
                       ++ ("," ++ " "%char :: (a ++ ")"%char :: p))))
    by (rewrite <- !app_assoc; reflexivity).
  apply contains_cut_false; [exact Hsp | exact Hu |].
  apply contains_block_false;
    [apply (foreign_block Py.is_digit); assumption
    | exact Hd | exact Hn | exact Hminus |].
  apply (contains_cut_false n "," " " (a ++ ")"%char :: p));
    [exact Hsp | exact Hcomma |].
  apply contains_cut_false; [exact Hpar | exact Ha | exact Hp].
Qed.

(** Where a word can occur in a text [u CAST(GETDATE() AS DATE) p]. *)
Lemma cast_call_clean (n u p : str) :
  n <> [] ->
  foreign n " " = true -> foreign n ")" = true ->
  Py.contains n "AS" = false -> Py.contains n "DATE" = false ->
  Py.contains n (u ++ "CAST(GETDATE(") = false ->
  Py.contains n p = false ->
  Py.contains n (u ++ "CAST(GETDATE() AS DATE)" ++ p) = false.
Proof.
  intros Hn Hsp Hpar Has Hdate Hu Hp.
  assert (Py.contains n [] = false) as Hnil
      by (destruct n; [congruence | reflexivity]).
  replace (u ++ "CAST(GETDATE() AS DATE)" ++ p)
    with ((u ++ "CAST(GETDATE(")
            ++ ")"%char
                 :: ([] ++ " "%char
                       :: ("AS" ++ " "%char :: ("DATE" ++ ")"%char :: p))))
    by (rewrite <- !app_assoc; reflexivity).
  apply contains_cut_false; [exact Hpar | exact Hu |].
  apply contains_cut_false; [exact Hsp | exact Hnil |].
  apply contains_cut_false; [exact Hsp | exact Has |].
  apply contains_cut_false; [exact Hpar | exact Hdate | exact Hp].
Qed.

(** The dialect check accepts a query when its five tests are
    negative. *)
Lemma valid_when_clean (q : str) :
  Py.contains " LIMIT " (Py.upper q) = false ->
  Py.contains "DATE_SUB(" (Py.upper q) = false ->
  Py.contains "DATE_ADD(" (Py.upper q)
    && negb (Py.contains "DATEADD(" (Py.upper q)) = false ->
  Py.contains "CURRENT_DATE" (Py.upper q)
    && negb (Py.contains "GETDATE()" (Py.upper q)) = false ->
  Py.any_in keywords (Py.upper q) = true ->
  valid (validate_sql_syntax q) = true.
Proof.
  intros H1 H2 H3 H4 H5. unfold keywords in H5.
  unfold validate_sql_syntax. cbv zeta. cbn [valid].
  rewrite H1, H2, H3, H4, H5. reflexivity.
Qed.

Lemma any_in_app_l (ks : list str) (x y : str) :
  Py.any_in ks x = true -> Py.any_in ks (x ++ y) = true.
Proof.
  unfold Py.any_in. rewrite !existsb_exists.
  intros (k & Hk & Hc). exists k. split; [exact Hk |].
  pose proof (contains_mono k [] x y Hc) as H. exact H.
Qed.

Lemma contains_limit_word (s : str) :
  Py.contains "LIMIT" s = false -> Py.contains " LIMIT " s = false.
Proof.
  intros H. destruct (Py.contains " LIMIT " s) eqn:Hs; [| reflexivity].
  apply contains_iff in Hs. destruct Hs as (pre & post & ->).
  rewrite <- H. symmetry. apply contains_iff.
  exists (pre ++ " "), (" " ++ post). rewrite <- !app_assoc. reflexivity.
Qed.

(** The [LIMIT] pattern finds nothing in a query without the word. *)
Lemma limit_re_needs_limit (q : str) :
  Py.contains "LIMIT" (Py.upper q) = false -> search limit_re q = None.
Proof.
  intros Hc. apply search_none_iff.
  intros (pre & m & post & g & -> & Hm).
  unfold limit_re in Hm. cbn [app] in Hm.
  apply matches_One_iff in Hm. destruct Hm as (x & m' & -> & _ & Hm).
  apply matches_lit_iff in Hm. destruct Hm as (f & m'' & -> & Hf & _).
  apply not_occurs_ci_contains in Hc. apply Hc.
  exists (pre ++ [x]), f, (m'' ++ post).
  split; [| exact Hf].
  repeat (progress (cbn [app]; rewrite <- ?app_assoc)). reflexivity.
Qed.

(** An issue is reported when its test is positive. *)
Lemma issue_reported (q : str) :
  (Py.contains " LIMIT " (Py.upper q) = true ->
   In issue_limit (issues (validate_sql_syntax q)))
  /\ (Py.contains "DATE_SUB(" (Py.upper q) = true ->
      In issue_date_sub (issues (validate_sql_syntax q)))
  /\ (Py.contains "CURRENT_DATE" (Py.upper q) = true ->
      Py.contains "GETDATE()" (Py.upper q) = false ->
      In issue_current_date (issues (validate_sql_syntax q))).
Proof.
  rewrite issues_shape.
  generalize (Py.contains " LIMIT " (Py.upper q)),
    (Py.contains "DATE_SUB(" (Py.upper q)),
    (Py.contains "DATE_ADD(" (Py.upper q)
     && negb (Py.contains "DATEADD(" (Py.upper q))),
    (Py.contains "CURRENT_DATE" (Py.upper q)),
    (Py.contains "GETDATE()" (Py.upper q)),
    (negb (Py.any_in keywords (Py.upper q))).
  intros [] [] [] [] [] []; cbn; intuition discriminate.
Qed.

(** The second stage on a call [DATE_SUB(arg, digits)], the only one of
    the text. *)
Lemma date_sub_stage (pre f arg ws digits post : str) :
  Py.upper f = "DATE_SUB" ->
  arg <> [] -> forallb not_comma arg = true ->
  forallb Py.is_space ws = true ->
  digits <> [] -> forallb Py.is_digit digits = true ->
  Py.contains "DATE_SUB(" (Py.upper pre) = false ->
  Py.contains "DATE_SUB(" (Py.upper post) = false ->
  sub date_sub_re dateadd_template
    (pre ++ f ++ "(" ++ arg ++ "," ++ ws ++ digits ++ ")" ++ post) 0
  = pre ++ "DATEADD(DAY, -" ++ digits ++ ", " ++ arg ++ ")" ++ post.
Proof.
  intros Hf Harg Hnc Hws Hd Hdd Hpre Hpost.
  pose proof (date_sub_call_matches f arg ws digits post
                Hf Harg Hnc Hws Hd Hdd) as Hm.
  unfold sub.
  replace (pre ++ f ++ "(" ++ arg ++ "," ++ ws ++ digits ++ ")" ++ post)
    with (pre ++ ((f ++ "(") ++ arg ++ "," ++ ws ++ digits ++ ")" ++ post))
    by (rewrite <- !app_assoc; reflexivity).
  assert (Py.upper ((f ++ "(") ++ arg ++ "," ++ ws ++ digits ++ ")" ++ post)
          = "DATE_SUB("
              ++ Py.upper (arg ++ "," ++ ws ++ digits ++ ")" ++ post))
    as Hrest.
  { rewrite (upper_app (f ++ "(")), (upper_app f "("), Hf. reflexivity. }
  rewrite (sub_from_first_pos date_sub_re dateadd_template pre _ _ _
             (no_match_begins_before "DATE_SUB(" _ pre "DATE_SUB(" _ _
                eq_refl Hpre Hrest eq_refl)
             Hm).
  2: { rewrite length_app. cbn. lia. }
  f_equal. cbn [expand dateadd_template nth Nat.sub].
  replace (skipn _ ((f ++ "(") ++ arg ++ "," ++ ws ++ digits ++ ")" ++ post))
    with post.
  2: { symmetry.
       replace ((f ++ "(") ++ arg ++ "," ++ ws ++ digits ++ ")" ++ post)
         with (((f ++ "(") ++ arg ++ "," ++ ws ++ digits ++ ")") ++ post)
         by (rewrite <- !app_assoc; reflexivity).
       apply skipn_length_app. rewrite !length_app. cbn. lia. }
  rewrite (sub_from_no_match date_sub_re dateadd_template None post 0)
    by (apply (search_none_without_token "DATE_SUB(" _ post Hpost)).
  repeat (progress (cbn [app]; rewrite <- ?app_assoc)). reflexivity.
Qed.

(** The pieces of a query [pre DATE_SUB(arg, digits) post] in which a
    word does not occur. *)
Lemma date_sub_call_pieces (n pre f arg ws digits post : str) :
  Py.upper f = "DATE_SUB" ->
  Py.contains n
    (Py.upper (pre ++ f ++ "(" ++ arg ++ "," ++ ws ++ digits ++ ")" ++ post))
  = false ->
  Py.contains n (Py.upper pre ++ "DATE") = false
  /\ Py.contains n (Py.upper pre) = false
  /\ Py.contains n (Py.upper arg) = false
  /\ Py.contains n (Py.upper post) = false.
Proof.
  intros Hf Hc. rewrite !upper_app, Hf in Hc.
  set (U := Py.upper pre) in *. set (A := Py.upper arg) in *.
  set (P := Py.upper post) in *. set (WS := Py.upper ws) in *.
  set (D := Py.upper digits) in *.
  change (Py.contains n
            (U ++ "DATE_SUB" ++ "(" ++ A ++ "," ++ WS ++ D ++ ")" ++ P)
          = false) in Hc.
  assert (Py.contains n (U ++ "DATE") = false) as HU.
  { apply (contains_false_l n (U ++ "DATE")
             ("_SUB(" ++ A ++ "," ++ WS ++ D ++ ")" ++ P)).
    rewrite <- app_assoc. exact Hc. }
  split; [exact HU |]. split; [exact (contains_false_l n U "DATE" HU) |].
  split.
  - apply (contains_false_mid n (U ++ "DATE_SUB(") A
             ("," ++ WS ++ D ++ ")" ++ P)).
    rewrite <- app_assoc. exact Hc.
  - apply (contains_false_r n
             (U ++ "DATE_SUB(" ++ A ++ "," ++ WS ++ D ++ ")")).
    rewrite <- !app_assoc. exact Hc.
Qed.

(** No [CURRENT_DATE] in the rewritten call when the query had none. *)
Lemma dateadd_call_no_current_date (pre f arg ws digits post : str) :
  Py.upper f = "DATE_SUB" ->
  digits <> [] -> forallb Py.is_digit digits = true ->
  Py.contains "CURRENT_DATE"
    (Py.upper (pre ++ f ++ "(" ++ arg ++ "," ++ ws ++ digits ++ ")" ++ post))
  = false ->
  Py.contains "CURRENT_DATE"
    (Py.upper
       (pre ++ "DATEADD(DAY, -" ++ digits ++ ", " ++ arg ++ ")" ++ post))
  = false.
Proof.
  intros Hf Hd Hdd Hc.
  destruct (date_sub_call_pieces "CURRENT_DATE" pre f arg ws digits post
              Hf Hc) as (HU & _ & HA & HP).
  rewrite !upper_app.
  rewrite (upper_block Py.is_digit digits upper_char_digit Hdd).
  apply (dateadd_call_clean "CURRENT_DATE" (Py.upper pre) digits
           (Py.upper arg) (Py.upper post));
    try reflexivity; try discriminate; try assumption.
  replace (Py.upper pre ++ "DATEADD(DAY,")
    with ((Py.upper pre ++ "DATE") ++ "ADD(DAY," ++ [])
    by (rewrite <- !app_assoc; reflexivity).
  apply contains_join; [exact HU | reflexivity | reflexivity].
Qed.



(** No match of a pattern [\s] + letters of [n] begins in [pre] when [n]
    does not occur in [pre] and [pre] is followed by a character foreign
    to [n]. *)
Lemma no_match_begins_before_One (cls : ascii -> bool) (n : str)
      (p : pattern) (pre : str) (c0 : ascii) (rest : str) :
  Py.upper n = n ->
  Py.contains n (Py.upper pre) = false ->
  foreign n (Py.upper_char c0) = true ->
  forall k, k < length pre ->
            match_here (One cls :: lit n ++ p) (skipn k (pre ++ c0 :: rest))
            = None.
Proof.
  intros Hup Hc Hf k Hk.
  rewrite skipn_app. replace (k - length pre) with 0 by lia.
  cbn [skipn].
  destruct (skipn k pre) as [| x tail] eqn:Hsk.
  { apply (f_equal (@length ascii)) in Hsk. rewrite length_skipn in Hsk.
    cbn in Hsk. lia. }
  cbn [app match_here]. destruct (cls x); [| reflexivity].
  destruct (match_here (lit n ++ p) (tail ++ c0 :: rest)) as [[g j] |] eqn:Hm;
    [| reflexivity].
  exfalso.
  assert (match_here (lit n ++ p) (tail ++ c0 :: rest) <> None) as Hne
      by congruence.
  apply match_here_lit_startswith in Hne. rewrite Hup in Hne.
  rewrite upper_app in Hne.
  change (Py.upper (c0 :: rest)) with (Py.upper_char c0 :: Py.upper rest)
    in Hne.
  rewrite (startswith_cut n (Py.upper tail) (Py.upper rest) _ Hf) in Hne.
  apply startswith_iff in Hne. destruct Hne as [post Hpost].
  rewrite <- (firstn_skipn k pre), Hsk, upper_app in Hc.
  change (Py.upper (x :: tail)) with ([Py.upper_char x] ++ Py.upper tail)
    in Hc.
  rewrite Hpost in Hc. rewrite app_assoc in Hc.
  rewrite (contains_mono n (Py.upper (firstn k pre) ++ [Py.upper_char x])
             n post) in Hc; [discriminate |].
  apply contains_iff. exists [], []. rewrite app_nil_r. reflexivity.
Qed.

Lemma space_foreign (n : str) (c : ascii) :
  forallb (fun a => negb (Py.is_space a)) n = true ->
  Py.is_space c = true -> foreign n (Py.upper_char c) = true.
Proof.
  intros Hn Hc. rewrite (upper_char_space c Hc).
  apply (foreign_class Py.is_space); assumption.
Qed.

(** The [LIMIT] patterns match a clause [\sLIMIT\s+digits] that ends the
    text; the first one captures the digits. *)
Lemma limit_clause_matches (cap : bool) (c0 : ascii) (l ws digits : str) :
  Py.is_space c0 = true -> Py.upper l = "LIMIT" ->
  ws <> [] -> forallb Py.is_space ws = true ->
  digits <> [] -> forallb Py.is_digit digits = true ->
  match_here
    ([One Py.is_space] ++ lit "LIMIT"
       ++ [Rep Py.is_space 1 false; Rep Py.is_digit 1 cap])
    (c0 :: l ++ ws ++ digits ++ [])
  = Some (if cap then [digits] else [],
          S (length l + (length ws + (length digits + 0)))).
Proof.
  intros Hc0 Hl Hws Hwss Hd Hdd. cbn [app].
  apply match_here_One_exact; [exact Hc0 |].
  apply (match_here_lit_exact "LIMIT" l); [rewrite Hl; reflexivity |].
  apply (match_here_Rep_exact Py.is_space 1 false _ ws (digits ++ [])
           (if cap then [digits] else []));
    [exact Hwss | apply span_digits_space; assumption
     | apply nonempty_length, Hws |].
  apply (match_here_Rep_exact Py.is_digit 1 cap [] digits [] []);
    [exact Hdd | reflexivity | apply nonempty_length, Hd | reflexivity].
Qed.

(** A word without space or digit does not occur in [SELECT TOP n body]
    unless it occurs in [SELECT], in [TOP] or in the body. *)
Lemma top_clause_clean (n digits b : str) :
  n <> [] ->
  forallb (fun a => negb (Py.is_space a)) n = true ->
  forallb (fun a => negb (Py.is_digit a)) n = true ->
  Py.contains n "SELECT" = false -> Py.contains n "TOP" = false ->
  digits <> [] -> forallb Py.is_digit digits = true ->
  Py.contains n (Py.upper b) = false ->
  Py.contains n (Py.upper ("SELECT TOP " ++ digits ++ " " ++ b)) = false.
Proof.
  intros Hn Hsp Hdg Hsel Htop Hd Hdd Hb.
  rewrite !upper_app.
  rewrite (upper_block Py.is_digit digits upper_char_digit Hdd).
  assert (foreign n " " = true) as Hspace
      by (apply (foreign_class Py.is_space); [exact Hsp | reflexivity]).
  assert (Py.contains n [] = false) as Hnil
      by (destruct n; [congruence | reflexivity]).
  change (Py.contains n
            ("SELECT" ++ " "%char
               :: ("TOP" ++ " "%char
                     :: ([] ++ digits ++ " "%char :: Py.upper b)))
          = false).
  apply contains_cut_false; [exact Hspace | exact Hsel |].
  apply contains_cut_false; [exact Hspace | exact Htop |].
  apply contains_block_false;
    [apply (foreign_block Py.is_digit); assumption
    | exact Hd | exact Hn | exact Hnil |].
  apply (contains_cut_false n [] " " (Py.upper b));
    [exact Hspace | exact Hnil | exact Hb].
Qed.

(** The first stage on a query [SELECT body LIMIT n], the clause at its
    end and the only [LIMIT] of the query. *)
Lemma limit_stage (sel wsp body : str) (c0 : ascii) (l ws digits : str) :
  Py.upper sel = "SELECT" ->
  wsp <> [] -> forallb Py.is_space wsp = true ->
  span Py.is_space body = 0 ->
  Py.is_space c0 = true -> Py.upper l = "LIMIT" ->
  ws <> [] -> forallb Py.is_space ws = true ->
  digits <> [] -> forallb Py.is_digit digits = true ->
  Py.contains "LIMIT" (Py.upper body) = false ->
  match search limit_re (sel ++ wsp ++ body ++ [c0] ++ l ++ ws ++ digits) with
  | Some limit_match =>
      sub select_re [Text ("SELECT TOP " ++ group limit_match 1 ++ " ")]
        (sub limit_clause_re []
           (sel ++ wsp ++ body ++ [c0] ++ l ++ ws ++ digits) 0) 1
  | None => sel ++ wsp ++ body ++ [c0] ++ l ++ ws ++ digits
  end
  = "SELECT TOP " ++ digits ++ " " ++ body.
Proof.
  intros Hsel Hwn Hwsp Hbody Hc0 Hl Hws Hwss Hd Hdd Hlim.
  set (head := sel ++ wsp ++ body).
  replace (sel ++ wsp ++ body ++ [c0] ++ l ++ ws ++ digits)
    with (head ++ c0 :: l ++ ws ++ digits ++ [])
    by (unfold head; rewrite app_nil_r, <- !app_assoc; reflexivity).
  (* no LIMIT in the head *)
  assert (Py.contains "LIMIT" (Py.upper head) = false) as Hhead.
  { unfold head. rewrite !upper_app, Hsel.
    rewrite (upper_block Py.is_space wsp upper_char_space Hwsp).
    apply (contains_block_false "LIMIT" "SELECT" wsp (Py.upper body));
      [apply (foreign_block Py.is_space); [reflexivity | exact Hwsp]
      | exact Hwn | discriminate | reflexivity | exact Hlim]. }
  assert (forall cap k, k < length head ->
            match_here
              ([One Py.is_space] ++ lit "LIMIT"
                 ++ [Rep Py.is_space 1 false; Rep Py.is_digit 1 cap])
              (skipn k (head ++ c0 :: l ++ ws ++ digits ++ [])) = None)
    as Hbefore.
  { intros cap. cbn [app].
    apply (no_match_begins_before_One Py.is_space "LIMIT" _ head c0 _
             eq_refl Hhead).
    apply space_foreign; [reflexivity | exact Hc0]. }
  (* the LIMIT clause is found, with its digits *)
  unfold search.
  rewrite (search_from_first limit_re head _ _ _ 0 (Hbefore true)
             (limit_clause_matches true c0 l ws digits
                Hc0 Hl Hws Hwss Hd Hdd)).
  unfold group. cbn [m_groups Nat.sub nth].
  (* and removed *)
  assert (sub limit_clause_re [] (head ++ c0 :: l ++ ws ++ digits ++ []) 0
          = head) as Hrm.
  { unfold sub.
    rewrite (sub_from_first limit_clause_re [] head _ _ _ (Hbefore false)
               (limit_clause_matches false c0 l ws digits
                  Hc0 Hl Hws Hwss Hd Hdd)).
    cbn [expand app].
    replace (skipn _ (c0 :: l ++ ws ++ digits ++ [])) with (@nil ascii).
    - cbn. apply app_nil_r.
    - symmetry. apply skipn_all2. cbn [length].
      rewrite !length_app. cbn. lia. }
  rewrite Hrm.
  (* TOP goes after SELECT *)
  assert (sub select_re [Text ("SELECT TOP " ++ digits ++ " ")] head 1
          = "SELECT TOP " ++ digits ++ " " ++ body) as Htop.
  { unfold sub.
    rewrite (sub_from_once select_re _ head 0 (never_empty_Lit "S" _)).
    assert (match_here select_re head
            = Some ([], length sel + (length wsp + 0))) as Hms.
    { unfold head, select_re.
      apply (match_here_lit_exact "SELECT" sel);
        [rewrite Hsel; reflexivity |].
      apply (match_here_Rep_exact Py.is_space 1 false [] wsp body []);
        [exact Hwsp | exact Hbody | apply nonempty_length, Hwn
        | reflexivity]. }
    pose proof (search_from_first select_re [] head _ _ 0
                  ltac:(intros k Hk; cbn in Hk; lia) Hms) as Hsf.
    cbn [app length Nat.add] in Hsf. rewrite Hsf.
    cbn [m_start m_len m_groups Nat.sub Nat.add length firstn expand].
    replace (skipn _ head) with body.
    2: { unfold head. rewrite app_assoc. symmetry.
         apply skipn_length_app. rewrite length_app. lia. }
    cbn [app]. rewrite app_nil_r, <- !app_assoc. reflexivity. }
  exact Htop.
Qed.



(** A query [SELECT body LIMIT n] whose body has none of the tokens of
    the dialect check is accepted by the check once rewritten; before,
    when the clause is set off by plain spaces, the check reports its
    [LIMIT]. *)
Theorem limit_rewrite_is_conformant (sel wsp body : str) (c0 : ascii)
        (l ws digits : str) :
  Py.upper sel = "SELECT" ->
  wsp <> [] -> forallb Py.is_space wsp = true ->
  span Py.is_space body = 0 ->
  Py.is_space c0 = true -> Py.upper l = "LIMIT" ->
  ws <> [] -> forallb Py.is_space ws = true ->
  digits <> [] -> forallb Py.is_digit digits = true ->
  ~ occurs_ci "LIMIT" body ->
  ~ occurs_ci "DATE_SUB(" body ->
  ~ occurs_ci "DATE_ADD(" body ->
  ~ occurs_ci "CURRENT_DATE" body ->
  valid (validate_sql_syntax
           (convert_spark_to_tsql
              (sel ++ wsp ++ body ++ [c0] ++ l ++ ws ++ digits))) = true
  /\ (c0 = " "%char -> Py.startswith " " ws = true ->
      In issue_limit
        (issues (validate_sql_syntax
                   (sel ++ wsp ++ body ++ [c0] ++ l ++ ws ++ digits)))).
Proof.
  intros Hsel Hwn Hwsp Hbody Hc0 Hl Hws Hwss Hd Hdd Hlim Hds Hda Hcd.
  apply not_occurs_ci_contains in Hlim, Hds, Hda, Hcd.
  split.
  - assert (convert_spark_to_tsql
              (sel ++ wsp ++ body ++ [c0] ++ l ++ ws ++ digits)
            = "SELECT TOP " ++ digits ++ " " ++ body) as ->.
    { unfold convert_spark_to_tsql. cbv zeta.
      rewrite (limit_stage sel wsp body c0 l ws digits
                 Hsel Hwn Hwsp Hbody Hc0 Hl Hws Hwss Hd Hdd Hlim).
      apply later_stages_idle;
        apply top_clause_clean; try reflexivity; try discriminate;
        assumption. }
    apply valid_when_clean.
    + apply contains_limit_word.
      apply top_clause_clean; try reflexivity; try discriminate; assumption.
    + apply top_clause_clean; try reflexivity; try discriminate; assumption.
    + apply andb_false_intro1.
      apply top_clause_clean; try reflexivity; try discriminate; assumption.
    + apply andb_false_intro1.
      apply top_clause_clean; try reflexivity; try discriminate; assumption.
    + apply (any_in_app_l keywords "SELECT"). reflexivity.
  - intros -> Hst. apply startswith_iff in Hst. destruct Hst as [ws' ->].
    apply (proj1 (issue_reported _)). apply contains_iff.
    exists (Py.upper (sel ++ wsp ++ body)), (Py.upper (ws' ++ digits)).
    rewrite !upper_app, Hl.
    repeat (progress (cbn [app]; rewrite <- ?app_assoc)). reflexivity.
Qed.

Lemma limit_rewrite_is_conformant_witness :
  valid (validate_sql_syntax
           (convert_spark_to_tsql
              ("select" ++ " " ++ "* FROM dbo.Users" ++ [" "%char]
                 ++ "limit" ++ " " ++ "10"))) = true
  /\ (" "%char = " "%char -> Py.startswith " " " " = true ->
      In issue_limit
        (issues (validate_sql_syntax
                   ("select" ++ " " ++ "* FROM dbo.Users" ++ [" "%char]
                      ++ "limit" ++ " " ++ "10")))).
Proof.
  apply (limit_rewrite_is_conformant "select" " " "* FROM dbo.Users" " "
           "limit" " " "10");
    try reflexivity; try discriminate;
    apply not_occurs_ci_contains; reflexivity.
Defined.

(** A query with one call [DATE_SUB(arg, digits)], a statement keyword
    before it and none of the other tokens of the dialect check, is
    accepted by the check once rewritten; before, the check reports its
    [DATE_SUB]. *)
Theorem date_sub_rewrite_is_conformant (pre f arg ws digits post : str) :
  Py.upper f = "DATE_SUB" ->
  arg <> [] -> forallb not_comma arg = true ->
  forallb Py.is_space ws = true ->
  digits <> [] -> forallb Py.is_digit digits = true ->
  ~ occurs_ci "DATE_SUB(" pre ->
  ~ occurs_ci "DATE_SUB(" arg ->
  ~ occurs_ci "DATE_SUB(" post ->
  ~ occurs_ci "LIMIT"
      (pre ++ f ++ "(" ++ arg ++ "," ++ ws ++ digits ++ ")" ++ post) ->
  ~ occurs_ci "CURRENT_DATE"
      (pre ++ f ++ "(" ++ arg ++ "," ++ ws ++ digits ++ ")" ++ post) ->
  Py.any_in keywords (Py.upper pre) = true ->
  valid (validate_sql_syntax
           (convert_spark_to_tsql
              (pre ++ f ++ "(" ++ arg ++ "," ++ ws ++ digits ++ ")" ++ post)))
  = true
  /\ In issue_date_sub
       (issues (validate_sql_syntax
                  (pre ++ f ++ "(" ++ arg ++ "," ++ ws ++ digits ++ ")"
                     ++ post))).
Proof.
  intros Hf Harg Hnc Hws Hd Hdd Hpre Harg' Hpost Hlim Hcur Hkw.
  apply not_occurs_ci_contains in Hpre, Harg', Hpost, Hlim, Hcur.
  split.
  - assert (convert_spark_to_tsql
              (pre ++ f ++ "(" ++ arg ++ "," ++ ws ++ digits ++ ")" ++ post)
            = pre ++ "DATEADD(DAY, -" ++ digits ++ ", " ++ arg ++ ")" ++ post)
      as ->.
    { unfold convert_spark_to_tsql. cbv zeta.
      rewrite (limit_re_needs_limit _ Hlim).
      rewrite (date_sub_stage pre f arg ws digits post
                 Hf Harg Hnc Hws Hd Hdd Hpre Hpost).
      apply sub_no_match.
      apply (search_none_without_token "CURRENT_DATE" [] _).
      apply (dateadd_call_no_current_date pre f arg ws digits post);
        assumption. }
    destruct (date_sub_call_pieces "LIMIT" pre f arg ws digits post
                Hf Hlim) as (_ & HLU & HLA & HLP).
    apply valid_when_clean.
    + apply contains_limit_word. rewrite !upper_app.
      rewrite (upper_block Py.is_digit digits upper_char_digit Hdd).
      apply (dateadd_call_clean "LIMIT" (Py.upper pre) digits
               (Py.upper arg) (Py.upper post));
        try reflexivity; try discriminate; try assumption.
      apply contains_glue; [exact HLU | reflexivity | reflexivity].
    + rewrite !upper_app.
      rewrite (upper_block Py.is_digit digits upper_char_digit Hdd).
      apply (dateadd_call_clean "DATE_SUB(" (Py.upper pre) digits
               (Py.upper arg) (Py.upper post));
        try reflexivity; try discriminate; try assumption.
      apply contains_glue; [exact Hpre | reflexivity | reflexivity].
    + apply andb_false_intro2. apply negb_false_iff.
      rewrite upper_app. apply contains_iff.
      exists (Py.upper pre),
        (Py.upper ("DAY, -" ++ digits ++ ", " ++ arg ++ ")" ++ post)).
      reflexivity.
    + apply andb_false_intro1.
      apply (dateadd_call_no_current_date pre f arg ws digits post);
        assumption.
    + rewrite upper_app. apply any_in_app_l. exact Hkw.
  - apply (proj1 (proj2 (issue_reported _))). apply contains_iff.
    exists (Py.upper pre),
      (Py.upper (arg ++ "," ++ ws ++ digits ++ ")" ++ post)).
    rewrite (upper_app pre), (upper_app f), Hf. reflexivity.
Qed.

Lemma date_sub_rewrite_is_conformant_witness :
  valid (validate_sql_syntax
           (convert_spark_to_tsql
              ("SELECT * FROM dbo.Users WHERE Date >= " ++ "Date_Sub" ++ "("
                 ++ "GETDATE()" ++ "," ++ " " ++ "7" ++ ")"
                 ++ " ORDER BY Date")))
  = true
  /\ In issue_date_sub
       (issues (validate_sql_syntax
                  ("SELECT * FROM dbo.Users WHERE Date >= " ++ "Date_Sub"
                     ++ "(" ++ "GETDATE()" ++ "," ++ " " ++ "7" ++ ")"
                     ++ " ORDER BY Date"))).
Proof.
  apply (date_sub_rewrite_is_conformant
           "SELECT * FROM dbo.Users WHERE Date >= "
           "Date_Sub" "GETDATE()" " " "7" " ORDER BY Date");
    try reflexivity; try discriminate;
    apply not_occurs_ci_contains; reflexivity.
Defined.

(** The third stage on a token [CURRENT_DATE], the only one of the
    text. *)
Lemma current_date_stage (pre cd post : str) :
  Py.upper cd = "CURRENT_DATE" ->
  Py.contains "CURRENT_DATE" (Py.upper pre) = false ->
  Py.contains "CURRENT_DATE" (Py.upper post) = false ->
  sub current_date_re [Text "CAST(GETDATE() AS DATE)"]
    (pre ++ cd ++ post) 0
  = pre ++ "CAST(GETDATE() AS DATE)" ++ post.
Proof.
  intros Hcd Hpre Hpost. unfold sub.
  assert (match_here current_date_re (cd ++ post)
          = Some ([], length cd + 0)) as Hm.
  { apply (match_here_lit_exact "CURRENT_DATE" cd [] post [] 0);
      [rewrite Hcd; reflexivity | reflexivity]. }
  assert (Py.upper (cd ++ post) = "CURRENT_DATE" ++ Py.upper post) as Hrest
      by (rewrite upper_app, Hcd; reflexivity).
  rewrite (sub_from_first_pos current_date_re _ pre _ _ _
             (no_match_begins_before "CURRENT_DATE" [] pre "CURRENT_DATE"
                _ _ eq_refl Hpre Hrest eq_refl)
             Hm).
  2: { apply (f_equal (@length ascii)) in Hcd.
       rewrite upper_length in Hcd. rewrite Hcd. cbn. lia. }
  f_equal. cbn [expand].
  replace (skipn (length cd + 0) (cd ++ post)) with post
    by (symmetry; apply skipn_length_app; lia).
  rewrite (sub_from_no_match current_date_re _ None post 0)
    by (apply (search_none_without_token "CURRENT_DATE" [] post Hpost)).
  rewrite app_nil_r. reflexivity.
Qed.



(** A query with one token [CURRENT_DATE], a statement keyword before it
    and none of the other tokens of the dialect check, is accepted by the
    check once rewritten; before, the check reports its [CURRENT_DATE]
    unless the query has [GETDATE()] as well. *)
Theorem current_date_rewrite_is_conformant (pre cd post : str) :
  Py.upper cd = "CURRENT_DATE" ->
  ~ occurs_ci "CURRENT_DATE" pre ->
  ~ occurs_ci "CURRENT_DATE" post ->
  ~ occurs_ci "LIMIT" (pre ++ cd ++ post) ->
  ~ occurs_ci "DATE_SUB(" (pre ++ cd ++ post) ->
  ~ occurs_ci "DATE_ADD(" (pre ++ cd ++ post) ->
  Py.any_in keywords (Py.upper pre) = true ->
  valid (validate_sql_syntax (convert_spark_to_tsql (pre ++ cd ++ post)))
  = true
  /\ (~ occurs_ci "GETDATE()" (pre ++ cd ++ post) ->
      In issue_current_date
        (issues (validate_sql_syntax (pre ++ cd ++ post)))).
Proof.
  intros Hcd Hpre Hpost Hlim Hds Hda Hkw.
  apply not_occurs_ci_contains in Hpre, Hpost, Hlim, Hds, Hda.
  assert (forall n, Py.contains n (Py.upper (pre ++ cd ++ post)) = false ->
                    Py.contains n (Py.upper pre) = false
                    /\ Py.contains n (Py.upper post) = false) as Hpieces.
  { intros n Hn. rewrite !upper_app in Hn. split.
    - exact (contains_false_l n _ _ Hn).
    - rewrite app_assoc in Hn. exact (contains_false_r n _ _ Hn). }
  split.
  - assert (convert_spark_to_tsql (pre ++ cd ++ post)
            = pre ++ "CAST(GETDATE() AS DATE)" ++ post) as ->.
    { unfold convert_spark_to_tsql. cbv zeta.
      rewrite (limit_re_needs_limit _ Hlim).
      rewrite (sub_no_match date_sub_re dateadd_template _ 0)
        by (apply (search_none_without_token "DATE_SUB("); exact Hds).
      apply current_date_stage; assumption. }
    destruct (Hpieces _ Hlim) as [HLU HLP].
    destruct (Hpieces _ Hds) as [HSU HSP].
    destruct (Hpieces _ Hda) as [HAU HAP].
    apply valid_when_clean.
    + apply contains_limit_word. rewrite !upper_app.
      apply (cast_call_clean "LIMIT" (Py.upper pre) (Py.upper post));
        try reflexivity; try discriminate; try assumption.
      apply contains_glue; [exact HLU | reflexivity | reflexivity].
    + rewrite !upper_app.
      apply (cast_call_clean "DATE_SUB(" (Py.upper pre) (Py.upper post));
        try reflexivity; try discriminate; try assumption.
      apply contains_glue; [exact HSU | reflexivity | reflexivity].
    + apply andb_false_intro1. rewrite !upper_app.
      apply (cast_call_clean "DATE_ADD(" (Py.upper pre) (Py.upper post));
        try reflexivity; try discriminate; try assumption.
      apply contains_glue; [exact HAU | reflexivity | reflexivity].
    + apply andb_false_intro2. apply negb_false_iff.
      rewrite upper_app. apply contains_iff.
      exists (Py.upper pre ++ "CAST("), (Py.upper (" AS DATE)" ++ post)).
      rewrite <- app_assoc. reflexivity.
    + rewrite upper_app. apply any_in_app_l. exact Hkw.
  - intros Hg. apply not_occurs_ci_contains in Hg.
    apply (proj2 (proj2 (issue_reported _))); [| exact Hg].
    apply contains_iff. exists (Py.upper pre), (Py.upper post).
    rewrite !upper_app, Hcd. reflexivity.
Qed.

Lemma current_date_rewrite_is_conformant_witness :
  valid (validate_sql_syntax
           (convert_spark_to_tsql
              ("SELECT * FROM dbo.Users WHERE Date = " ++ "Current_Date"
                 ++ " ORDER BY Date")))
  = true
  /\ (~ occurs_ci "GETDATE()"
          ("SELECT * FROM dbo.Users WHERE Date = " ++ "Current_Date"
             ++ " ORDER BY Date") ->
      In issue_current_date
        (issues (validate_sql_syntax
                   ("SELECT * FROM dbo.Users WHERE Date = " ++ "Current_Date"
                      ++ " ORDER BY Date")))).
Proof.
  apply (current_date_rewrite_is_conformant
           "SELECT * FROM dbo.Users WHERE Date = " "Current_Date"
           " ORDER BY Date");
    try reflexivity;
    apply not_occurs_ci_contains; reflexivity.
Defined.

End RewriterShapes.

(** ** Examples from the measures of a Power BI project *)

Section ExtractorProperties.
Import Re pbip_extractor sql_validator Words.




(** *** The queries of the examples and the dialect check *)

Lemma upper_char_word (c : ascii) :
  Py.is_word c = true -> Py.is_word (Py.upper_char c) = true.
Proof.
  destruct c as [[] [] [] [] [] [] [] []]; vm_compute; congruence.
Qed.

Lemma upper_word_block (w : str) :
  forallb Py.is_word w = true -> forallb Py.is_word (Py.upper w) = true.
Proof.
  induction w as [| c w IH]; [reflexivity |]. cbn.
  rewrite !andb_true_iff. intros [Hc Hw].
  split; [apply upper_char_word, Hc | apply IH, Hw].
Qed.

(** A word with a character outside a class does not occur in a block of
    the class, and does not begin one. *)
Lemma startswith_block_free (cls : ascii -> bool) (n w : str) :
  forallb cls w = true ->
  existsb (fun c => negb (cls c)) n = true ->
  Py.startswith n w = false.
Proof.
  intros Hw Hn. apply not_true_is_false. intros Hs.
  apply startswith_iff in Hs. destruct Hs as [post ->].
  rewrite forallb_app in Hw. apply andb_true_iff in Hw.
  destruct Hw as [Hw _].
  apply existsb_exists in Hn. destruct Hn as (c & Hc & Hcls).
  rewrite forallb_forall in Hw. rewrite (Hw c Hc) in Hcls. discriminate.
Qed.

Lemma contains_block_free (cls : ascii -> bool) (n w : str) :
  forallb cls w = true ->
  existsb (fun c => negb (cls c)) n = true ->
  Py.contains n w = false.
Proof.
  intros Hw Hn. apply not_true_is_false. intros Hs.
  apply contains_iff in Hs. destruct Hs as (pre & post & ->).
  rewrite !forallb_app in Hw. apply andb_true_iff in Hw.
  destruct Hw as [_ Hw]. apply andb_true_iff in Hw.
  destruct Hw as [Hw _].
  apply existsb_exists in Hn. destruct Hn as (c & Hc & Hcls).
  rewrite forallb_forall in Hw. rewrite (Hw c Hc) in Hcls. discriminate.
Qed.

(** A word whose every end has a character outside a class does not
    reach into a block of the class. *)
Lemma prefix_block_clean (cls : ascii -> bool) (n x w : str) :
  forallb cls w = true ->
  forallb (fun k => existsb (fun c => negb (cls c)) (skipn k n))
    (seq 0 (length n)) = true ->
  Py.contains n x = false ->
  Py.contains n (x ++ w) = false.
Proof.
  intros Hw Hn Hx. rewrite forallb_forall in Hn.
  destruct n as [| a n]; [destruct x; discriminate |].
  rewrite contains_app, Hx.
  rewrite (contains_block_free cls (a :: n) w Hw)
    by (apply (Hn 0); apply in_seq; cbn; lia).
  cbn [orb]. unfold straddles. apply not_true_is_false. intros Hs.
  apply existsb_exists in Hs. destruct Hs as (k & Hk & Hs).
  apply andb_true_iff in Hs. destruct Hs as [_ Hs].
  apply in_cuts in Hk.
  rewrite (startswith_block_free cls (skipn k (a :: n)) w Hw) in Hs;
    [discriminate |].
  apply Hn. apply in_seq. lia.
Qed.

Ltac fixed_piece H :=
  let Hf := fresh in
  pose proof H as Hf; rewrite forallb_forall in Hf;
  apply negb_true_iff; apply Hf;
  cbn [In]; repeat first [left; reflexivity | right].

(** A word without space, parenthesis or dot occurs in the query of an
    example only inside the column, the measure name or the table. *)
Lemma example_sql_clean_word (n : str) (a : aggregate)
      (measure_name e table column : str) :
  foreign n " " = true -> foreign n "(" = true ->
  foreign n ")" = true -> foreign n "." = true ->
  forallb (fun x => negb (Py.contains n x))
    ["SELECT"; "COUNT"; "DISTINCT"; "SUM"; "AVG"; "CAST"; "MAX"; "MIN";
     "AS"; "FLOAT"; "FROM"; "DBO"; []] = true ->
  Py.contains n (Py.upper column) = false ->
  Py.contains n (Py.upper measure_name) = false ->
  Py.contains n (Py.upper table) = false ->
  Py.contains n (Py.upper (sql (example_of a measure_name e table column)))
  = false.
Proof.
  intros Hsp Hop Hcl Hdot Hfix HC HN HT.
  assert (forall z,
            z = Py.upper measure_name ++ Py.upper " FROM dbo."
                  ++ Py.upper table ->
            Py.contains n (" "%char :: "AS" ++ " "%char :: z) = false)
    as Htail.
  { intros z ->.
    apply (contains_cut_false n [] " "); [exact Hsp | fixed_piece Hfix |].
    apply (contains_cut_false n "AS" " "); [exact Hsp | fixed_piece Hfix |].
    apply (contains_cut_false n (Py.upper measure_name) " ");
      [exact Hsp | exact HN |].
    apply (contains_cut_false n "FROM" " "); [exact Hsp | fixed_piece Hfix |].
    apply (contains_cut_false n "DBO" "."); [exact Hdot | fixed_piece Hfix |].
    exact HT. }
  destruct a; cbn [sql example_of sql_aggregate];
    rewrite <- ?app_assoc; rewrite !upper_app;
    (apply (contains_cut_false n "SELECT" " ");
     [exact Hsp | fixed_piece Hfix |]).
  - apply (contains_cut_false n "COUNT" "(");
      [exact Hop | fixed_piece Hfix |].
    apply (contains_cut_false n "DISTINCT" " ");
      [exact Hsp | fixed_piece Hfix |].
    apply (contains_cut_false n (Py.upper column) ")");
      [exact Hcl | exact HC |].
    apply Htail. reflexivity.
  - apply (contains_cut_false n "SUM" "(");
      [exact Hop | fixed_piece Hfix |].
    apply (contains_cut_false n (Py.upper column) ")");
      [exact Hcl | exact HC |].
    apply Htail. reflexivity.
  - apply (contains_cut_false n "AVG" "(");
      [exact Hop | fixed_piece Hfix |].
    apply (contains_cut_false n "CAST" "(");
      [exact Hop | fixed_piece Hfix |].
    apply (contains_cut_false n (Py.upper column) " ");
      [exact Hsp | exact HC |].
    apply (contains_cut_false n "AS" " "); [exact Hsp | fixed_piece Hfix |].
    apply (contains_cut_false n "FLOAT" ")");
      [exact Hcl | fixed_piece Hfix |].
    apply (contains_cut_false n [] ")"); [exact Hcl | fixed_piece Hfix |].
    apply Htail. reflexivity.
  - apply (contains_cut_false n "COUNT" "(");
      [exact Hop | fixed_piece Hfix |].
    apply (contains_cut_false n (Py.upper column) ")");
      [exact Hcl | exact HC |].
    apply Htail. reflexivity.
  - apply (contains_cut_false n "MAX" "(");
      [exact Hop | fixed_piece Hfix |].
    apply (contains_cut_false n (Py.upper column) ")");
      [exact Hcl | exact HC |].
    apply Htail. reflexivity.
  - apply (contains_cut_false n "MIN" "(");
      [exact Hop | fixed_piece Hfix |].
    apply (contains_cut_false n (Py.upper column) ")");
      [exact Hcl | exact HC |].
    apply Htail. reflexivity.
Qed.

(** A word that ends with an opening parenthesis, such as [DATE_SUB(],
    occurs in the query of an example only inside the measure name. *)
Lemma example_sql_clean_call (n : str) (a : aggregate)
      (measure_name e table column : str) :
  foreign n " " = true -> foreign n ")" = true -> foreign n "." = true ->
  forallb (fun k => existsb (fun c => negb (Py.is_word c)) (skipn k n))
    (seq 0 (length n)) = true ->
  forallb (fun x => negb (Py.contains n x))
    ["SELECT"; "COUNT(DISTINCT"; "SUM("; "AVG(CAST("; "COUNT("; "MAX(";
     "MIN("; "AS"; "FLOAT"; "FROM"; "DBO"; []] = true ->
  forallb Py.is_word column = true ->
  forallb Py.is_word table = true ->
  Py.contains n (Py.upper measure_name) = false ->
  Py.contains n (Py.upper (sql (example_of a measure_name e table column)))
  = false.
Proof.
  intros Hsp Hcl Hdot Hn Hfix Hcw Htw HN.
  apply upper_word_block in Hcw, Htw.
  assert (existsb (fun c => negb (Py.is_word c)) n = true) as Hn0.
  { destruct n as [| c n]; [discriminate Hfix |].
    rewrite forallb_forall in Hn. apply (Hn 0). apply in_seq. cbn. lia. }
  pose proof (contains_block_free Py.is_word n _ Hcw Hn0) as HC.
  pose proof (contains_block_free Py.is_word n _ Htw Hn0) as HT.
  assert (forall x, Py.contains n x = false ->
                    Py.contains n (x ++ Py.upper column) = false) as Hpre
      by (intros x Hx; apply (prefix_block_clean Py.is_word); assumption).
  assert (forall z,
            z = Py.upper measure_name ++ Py.upper " FROM dbo."
                  ++ Py.upper table ->
            Py.contains n (" "%char :: "AS" ++ " "%char :: z) = false)
    as Htail.
  { intros z ->.
    apply (contains_cut_false n [] " "); [exact Hsp | fixed_piece Hfix |].
    apply (contains_cut_false n "AS" " "); [exact Hsp | fixed_piece Hfix |].
    apply (contains_cut_false n (Py.upper measure_name) " ");
      [exact Hsp | exact HN |].
    apply (contains_cut_false n "FROM" " "); [exact Hsp | fixed_piece Hfix |].
    apply (contains_cut_false n "DBO" "."); [exact Hdot | fixed_piece Hfix |].
    exact HT. }
  destruct a; cbn [sql example_of sql_aggregate];
    rewrite <- ?app_assoc; rewrite !upper_app;
    (apply (contains_cut_false n "SELECT" " ");
     [exact Hsp | fixed_piece Hfix |]).
  - apply (contains_cut_false n "COUNT(DISTINCT" " ");
      [exact Hsp | fixed_piece Hfix |].
    apply (contains_cut_false n (Py.upper column) ")");
      [exact Hcl | exact HC |].
    apply Htail. reflexivity.
  - apply (contains_cut_false n ("SUM(" ++ Py.upper column) ")");
      [exact Hcl | apply Hpre; fixed_piece Hfix |].
    apply Htail. reflexivity.
  - apply (contains_cut_false n ("AVG(CAST(" ++ Py.upper column) " ");
      [exact Hsp | apply Hpre; fixed_piece Hfix |].
    apply (contains_cut_false n "AS" " "); [exact Hsp | fixed_piece Hfix |].
    apply (contains_cut_false n "FLOAT" ")");
      [exact Hcl | fixed_piece Hfix |].
    apply (contains_cut_false n [] ")"); [exact Hcl | fixed_piece Hfix |].
    apply Htail. reflexivity.
  - apply (contains_cut_false n ("COUNT(" ++ Py.upper column) ")");
      [exact Hcl | apply Hpre; fixed_piece Hfix |].
    apply Htail. reflexivity.
  - apply (contains_cut_false n ("MAX(" ++ Py.upper column) ")");
      [exact Hcl | apply Hpre; fixed_piece Hfix |].
    apply Htail. reflexivity.
  - apply (contains_cut_false n ("MIN(" ++ Py.upper column) ")");
      [exact Hcl | apply Hpre; fixed_piece Hfix |].
    apply Htail. reflexivity.
Qed.

(** A word that does not occur in an expression occurs neither in the
    table nor in the column of a call of the expression. *)
Lemma call_pieces (n func e table column : str) :
  has_call func e table column ->
  Py.contains n (Py.upper e) = false ->
  Py.contains n (Py.upper table) = false
  /\ Py.contains n (Py.upper column) = false.
Proof.
  intros (pre & m & post & -> & f & -> & _) Hc.
  rewrite !upper_app in Hc. split.
  - apply (contains_false_mid n
             (Py.upper pre ++ Py.upper f ++ Py.upper "(") (Py.upper table)
             (Py.upper "[" ++ Py.upper column ++ Py.upper "])"
                ++ Py.upper post)).
    rewrite <- !app_assoc in *. exact Hc.
  - apply (contains_false_mid n
             (Py.upper pre ++ Py.upper f ++ Py.upper "("
                ++ Py.upper table ++ Py.upper "[")
             (Py.upper column) (Py.upper "])" ++ Py.upper post)).
    rewrite <- !app_assoc in *. exact Hc.
Qed.

(** The query of an example passes the dialect check and is left as it
    is by the rewriter, when the measure name has none of the tokens of
    the check and the expression has neither [LIMIT] nor
    [CURRENT_DATE]. *)
Theorem pbip_example_is_conformant (measure_name e : str) (ex : Example) :
  convert_dax_to_example measure_name e = Some ex ->
  ~ occurs_ci "LIMIT" measure_name ->
  ~ occurs_ci "DATE_SUB(" measure_name ->
  ~ occurs_ci "DATE_ADD(" measure_name ->
  ~ occurs_ci "CURRENT_DATE" measure_name ->
  ~ occurs_ci "LIMIT" e ->
  ~ occurs_ci "CURRENT_DATE" e ->
  valid (validate_sql_syntax (sql ex)) = true
  /\ convert_spark_to_tsql (sql ex) = sql ex.
Proof.
  intros Hex HnL HnS HnA HnC HeL HeC.
  apply not_occurs_ci_contains in HnL, HnS, HnA, HnC, HeL, HeC.
  rewrite convert_dax_to_example_by_rules in Hex.
  destruct (selected e) as [a |]; [| discriminate].
  destruct (search (call_re (func_name a)) e) as [m |] eqn:Hs;
    [| discriminate].
  injection Hex as <-.
  eapply search_call_some in Hs; [| apply func_name_upper].
  destruct (call_pieces "LIMIT" _ _ _ _ Hs HeL) as [HLt HLc].
  destruct (call_pieces "CURRENT_DATE" _ _ _ _ Hs HeC) as [HCt HCc].
  destruct Hs as (pre & mt & post & _ & f & _ & _ & _ & Htw & _ & Hcw).
  set (q := sql (example_of a measure_name e (group m 1) (group m 2))).
  assert (Py.contains "LIMIT" (Py.upper q) = false) as HL
      by (apply example_sql_clean_word; try reflexivity; assumption).
  assert (Py.contains "CURRENT_DATE" (Py.upper q) = false) as HC
      by (apply example_sql_clean_word; try reflexivity; assumption).
  assert (Py.contains "DATE_SUB(" (Py.upper q) = false) as HS
      by (apply example_sql_clean_call; try reflexivity; assumption).
  assert (Py.contains "DATE_ADD(" (Py.upper q) = false) as HA
      by (apply example_sql_clean_call; try reflexivity; assumption).
  split.
  - apply valid_when_clean.
    + apply contains_limit_word, HL.
    + exact HS.
    + rewrite HA. reflexivity.
    + rewrite HC. reflexivity.
    + apply (any_in_app_l keywords "SELECT"). reflexivity.
  - unfold convert_spark_to_tsql. cbv zeta.
    rewrite (limit_re_needs_limit _ HL).
    apply later_stages_idle; assumption.
Qed.

Lemma pbip_example_is_conformant_witness :
  valid (validate_sql_syntax
           (sql (example_of Average "AvgSatisfaction"
                   "AVERAGE(UsageMetrics[SatisfactionRate])"
                   "UsageMetrics" "SatisfactionRate"))) = true
  /\ convert_spark_to_tsql
       (sql (example_of Average "AvgSatisfaction"
               "AVERAGE(UsageMetrics[SatisfactionRate])"
               "UsageMetrics" "SatisfactionRate"))
     = sql (example_of Average "AvgSatisfaction"
              "AVERAGE(UsageMetrics[SatisfactionRate])"
              "UsageMetrics" "SatisfactionRate").
Proof.
  apply (pbip_example_is_conformant "AvgSatisfaction"
           "AVERAGE(UsageMetrics[SatisfactionRate])");
    try reflexivity; apply not_occurs_ci_contains; reflexivity.
Defined.

End ExtractorProperties.
